(** * MMKV core (Core/MMKV.cpp): a shallow embedding and its properties

    The orchestration file [Core/MMKV.cpp] is embedded function by function.
    Bytes are integers in [0, 256), fixed-width integers are [Z] with their
    wrap-around written out, [std::string] is [string], and the instance is
    a record threaded through the operations.  Collaborators whose code
    lives in other files of the repository (codec, CRC, MD5, AES, the I/O
    half of the engine) are modelled from the specification; each such
    definition says so in its comment. *)

From Stdlib Require Import ZArith List String Ascii Bool Lia.
From stdpp Require Import base gmap strings list.

Open Scope Z_scope.

(** ** Bytes, words and strings *)

Definition uint8 (x : Z) : Z := x mod 256.
Definition uint32 (x : Z) : Z := x mod 2 ^ 32.
Definition uint64 (x : Z) : Z := x mod 2 ^ 64.

(** [(int32_t) x] and [(int64_t) x]: two's complement reinterpretation. *)
Definition int32 (x : Z) : Z :=
  let u := uint32 x in if u <? 2 ^ 31 then u else u - 2 ^ 32.
Definition int64 (x : Z) : Z :=
  let u := uint64 x in if u <? 2 ^ 63 then u else u - 2 ^ 64.

Definition byte_of_ascii (a : ascii) : Z := Z.of_N (N_of_ascii a).
Definition ascii_of_byte (b : Z) : ascii := ascii_of_N (Z.to_N (uint8 b)).

(** The bytes of a [std::string] ([data()], [length()]). *)
Definition bytes_of_string (s : string) : list Z :=
  map byte_of_ascii (list_ascii_of_string s).
Definition string_of_bytes (l : list Z) : string :=
  string_of_list_ascii (map ascii_of_byte l).

Definition NUL : ascii := "000"%char.

(** Little-endian fixed-width words. *)
Fixpoint le_bytes (n : nat) (x : Z) : list Z :=
  match n with
  | O => []
  | S n' => x mod 256 :: le_bytes n' (x / 256)
  end.

Fixpoint le_value (l : list Z) : Z :=
  match l with
  | [] => 0
  | b :: l' => b + 256 * le_value l'
  end.

(** [memcpy]-style slice of a byte buffer: [len] bytes from offset [off]. *)
Definition slice (off len : Z) (mem : list Z) : list Z :=
  firstn (Z.to_nat len) (skipn (Z.to_nat off) mem).

(** Overwrite [mem] from offset [off] with [bytes] (the caller checks the
    range; bytes that would fall past the end are dropped). *)
Definition blit (off : Z) (bytes mem : list Z) : list Z :=
  firstn (length mem)
    (firstn (Z.to_nat off) mem ++ bytes
       ++ skipn (Z.to_nat off + length bytes)%nat mem).

(** ** CRC32 *)

(** Modelled from the spec: [CRC32] (crc32/Checksum.h) is missing; the
    spec calls it an incremental CRC over the payload.  This is the
    reflected CRC-32 of zlib, [crc32(crc, buf, len)]. *)
Module Checksum.

Definition crc_bit (c : Z) : Z :=
  if Z.testbit c 0 then Z.lxor (Z.shiftr c 1) 0xEDB88320 else Z.shiftr c 1.

Definition crc_byte (c b : Z) : Z :=
  Nat.iter 8 crc_bit (Z.lxor c (uint8 b)).

(** Modelled from the spec: [CRC32(crc, ptr, length)], the incremental CRC
    of the payload; [crc] is the digest so far. *)
Definition CRC32 (crc : Z) (buf : list Z) : Z :=
  Z.lxor (fold_left crc_byte buf (Z.lxor (uint32 crc) 0xFFFFFFFF)) 0xFFFFFFFF.

End Checksum.
Export Checksum.

(** ** MD5 *)

(** Modelled from the spec: [openssl::MD5] (aes/openssl/openssl_md5.h) is
    missing; the spec names the digest as MD5.  This is RFC 1321. *)
Module MD5.

Definition MD5_DIGEST_LENGTH : nat := 16.

Definition add32 (a b : Z) : Z := (a + b) mod 2 ^ 32.
Definition not32 (a : Z) : Z := Z.lxor a 0xFFFFFFFF.
Definition rotl32 (x n : Z) : Z :=
  Z.lor (Z.shiftl x n mod 2 ^ 32) (Z.shiftr x (32 - n)).

Definition shifts : list Z :=
  [7; 12; 17; 22; 7; 12; 17; 22; 7; 12; 17; 22; 7; 12; 17; 22;
   5; 9; 14; 20; 5; 9; 14; 20; 5; 9; 14; 20; 5; 9; 14; 20;
   4; 11; 16; 23; 4; 11; 16; 23; 4; 11; 16; 23; 4; 11; 16; 23;
   6; 10; 15; 21; 6; 10; 15; 21; 6; 10; 15; 21; 6; 10; 15; 21].

Definition sines : list Z :=
  [0xd76aa478; 0xe8c7b756; 0x242070db; 0xc1bdceee;
   0xf57c0faf; 0x4787c62a; 0xa8304613; 0xfd469501;
   0x698098d8; 0x8b44f7af; 0xffff5bb1; 0x895cd7be;
   0x6b901122; 0xfd987193; 0xa679438e; 0x49b40821;
   0xf61e2562; 0xc040b340; 0x265e5a51; 0xe9b6c7aa;
   0xd62f105d; 0x02441453; 0xd8a1e681; 0xe7d3fbc8;
   0x21e1cde6; 0xc33707d6; 0xf4d50d87; 0x455a14ed;
   0xa9e3e905; 0xfcefa3f8; 0x676f02d9; 0x8d2a4c8a;
   0xfffa3942; 0x8771f681; 0x6d9d6122; 0xfde5380c;
   0xa4beea44; 0x4bdecfa9; 0xf6bb4b60; 0xbebfbc70;
   0x289b7ec6; 0xeaa127fa; 0xd4ef3085; 0x04881d05;
   0xd9d4d039; 0xe6db99e5; 0x1fa27cf8; 0xc4ac5665;
   0xf4292244; 0x432aff97; 0xab9423a7; 0xfc93a039;
   0x655b59c3; 0x8f0ccc92; 0xffeff47d; 0x85845dd1;
   0x6fa87e4f; 0xfe2ce6e0; 0xa3014314; 0x4e0811a1;
   0xf7537e82; 0xbd3af235; 0x2ad7d2bb; 0xeb86d391].

Definition padding (len : Z) : list Z :=
  0x80 :: repeat 0 (Z.to_nat ((55 - len) mod 64)) ++ le_bytes 8 (8 * len).

Fixpoint words (n : nat) (block : list Z) : list Z :=
  match n with
  | O => []
  | S n' => le_value (firstn 4 block) :: words n' (skipn 4 block)
  end.

Definition state : Type := Z * Z * Z * Z.

Definition round (M : list Z) (st : state) (i : Z) : state :=
  let '(A, B, C, D) := st in
  let '(F, g) :=
    if i <? 16 then (Z.lor (Z.land B C) (Z.land (not32 B) D), i)
    else if i <? 32 then
      (Z.lor (Z.land D B) (Z.land (not32 D) C), (5 * i + 1) mod 16)
    else if i <? 48 then (Z.lxor B (Z.lxor C D), (3 * i + 5) mod 16)
    else (Z.lxor C (Z.lor B (not32 D)), (7 * i) mod 16) in
  let F' := add32 (add32 (add32 F A) (nth (Z.to_nat i) sines 0))
              (nth (Z.to_nat g) M 0) in
  (D, add32 B (rotl32 F' (nth (Z.to_nat i) shifts 0)), B, C).

Definition block (st : state) (chunk : list Z) : state :=
  let '(a0, b0, c0, d0) := st in
  let '(A, B, C, D) :=
    fold_left (round (words 16 chunk)) (map Z.of_nat (seq 0 64)) st in
  (add32 a0 A, add32 b0 B, add32 c0 C, add32 d0 D).

Fixpoint blocks (n : nat) (st : state) (msg : list Z) : state :=
  match n with
  | O => st
  | S n' => blocks n' (block st (firstn 64 msg)) (skipn 64 msg)
  end.

(** Modelled from the spec: [openssl::MD5(data, length, md)], the 16-byte
    digest the file-name rule hashes with. *)
Definition MD5 (msg : list Z) : list Z :=
  let padded := map uint8 msg ++ padding (Z.of_nat (length msg)) in
  let '(A, B, C, D) :=
    blocks (length padded / 64)
      (0x67452301, 0xefcdab89, 0x98badcfe, 0x10325476) padded in
  le_bytes 4 A ++ le_bytes 4 B ++ le_bytes 4 C ++ le_bytes 4 D.

End MD5.

(** ** AES-128 in CFB mode *)

(** Modelled from the spec: [AESCrypt] (aes/AESCrypt.h, aes/openssl) is
    missing.  The spec gives AES-128 in CFB mode with a 16-byte IV and a
    byte-position counter, [getKey], [resetIV] (given IV or a default one
    derived from the key) and a status snapshot.  The block cipher is
    FIPS-197, the mode is CFB-128 with the position counter. *)
Module AES.

Definition AES_KEY_LEN : nat := 16.

Definition xtime (b : Z) : Z :=
  let d := 2 * b in if d <? 256 then d else Z.lxor (d - 256) 0x1b.

Fixpoint gmul_aux (n : nat) (a b : Z) : Z :=
  match n with
  | O => 0
  | S n' =>
      Z.lxor (if Z.testbit b 0 then a else 0)
        (gmul_aux n' (xtime a) (Z.shiftr b 1))
  end.
Definition gmul : Z -> Z -> Z := gmul_aux 8.

Definition ginv (a : Z) : Z :=
  let a2 := gmul a a in let a4 := gmul a2 a2 in let a8 := gmul a4 a4 in
  let a16 := gmul a8 a8 in let a32 := gmul a16 a16 in
  let a64 := gmul a32 a32 in let a128 := gmul a64 a64 in
  gmul a128 (gmul a64 (gmul a32 (gmul a16 (gmul a8 (gmul a4 a2))))).

Definition rotl8 (b n : Z) : Z :=
  Z.lor (Z.shiftl b n mod 256) (Z.shiftr b (8 - n)).

Definition sbox_of (a : Z) : Z :=
  let b := ginv a in
  Z.lxor b (Z.lxor (rotl8 b 1) (Z.lxor (rotl8 b 2)
    (Z.lxor (rotl8 b 3) (Z.lxor (rotl8 b 4) 0x63)))).

Definition sbox_table : list Z :=
  Eval vm_compute in map (fun i => sbox_of (Z.of_nat i)) (seq 0 256).

Definition sbox (a : Z) : Z := nth (Z.to_nat a) sbox_table 0.

Definition xor_bytes (a b : list Z) : list Z :=
  map (fun p => Z.lxor (fst p) (snd p)) (combine a b).

Definition at_ (st : list Z) (i : nat) : Z := nth i st 0.

Definition SubBytes (st : list Z) : list Z := map sbox st.

Definition ShiftRows (st : list Z) : list Z :=
  map (fun i => at_ st (i mod 4 + 4 * ((i / 4 + i mod 4) mod 4))%nat)
    (seq 0 16).

Definition mix_column (c : list Z) : list Z :=
  let a0 := at_ c 0 in let a1 := at_ c 1 in
  let a2 := at_ c 2 in let a3 := at_ c 3 in
  [Z.lxor (gmul a0 2) (Z.lxor (gmul a1 3) (Z.lxor a2 a3));
   Z.lxor a0 (Z.lxor (gmul a1 2) (Z.lxor (gmul a2 3) a3));
   Z.lxor a0 (Z.lxor a1 (Z.lxor (gmul a2 2) (gmul a3 3)));
   Z.lxor (gmul a0 3) (Z.lxor a1 (Z.lxor a2 (gmul a3 2)))].

Definition MixColumns (st : list Z) : list Z :=
  mix_column (firstn 4 st) ++ mix_column (firstn 4 (skipn 4 st))
    ++ mix_column (firstn 4 (skipn 8 st)) ++ mix_column (skipn 12 st).

Definition next_round_key (rk : list Z) (rcon : Z) : list Z :=
  let t := [Z.lxor (sbox (at_ rk 13)) rcon; sbox (at_ rk 14);
            sbox (at_ rk 15); sbox (at_ rk 12)] in
  let w0 := xor_bytes (firstn 4 rk) t in
  let w1 := xor_bytes (firstn 4 (skipn 4 rk)) w0 in
  let w2 := xor_bytes (firstn 4 (skipn 8 rk)) w1 in
  let w3 := xor_bytes (skipn 12 rk) w2 in
  w0 ++ w1 ++ w2 ++ w3.

Definition rcons : list Z := [1; 2; 4; 8; 16; 32; 64; 128; 0x1b; 0x36].

Definition full_round (st_rk : list Z * list Z) (rcon : Z) :=
  let rk := next_round_key (snd st_rk) rcon in
  (xor_bytes (MixColumns (ShiftRows (SubBytes (fst st_rk)))) rk, rk).

(** [AES_encrypt(in, out, key)] for a 16-byte key and block. *)
Definition AES_encrypt (key blk : list Z) : list Z :=
  let '(st, rk) := fold_left full_round (firstn 9 rcons) (xor_bytes blk key, key) in
  xor_bytes (ShiftRows (SubBytes st)) (next_round_key rk 0x36).

(** Modelled from the spec: the state of [AESCrypt], the key, the current
    IV block and the byte position inside it. *)
Record AESCrypt := {
  m_key : list Z;      (* AES_KEY_LEN bytes, zero padded *)
  m_vector : list Z;   (* the running IV block *)
  m_number : Z         (* position inside the IV block *)
}.

(** The snapshot of [getCurrentStatus]: the IV block and the position. *)
Record AESCryptStatus := { s_vector : list Z; s_number : Z }.

Definition fit16 (l : list Z) : list Z :=
  firstn AES_KEY_LEN (map uint8 l ++ repeat 0 AES_KEY_LEN).

Definition resetIV (iv : option (list Z)) (c : AESCrypt) : AESCrypt :=
  match iv with
  | Some v => {| m_key := m_key c; m_vector := fit16 v; m_number := 0 |}
  | None => {| m_key := m_key c; m_vector := m_key c; m_number := 0 |}
  end.

(** [AESCrypt(key, keyLength)]: at most [AES_KEY_LEN] key bytes are
    kept, the rest of the key array stays zero. *)
Definition new (key : list Z) : AESCrypt :=
  {| m_key := fit16 key; m_vector := fit16 key; m_number := 0 |}.

Definition getKey (c : AESCrypt) : list Z := m_key c.

Definition getCurrentStatus (c : AESCrypt) : AESCryptStatus :=
  {| s_vector := m_vector c; s_number := m_number c |}.

Definition cloneWithStatus (st : AESCryptStatus) (c : AESCrypt) : AESCrypt :=
  {| m_key := m_key c; m_vector := s_vector st; m_number := s_number st |}.

Definition set_nth (i : nat) (x : Z) (l : list Z) : list Z :=
  firstn i l ++ x :: skipn (S i) l.

(** One byte of CFB: refresh the IV block at position 0, combine, feed
    the ciphertext byte back into the block. *)
Definition refresh (c : AESCrypt) : list Z :=
  if m_number c =? 0 then AES_encrypt (m_key c) (m_vector c) else m_vector c.

Definition step (cipher_byte : Z) (c : AESCrypt) : AESCrypt :=
  {| m_key := m_key c;
     m_vector := set_nth (Z.to_nat (m_number c)) cipher_byte (refresh c);
     m_number := (m_number c + 1) mod 16 |}.

Definition keystream (c : AESCrypt) : Z :=
  at_ (refresh c) (Z.to_nat (m_number c)).

(** Modelled from the spec: [encrypt] and [decrypt] process the bytes in
    order and advance the IV state. *)
Fixpoint encrypt (c : AESCrypt) (src : list Z) : list Z * AESCrypt :=
  match src with
  | [] => ([], c)
  | p :: rest =>
      let x := Z.lxor p (keystream c) in
      let '(out, c') := encrypt (step x c) rest in
      (x :: out, c')
  end.

Fixpoint decrypt (c : AESCrypt) (src : list Z) : list Z * AESCrypt :=
  match src with
  | [] => ([], c)
  | x :: rest =>
      let p := Z.lxor x (keystream c) in
      let '(out, c') := decrypt (step x c) rest in
      (p :: out, c')
  end.

End AES.

(** ** The scalar codec *)

(** Modelled from the spec: [PBUtility], [CodedOutputData] and
    [CodedInputData] are missing.  The spec describes a protobuf-compatible
    variable-length encoding of the scalars and length-prefixed bytes
    ([varint(len) || bytes]); fixed-width values are little-endian. *)
Module PBUtility.

(** Modelled from the spec: the variable-length encoding, seven bits per
    byte, low group first, the top bit set on all but the last byte. *)
Fixpoint rawVarint (fuel : nat) (v : Z) : list Z :=
  match fuel with
  | O => []
  | S fuel' =>
      if v <? 128 then [v] else (v mod 128 + 128) :: rawVarint fuel' (v / 128)
  end.

Definition rawVarint32 (v : Z) : list Z := rawVarint 5 (uint32 v).
Definition rawVarint64 (v : Z) : list Z := rawVarint 10 (uint64 v).

Definition pbRawVarint32Size (v : Z) : Z := Z.of_nat (length (rawVarint32 v)).
Definition pbRawVarint64Size (v : Z) : Z := Z.of_nat (length (rawVarint64 v)).
Definition pbFixed32Size : Z := 4.
Definition pbFixed64Size : Z := 8.
Definition pbBoolSize : Z := 1.
Definition pbFloatSize : Z := 4.
Definition pbDoubleSize : Z := 8.
Definition pbInt32Size (v : Z) : Z :=
  if 0 <=? v then pbRawVarint32Size v else 10.
Definition pbUInt32Size (v : Z) : Z := pbRawVarint32Size v.
Definition pbInt64Size (v : Z) : Z := pbRawVarint64Size v.
Definition pbUInt64Size (v : Z) : Z := pbRawVarint64Size v.

End PBUtility.
Export PBUtility.

(** [CodedOutputData output(ptr, size)] followed by one write: the bytes
    land in a buffer of [size] bytes. *)
Module CodedOutputData.

Definition into (size : Z) (bytes : list Z) : list Z :=
  firstn (Z.to_nat size) (bytes ++ repeat 0 (Z.to_nat size)).

Definition writeBool (v : bool) : list Z := [if v then 1 else 0].
Definition writeInt32 (v : Z) : list Z :=
  if 0 <=? v then rawVarint32 v else rawVarint64 v.
Definition writeUInt32 (v : Z) : list Z := rawVarint32 v.
Definition writeInt64 (v : Z) : list Z := rawVarint64 v.
Definition writeUInt64 (v : Z) : list Z := rawVarint64 v.
(** [float] and [double] travel as their IEEE bit patterns. *)
Definition writeFloat (bits : Z) : list Z := le_bytes 4 bits.
Definition writeDouble (bits : Z) : list Z := le_bytes 8 bits.
Definition writeData (bytes : list Z) : list Z :=
  rawVarint32 (Z.of_nat (length bytes)) ++ bytes.

End CodedOutputData.

(** [CodedInputData input(ptr, length)] followed by one read; [None] is a
    thrown exception. *)
Module CodedInputData.

(** Modelled from the spec: the reader of the variable-length encoding;
    running out of bytes throws. *)
Fixpoint readRawVarint (fuel : nat) (buf : list Z) : option (Z * list Z) :=
  match fuel, buf with
  | S fuel', b :: rest =>
      if b <? 128 then Some (b, rest)
      else match readRawVarint fuel' rest with
           | Some (v, rest') => Some (b - 128 + 128 * v, rest')
           | None => None
           end
  | _, _ => None
  end.

Definition readRawVarint32 (buf : list Z) : option (Z * list Z) :=
  match readRawVarint 10 buf with
  | Some (v, rest) => Some (int32 v, rest)
  | None => None
  end.

Definition readRawVarint64 (buf : list Z) : option (Z * list Z) :=
  match readRawVarint 10 buf with
  | Some (v, rest) => Some (int64 v, rest)
  | None => None
  end.

Definition readInt32 (buf : list Z) : option Z := fst <$> readRawVarint32 buf.
Definition readUInt32 (buf : list Z) : option Z :=
  (fun p => uint32 (fst p)) <$> readRawVarint32 buf.
Definition readInt64 (buf : list Z) : option Z := fst <$> readRawVarint64 buf.
Definition readUInt64 (buf : list Z) : option Z :=
  (fun p => uint64 (fst p)) <$> readRawVarint64 buf.
Definition readBool (buf : list Z) : option bool :=
  (fun p => negb (fst p =? 0)) <$> readRawVarint32 buf.

Definition readFixed (n : nat) (buf : list Z) : option Z :=
  if (n <=? length buf)%nat then Some (le_value (firstn n buf)) else None.
Definition readFloat : list Z -> option Z := readFixed 4.
Definition readDouble : list Z -> option Z := readFixed 8.

Definition readData (buf : list Z) : option (list Z) :=
  match readRawVarint32 buf with
  | Some (size, rest) =>
      if (0 <=? size) && (size <=? Z.of_nat (length rest))
      then Some (firstn (Z.to_nat size) rest) else None
  | None => None
  end.

Definition readString (buf : list Z) : option string :=
  string_of_bytes <$> readData buf.

End CodedInputData.

(** ** The meta file, the memory file and the index entries *)

(** Modelled from the spec: [MMKVMetaInfo] (MMKVMetaInfo.hpp) is missing;
    the spec lists its fields in declared order and [write]/[read] over the
    meta file.  The meta file is kept as the fields stored in it. *)
Module MetaInfo.

Definition MMKVVersionDefault : Z := 0.
Definition MMKVVersionRandomIV : Z := 2.

(** Modelled from the spec: the fields of the meta file in declared
    order. *)
Record MMKVMetaInfo := {
  m_crcDigest : Z;
  m_actualSize : Z;
  m_version : Z;
  m_sequence : Z;
  m_iv : list Z;
  m_vector : list Z
}.

Definition empty : MMKVMetaInfo :=
  {| m_crcDigest := 0; m_actualSize := 0; m_version := MMKVVersionDefault;
     m_sequence := 0; m_iv := repeat 0 16; m_vector := repeat 0 16 |}.

Definition with_crcDigest (v : Z) (i : MMKVMetaInfo) : MMKVMetaInfo :=
  {| m_crcDigest := v; m_actualSize := m_actualSize i;
     m_version := m_version i; m_sequence := m_sequence i;
     m_iv := m_iv i; m_vector := m_vector i |}.

End MetaInfo.

(** Modelled from the spec: [MemoryFile] (MemoryFile.h) is missing.  It
    owns the file and its shared mapping, so the mapped bytes are the
    file's bytes; [m_ptr] says whether the mapping is in place and
    [m_quota] is the largest size the device grants on [truncate]. *)
Module MemoryFile.

(** Modelled from the spec: a file and its mapping. *)
Record MemoryFile := {
  m_name : string;
  m_bytes : list Z;
  m_ptr : bool;
  m_quota : Z
}.

Definition getMemory (f : MemoryFile) : option (list Z) :=
  if m_ptr f then Some (m_bytes f) else None.

Definition getFileSize (f : MemoryFile) : Z := Z.of_nat (length (m_bytes f)).

Definition with_bytes (b : list Z) (f : MemoryFile) : MemoryFile :=
  {| m_name := m_name f; m_bytes := b; m_ptr := m_ptr f; m_quota := m_quota f |}.

Definition with_ptr (p : bool) (f : MemoryFile) : MemoryFile :=
  {| m_name := m_name f; m_bytes := m_bytes f; m_ptr := p; m_quota := m_quota f |}.

Definition clearMemoryCache (f : MemoryFile) : MemoryFile := with_ptr false f.
Definition reloadFromFile (f : MemoryFile) : MemoryFile := with_ptr true f.

(** [truncate(newSize)]: extend (zero filled) or cut, then remap. *)
Definition truncate (newSize : Z) (f : MemoryFile) : option MemoryFile :=
  if newSize <=? m_quota f
  then Some (with_ptr true
               (with_bytes (firstn (Z.to_nat newSize)
                              (m_bytes f ++ repeat 0 (Z.to_nat newSize))) f))
  else None.

End MemoryFile.

(** Modelled from the spec: [getPageSize] is missing; [DEFAULT_MMAP_SIZE]
    is initialized from the OS page size, taken as 4096 bytes. *)
Definition DEFAULT_MMAP_SIZE : Z := 4096.

Definition isFileValid_file (f : MemoryFile.MemoryFile) : bool :=
  MemoryFile.m_ptr f && (DEFAULT_MMAP_SIZE <=? MemoryFile.getFileSize f).

(** Modelled from the spec: [KeyValueHolder] (KeyValueHolder.h) is
    missing.  The plain holder is the place of the value bytes in the
    mapping; the crypt holder adds the cipher status at the start of the
    value bytes. *)
Record KeyValueHolder := { offset : Z; valueSize : Z }.

Record KeyValueHolderCrypt := {
  cryptOffset : Z;
  cryptValueSize : Z;
  cryptStatus : AES.AESCryptStatus
}.

(** ** The instance *)

(** The members of [class MMKV] that MMKV.cpp reads or writes.  A
    dictionary pointer is kept as two members, like the mapping of a
    [MemoryFile]: [m_dicPtr] and [m_dicCryptPtr] say whether the pointer
    holds a dictionary ([false] for [nullptr]), [m_dic] and [m_dicCrypt]
    are the entries of that dictionary.  Only the constructor assigns the
    pointers, and it makes one dictionary, never both.  The meta file is
    kept as the fields stored in it, the locks are not kept (every method
    releases what it takes). *)
Record MMKV := {
  m_mmapID : string;
  m_path : string;
  m_crcPath : string;
  m_mmapKey : string;
  m_dic : gmap string KeyValueHolder;
  m_dicCrypt : gmap string KeyValueHolderCrypt;
  m_dicPtr : bool;
  m_dicCryptPtr : bool;
  m_file : MemoryFile.MemoryFile;
  m_metaFile : MetaInfo.MMKVMetaInfo;
  m_metaInfo : MetaInfo.MMKVMetaInfo;
  m_crypter : option AES.AESCrypt;
  m_isInterProcess : bool;
  m_actualSize : Z;
  m_output : option Z;
  m_needLoadFromFile : bool;
  m_hasFullWriteback : bool;
  m_crcDigest : Z
}.

Definition with_mmapKey (v : string) (s : MMKV) : MMKV :=
  {| m_mmapID := m_mmapID s; m_path := m_path s; m_crcPath := m_crcPath s;
     m_mmapKey := v; m_dic := m_dic s; m_dicCrypt := m_dicCrypt s;
     m_dicPtr := m_dicPtr s; m_dicCryptPtr := m_dicCryptPtr s;
     m_file := m_file s; m_metaFile := m_metaFile s; m_metaInfo := m_metaInfo s;
     m_crypter := m_crypter s; m_isInterProcess := m_isInterProcess s;
     m_actualSize := m_actualSize s; m_output := m_output s;
     m_needLoadFromFile := m_needLoadFromFile s;
     m_hasFullWriteback := m_hasFullWriteback s; m_crcDigest := m_crcDigest s |}.

Definition with_dic (v : gmap string KeyValueHolder) (s : MMKV) : MMKV :=
  {| m_mmapID := m_mmapID s; m_path := m_path s; m_crcPath := m_crcPath s;
     m_mmapKey := m_mmapKey s; m_dic := v; m_dicCrypt := m_dicCrypt s;
     m_dicPtr := m_dicPtr s; m_dicCryptPtr := m_dicCryptPtr s;
     m_file := m_file s; m_metaFile := m_metaFile s; m_metaInfo := m_metaInfo s;
     m_crypter := m_crypter s; m_isInterProcess := m_isInterProcess s;
     m_actualSize := m_actualSize s; m_output := m_output s;
     m_needLoadFromFile := m_needLoadFromFile s;
     m_hasFullWriteback := m_hasFullWriteback s; m_crcDigest := m_crcDigest s |}.

Definition with_dicCrypt (v : gmap string KeyValueHolderCrypt) (s : MMKV) : MMKV :=
  {| m_mmapID := m_mmapID s; m_path := m_path s; m_crcPath := m_crcPath s;
     m_mmapKey := m_mmapKey s; m_dic := m_dic s; m_dicCrypt := v;
     m_dicPtr := m_dicPtr s; m_dicCryptPtr := m_dicCryptPtr s;
     m_file := m_file s; m_metaFile := m_metaFile s; m_metaInfo := m_metaInfo s;
     m_crypter := m_crypter s; m_isInterProcess := m_isInterProcess s;
     m_actualSize := m_actualSize s; m_output := m_output s;
     m_needLoadFromFile := m_needLoadFromFile s;
     m_hasFullWriteback := m_hasFullWriteback s; m_crcDigest := m_crcDigest s |}.

Definition with_file (v : MemoryFile.MemoryFile) (s : MMKV) : MMKV :=
  {| m_mmapID := m_mmapID s; m_path := m_path s; m_crcPath := m_crcPath s;
     m_mmapKey := m_mmapKey s; m_dic := m_dic s; m_dicCrypt := m_dicCrypt s;
     m_dicPtr := m_dicPtr s; m_dicCryptPtr := m_dicCryptPtr s;
     m_file := v; m_metaFile := m_metaFile s; m_metaInfo := m_metaInfo s;
     m_crypter := m_crypter s; m_isInterProcess := m_isInterProcess s;
     m_actualSize := m_actualSize s; m_output := m_output s;
     m_needLoadFromFile := m_needLoadFromFile s;
     m_hasFullWriteback := m_hasFullWriteback s; m_crcDigest := m_crcDigest s |}.

Definition with_metaFile (v : MetaInfo.MMKVMetaInfo) (s : MMKV) : MMKV :=
  {| m_mmapID := m_mmapID s; m_path := m_path s; m_crcPath := m_crcPath s;
     m_mmapKey := m_mmapKey s; m_dic := m_dic s; m_dicCrypt := m_dicCrypt s;
     m_dicPtr := m_dicPtr s; m_dicCryptPtr := m_dicCryptPtr s;
     m_file := m_file s; m_metaFile := v; m_metaInfo := m_metaInfo s;
     m_crypter := m_crypter s; m_isInterProcess := m_isInterProcess s;
     m_actualSize := m_actualSize s; m_output := m_output s;
     m_needLoadFromFile := m_needLoadFromFile s;
     m_hasFullWriteback := m_hasFullWriteback s; m_crcDigest := m_crcDigest s |}.

Definition with_metaInfo (v : MetaInfo.MMKVMetaInfo) (s : MMKV) : MMKV :=
  {| m_mmapID := m_mmapID s; m_path := m_path s; m_crcPath := m_crcPath s;
     m_mmapKey := m_mmapKey s; m_dic := m_dic s; m_dicCrypt := m_dicCrypt s;
     m_dicPtr := m_dicPtr s; m_dicCryptPtr := m_dicCryptPtr s;
     m_file := m_file s; m_metaFile := m_metaFile s; m_metaInfo := v;
     m_crypter := m_crypter s; m_isInterProcess := m_isInterProcess s;
     m_actualSize := m_actualSize s; m_output := m_output s;
     m_needLoadFromFile := m_needLoadFromFile s;
     m_hasFullWriteback := m_hasFullWriteback s; m_crcDigest := m_crcDigest s |}.

Definition with_crypter (v : option AES.AESCrypt) (s : MMKV) : MMKV :=
  {| m_mmapID := m_mmapID s; m_path := m_path s; m_crcPath := m_crcPath s;
     m_mmapKey := m_mmapKey s; m_dic := m_dic s; m_dicCrypt := m_dicCrypt s;
     m_dicPtr := m_dicPtr s; m_dicCryptPtr := m_dicCryptPtr s;
     m_file := m_file s; m_metaFile := m_metaFile s; m_metaInfo := m_metaInfo s;
     m_crypter := v; m_isInterProcess := m_isInterProcess s;
     m_actualSize := m_actualSize s; m_output := m_output s;
     m_needLoadFromFile := m_needLoadFromFile s;
     m_hasFullWriteback := m_hasFullWriteback s; m_crcDigest := m_crcDigest s |}.

Definition with_actualSize (v : Z) (s : MMKV) : MMKV :=
  {| m_mmapID := m_mmapID s; m_path := m_path s; m_crcPath := m_crcPath s;
     m_mmapKey := m_mmapKey s; m_dic := m_dic s; m_dicCrypt := m_dicCrypt s;
     m_dicPtr := m_dicPtr s; m_dicCryptPtr := m_dicCryptPtr s;
     m_file := m_file s; m_metaFile := m_metaFile s; m_metaInfo := m_metaInfo s;
     m_crypter := m_crypter s; m_isInterProcess := m_isInterProcess s;
     m_actualSize := v; m_output := m_output s;
     m_needLoadFromFile := m_needLoadFromFile s;
     m_hasFullWriteback := m_hasFullWriteback s; m_crcDigest := m_crcDigest s |}.

Definition with_output (v : option Z) (s : MMKV) : MMKV :=
  {| m_mmapID := m_mmapID s; m_path := m_path s; m_crcPath := m_crcPath s;
     m_mmapKey := m_mmapKey s; m_dic := m_dic s; m_dicCrypt := m_dicCrypt s;
     m_dicPtr := m_dicPtr s; m_dicCryptPtr := m_dicCryptPtr s;
     m_file := m_file s; m_metaFile := m_metaFile s; m_metaInfo := m_metaInfo s;
     m_crypter := m_crypter s; m_isInterProcess := m_isInterProcess s;
     m_actualSize := m_actualSize s; m_output := v;
     m_needLoadFromFile := m_needLoadFromFile s;
     m_hasFullWriteback := m_hasFullWriteback s; m_crcDigest := m_crcDigest s |}.

Definition with_needLoadFromFile (v : bool) (s : MMKV) : MMKV :=
  {| m_mmapID := m_mmapID s; m_path := m_path s; m_crcPath := m_crcPath s;
     m_mmapKey := m_mmapKey s; m_dic := m_dic s; m_dicCrypt := m_dicCrypt s;
     m_dicPtr := m_dicPtr s; m_dicCryptPtr := m_dicCryptPtr s;
     m_file := m_file s; m_metaFile := m_metaFile s; m_metaInfo := m_metaInfo s;
     m_crypter := m_crypter s; m_isInterProcess := m_isInterProcess s;
     m_actualSize := m_actualSize s; m_output := m_output s;
     m_needLoadFromFile := v;
     m_hasFullWriteback := m_hasFullWriteback s; m_crcDigest := m_crcDigest s |}.

Definition with_hasFullWriteback (v : bool) (s : MMKV) : MMKV :=
  {| m_mmapID := m_mmapID s; m_path := m_path s; m_crcPath := m_crcPath s;
     m_mmapKey := m_mmapKey s; m_dic := m_dic s; m_dicCrypt := m_dicCrypt s;
     m_dicPtr := m_dicPtr s; m_dicCryptPtr := m_dicCryptPtr s;
     m_file := m_file s; m_metaFile := m_metaFile s; m_metaInfo := m_metaInfo s;
     m_crypter := m_crypter s; m_isInterProcess := m_isInterProcess s;
     m_actualSize := m_actualSize s; m_output := m_output s;
     m_needLoadFromFile := m_needLoadFromFile s;
     m_hasFullWriteback := v; m_crcDigest := m_crcDigest s |}.

Definition with_crcDigest (v : Z) (s : MMKV) : MMKV :=
  {| m_mmapID := m_mmapID s; m_path := m_path s; m_crcPath := m_crcPath s;
     m_mmapKey := m_mmapKey s; m_dic := m_dic s; m_dicCrypt := m_dicCrypt s;
     m_dicPtr := m_dicPtr s; m_dicCryptPtr := m_dicCryptPtr s;
     m_file := m_file s; m_metaFile := m_metaFile s; m_metaInfo := m_metaInfo s;
     m_crypter := m_crypter s; m_isInterProcess := m_isInterProcess s;
     m_actualSize := m_actualSize s; m_output := m_output s;
     m_needLoadFromFile := m_needLoadFromFile s;
     m_hasFullWriteback := m_hasFullWriteback s; m_crcDigest := v |}.

(** ** Recovery policy (MMKV.cpp, bottom of the file) *)

(** Modelled from the spec: the enums of MMKVPredef.h are missing; the
    handler answers [Discard] or [KeepSameAsOldStrategy] for the error
    kinds [CRCCheckFail] and [FileLengthError]. *)
Inductive MMKVRecoverStrategic := OnErrorDiscard | OnErrorRecover.
Inductive MMKVErrorType := MMKVCRCCheckFail | MMKVFileLength.

(** [g_errorHandler]: a function pointer, [None] when it is [nullptr]. *)
Definition ErrorHandler : Type := string -> MMKVErrorType -> MMKVRecoverStrategic.

Definition onMMKVCRCCheckFail (g_errorHandler : option ErrorHandler)
    (mmapID : string) : MMKVRecoverStrategic :=
  match g_errorHandler with
  | Some handler => handler mmapID MMKVCRCCheckFail
  | None => OnErrorDiscard
  end.

Definition onMMKVFileLengthError (g_errorHandler : option ErrorHandler)
    (mmapID : string) : MMKVRecoverStrategic :=
  match g_errorHandler with
  | Some handler => handler mmapID MMKVFileLength
  | None => OnErrorDiscard
  end.

(** ** File names (MMKV.cpp, [md5] .. [crcPathWithID]) *)

Definition SPECIAL_CHARACTER_DIRECTORY_NAME : string := "specialCharacter".
Definition MMKV_PATH_SLASH : string := "/".
Definition CRC_SUFFIX : string := ".crc".
Definition Fixed32Size : Z := pbFixed32Size.

Definition hex_digit (n : Z) : ascii :=
  ascii_of_byte (if n <? 10 then 48 + n else 87 + n).

(** [snprintf(tmp, sizeof(tmp), "%2.2x", ch)] for a [uint8_t]. *)
Definition hex2 (ch : Z) : string :=
  String (hex_digit (uint8 ch / 16)) (String (hex_digit (uint8 ch mod 16)) "").

(** [md5]: the digest array has [MD5_DIGEST_LENGTH] entries, each printed
    and appended to [buf]. *)
Definition md5 (value : string) : string :=
  let md := MD5.MD5 (bytes_of_string value) in
  fold_left (fun buf ch => buf +:+ hex2 ch) md "".

(** [strchr(s, ch) != nullptr]: the terminating NUL of [s] is part of the
    searched string. *)
Fixpoint strchr (s : string) (ch : ascii) : bool :=
  match s with
  | EmptyString => if ascii_dec ch NUL then true else false
  | String c s' => if ascii_dec c ch then true else strchr s' ch
  end.

Definition specialCharacters : string :=
  "\/:*?" +:+ String "034"%char "<>|".

(** The loop of [encodeFilePath]: stops at the first character found. *)
Fixpoint hasSpecialCharacter (mmapID : string) : bool :=
  match mmapID with
  | EmptyString => false
  | String ch rest =>
      if strchr specialCharacters ch then true else hasSpecialCharacter rest
  end.

Definition encodeFilePath (mmapID : string) : string :=
  if hasSpecialCharacter mmapID
  then SPECIAL_CHARACTER_DIRECTORY_NAME +:+ MMKV_PATH_SLASH +:+ md5 mmapID
  else mmapID.

Definition mmapedKVKey (g_rootDir : string) (mmapID : string)
    (relativePath : option string) : string :=
  match relativePath with
  | Some rp =>
      if negb (String.eqb g_rootDir rp)
      then md5 (rp +:+ MMKV_PATH_SLASH +:+ mmapID) else mmapID
  | None => mmapID
  end.

Definition mappedKVPathWithID (g_rootDir : string) (mmapID : string)
    (relativePath : option string) : string :=
  match relativePath with
  | Some rp => rp +:+ MMKV_PATH_SLASH +:+ encodeFilePath mmapID
  | None => g_rootDir +:+ MMKV_PATH_SLASH +:+ encodeFilePath mmapID
  end.

Definition crcPathWithID (g_rootDir : string) (mmapID : string)
    (relativePath : option string) : string :=
  match relativePath with
  | Some rp => rp +:+ MMKV_PATH_SLASH +:+ encodeFilePath mmapID +:+ CRC_SUFFIX
  | None => g_rootDir +:+ MMKV_PATH_SLASH +:+ encodeFilePath mmapID +:+ CRC_SUFFIX
  end.

(** ** The engine *)

Definition isKeyEmpty (key : string) : bool :=
  match key with EmptyString => true | String _ _ => false end.

Definition KeepSequence : bool := false.
Definition IncreaseSequence : bool := true.

Definition len (l : list Z) : Z := Z.of_nat (length l).

Definition mapped_bytes (s : MMKV) : list Z := MemoryFile.m_bytes (m_file s).

Definition with_mapped_bytes (b : list Z) (s : MMKV) : MMKV :=
  with_file (MemoryFile.with_bytes b (m_file s)) s.

(** Modelled from the spec: [writeActualSize] (MMKV_IO.cpp) is missing.
    It stores the payload length in the 4-byte header of the data file and
    writes [(actualSize, crcDigest)], the IV when one is given, and the
    sequence (incremented first under [IncreaseSequence]) to the meta
    file. *)
Definition writeActualSize (size crcDigest : Z) (iv : option (list Z))
    (increaseSequence : bool) (s : MMKV) : MMKV :=
  let old := m_metaInfo s in
  let info :=
    {| MetaInfo.m_crcDigest := uint32 crcDigest;
       MetaInfo.m_actualSize := uint32 size;
       MetaInfo.m_version := MetaInfo.m_version old;
       MetaInfo.m_sequence :=
         if increaseSequence then uint32 (MetaInfo.m_sequence old + 1)
         else MetaInfo.m_sequence old;
       MetaInfo.m_iv := MetaInfo.m_iv old;
       MetaInfo.m_vector :=
         match iv with
         | Some v => AES.fit16 v
         | None => MetaInfo.m_vector old
         end |} in
  with_metaFile info
    (with_metaInfo info
       (with_mapped_bytes (blit 0 (le_bytes 4 size) (mapped_bytes s)) s)).

(** [MMKV::isFileValid]. *)
Definition isFileValid (s : MMKV) : bool := isFileValid_file (m_file s).

(** [MMKV::checkFileCRCValid]: [actualSize] is a [size_t] cast to
    [uint32_t], [crcDigest] is a [uint32_t].  The callers keep
    [Fixed32Size + actualSize] within the mapping; [slice] stops at the end
    of the mapping, where the source would read past it. *)
Definition checkFileCRCValid (actualSize crcDigest : Z) (s : MMKV) : bool * MMKV :=
  match MemoryFile.getMemory (m_file s) with
  | Some ptr =>
      let s' :=
        with_crcDigest
          (uint32 (CRC32 0 (slice Fixed32Size (uint32 actualSize) ptr))) s in
      if m_crcDigest s' =? uint32 crcDigest then (true, s') else (false, s')
  | None => (false, s)
  end.

(** [MMKV::recaculateCRCDigestWithIV]. *)
Definition recaculateCRCDigestWithIV (iv : option (list Z)) (s : MMKV) : MMKV :=
  match MemoryFile.getMemory (m_file s) with
  | Some ptr =>
      let s1 := with_crcDigest 0 s in
      let s2 :=
        with_crcDigest
          (uint32 (CRC32 0 (slice Fixed32Size (uint32 (m_actualSize s1)) ptr))) s1 in
      writeActualSize (m_actualSize s2) (m_crcDigest s2) iv IncreaseSequence s2
  | None => s
  end.

(** [MMKV::updateCRCDigest]: [ptr] is [None] for [nullptr]. *)
Definition updateCRCDigest (ptr : option (list Z)) (length : Z) (s : MMKV) : MMKV :=
  match ptr with
  | None => s
  | Some bytes =>
      let s1 :=
        with_crcDigest
          (uint32 (CRC32 (m_crcDigest s) (slice 0 (uint32 length) bytes))) s in
      writeActualSize (m_actualSize s1) (m_crcDigest s1) None KeepSequence s1
  end.

(** The IV a crypter restarts from: the stored vector from format version
    [MMKVVersionRandomIV] on, the default one before. *)
Definition resetForLoad (info : MetaInfo.MMKVMetaInfo) (c : AES.AESCrypt) : AES.AESCrypt :=
  if MetaInfo.MMKVVersionRandomIV <=? MetaInfo.m_version info
  then AES.resetIV (Some (MetaInfo.m_vector info)) c
  else AES.resetIV None c.

(** The payload length kept in the 4-byte header of the data file. *)
Definition readActualSize (f : MemoryFile.MemoryFile) : Z :=
  uint32 (le_value (slice 0 Fixed32Size (MemoryFile.m_bytes f))).

(** Whether the dictionary that the crypter selects exists: [m_dicCrypt]
    with a crypter, [m_dic] without. *)
Definition dictionaryInUse (s : MMKV) : bool :=
  match m_crypter s with
  | Some _ => m_dicCryptPtr s
  | None => m_dicPtr s
  end.

(** [MMKV::clearMemoryCache].  Modelled from the spec: [clearDictionary]
    is missing; it empties the dictionary it is given, and a null pointer
    has no entries to lose. *)
Definition clearMemoryCache (s : MMKV) : MMKV :=
  if m_needLoadFromFile s then s
  else
    let s := with_needLoadFromFile true s in
    let s := with_dicCrypt ∅ s in
    let s := with_dic ∅ s in
    let s := with_hasFullWriteback false s in
    let s :=
      match m_crypter s with
      | Some c =>
          if MetaInfo.MMKVVersionRandomIV <=? MetaInfo.m_version (m_metaInfo s)
          then with_crypter
                 (Some (AES.resetIV (Some (MetaInfo.m_vector (m_metaInfo s))) c)) s
          else with_crypter (Some (AES.resetIV None c)) s
      | None => s
      end in
    let s := with_output None s in
    let s := with_file (MemoryFile.clearMemoryCache (m_file s)) s in
    let s := with_actualSize 0 s in
    with_metaInfo (MetaInfo.with_crcDigest 0 (m_metaInfo s)) s.

(** One record of the log: [varint(keyLen) || key || varint(valLen) || val].
    [record_head] is everything before the value bytes. *)
Definition record_head (key : string) (value : list Z) : list Z :=
  rawVarint32 (len (bytes_of_string key)) ++ bytes_of_string key
    ++ rawVarint32 (len value).

Definition record_bytes (key : string) (value : list Z) : list Z :=
  record_head key value ++ value.

(** The records found in a plain-text payload that starts at file offset
    [pos]: key, offset of the value bytes, value length.  The walk stops at
    the first record that does not parse. *)
Fixpoint walk (fuel : nat) (pos : Z) (buf : list Z) : list (string * Z * Z) :=
  match fuel with
  | O => []
  | S fuel' =>
      match CodedInputData.readRawVarint32 buf with
      | Some (keyLen, r1) =>
          if (0 <? keyLen) && (keyLen <=? len r1) then
            match CodedInputData.readRawVarint32 (skipn (Z.to_nat keyLen) r1) with
            | Some (valLen, r3) =>
                if (0 <=? valLen) && (valLen <=? len r3) then
                  let voff := pos + (len buf - len r3) in
                  (string_of_bytes (firstn (Z.to_nat keyLen) r1), voff, valLen)
                    :: walk fuel' (voff + valLen) (skipn (Z.to_nat valLen) r3)
                else []
            | None => []
            end
          else []
      | None => []
      end
  end.

(** Later records shadow earlier ones; a zero-length value is a tombstone. *)
Definition index_plain (entries : list (string * Z * Z)) : gmap string KeyValueHolder :=
  fold_left
    (fun dic e =>
       let '(key, voff, valLen) := e in
       if valLen =? 0 then delete key dic
       else <[key := {| offset := voff; valueSize := valLen |}]> dic)
    entries ∅.

(** The cipher status after the first [n] stored (encrypted) bytes. *)
Definition statusAt (c : AES.AESCrypt) (stored : list Z) (n : Z) : AES.AESCryptStatus :=
  AES.getCurrentStatus (snd (AES.decrypt c (firstn (Z.to_nat n) stored))).

Definition index_crypt (c : AES.AESCrypt) (stored : list Z)
    (entries : list (string * Z * Z)) : gmap string KeyValueHolderCrypt :=
  fold_left
    (fun dic e =>
       let '(key, voff, valLen) := e in
       if valLen =? 0 then delete key dic
       else <[key := {| cryptOffset := voff; cryptValueSize := valLen;
                        cryptStatus := statusAt c stored (voff - Fixed32Size) |}]> dic)
    entries ∅.

(** Build the index over the stored payload (steps 5 of load and 6 of the
    write-back): in crypt mode the payload is decrypted from the status of
    [c], and the cipher is left at the end of the payload. *)
Definition buildIndex (stored : list Z) (s : MMKV) : MMKV :=
  match m_crypter s with
  | Some c =>
      let '(plain, c') := AES.decrypt c stored in
      with_crypter (Some c')
        (with_dicCrypt
           (index_crypt c stored (walk (length plain) Fixed32Size plain)) s)
  | None =>
      with_dic (index_plain (walk (length stored) Fixed32Size stored)) s
  end.

Section Engine.

(** The process-wide error handler, and the source of fresh IVs
    ([AESCrypt::fillRandomIV]) indexed by the sequence being left. *)
Variable g_errorHandler : option ErrorHandler.
Variable fillRandomIV : Z -> list Z.

(** Modelled from the spec: [loadFromFile] (MMKV_IO.cpp) is missing;
    this follows the six steps of the spec's load.  A store that is
    refused stays marked as not loaded. *)
Definition discardAll (s : MMKV) : MMKV :=
  let s := with_dic ∅ (with_dicCrypt ∅ s) in
  let s := with_actualSize 0 (with_crcDigest 0 s) in
  with_needLoadFromFile false (writeActualSize 0 0 None KeepSequence s).

Definition loadPrepare (s : MMKV) : MMKV :=
  with_crypter (resetForLoad (m_metaFile s) <$> m_crypter s)
    (with_metaInfo (m_metaFile s)
       (with_file (MemoryFile.reloadFromFile (m_file s)) s)).

Definition loadKeep (actualSize : Z) (s : MMKV) : MMKV :=
  with_needLoadFromFile false
    (with_actualSize actualSize
       (buildIndex (slice Fixed32Size actualSize (mapped_bytes s)) s)).

Definition loadRefuse (s : MMKV) : MMKV := with_dic ∅ (with_dicCrypt ∅ s).

Definition loadFromFile (s : MMKV) : MMKV :=
  let s1 := loadPrepare s in
  let actualSize := readActualSize (m_file s1) in
  if actualSize + Fixed32Size <=? MemoryFile.getFileSize (m_file s1) then
    let r := checkFileCRCValid actualSize (MetaInfo.m_crcDigest (m_metaInfo s1)) s1 in
    if fst r then loadKeep actualSize (snd r)
    else match onMMKVCRCCheckFail g_errorHandler (m_mmapID s) with
         | OnErrorDiscard => discardAll (snd r)
         | OnErrorRecover => loadKeep actualSize (snd r)
         end
  else match onMMKVFileLengthError g_errorHandler (m_mmapID s) with
       | OnErrorDiscard => discardAll s1
       | OnErrorRecover => loadRefuse s1
       end.

(** Modelled from the spec: [checkLoadData] (MMKV_IO.cpp) is missing.
    A dropped cache is loaded again; otherwise the meta file's sequence
    is compared with the one the instance holds. *)
Definition checkLoadData (s : MMKV) : MMKV :=
  if m_needLoadFromFile s then loadFromFile s
  else if MetaInfo.m_sequence (m_metaFile s) =? MetaInfo.m_sequence (m_metaInfo s)
  then s
  else loadFromFile (clearMemoryCache s).

(** The value bytes of every live key, read through the mapping. *)
Definition valueOf (s : MMKV) (key : string) : list Z :=
  match MemoryFile.getMemory (m_file s) with
  | None => []
  | Some mem =>
      match m_crypter s with
      | Some c =>
          match m_dicCrypt s !! key with
          | Some h =>
              fst (AES.decrypt (AES.cloneWithStatus (cryptStatus h) c)
                     (slice (cryptOffset h) (cryptValueSize h) mem))
          | None => []
          end
      | None =>
          match m_dic s !! key with
          | Some h => slice (offset h) (valueSize h) mem
          | None => []
          end
      end
  end.

(** Modelled from the spec: [getDataForKey] (MMKV_IO.cpp) is missing.
    Reads check freshness, resolve the key in the index and take the
    bytes from the mapping; an absent key gives the empty buffer. *)
Definition getDataForKey (key : string) (s : MMKV) : list Z * MMKV :=
  let s := checkLoadData s in
  (valueOf s key, s).

Definition liveKeys (s : MMKV) : list string :=
  match m_crypter s with
  | Some _ => (map_to_list (m_dicCrypt s)).*1
  | None => (map_to_list (m_dic s)).*1
  end.

(** Geometric growth: double until [needed] fits. *)
Fixpoint doubled (fuel : nat) (size needed : Z) : option Z :=
  if needed <=? size then Some size
  else match fuel with
       | O => None
       | S fuel' => doubled fuel' (2 * size) needed
       end.

Definition expandFile (needed : Z) (f : MemoryFile.MemoryFile)
    : option MemoryFile.MemoryFile :=
  match doubled 64 (MemoryFile.getFileSize f) needed with
  | Some newSize =>
      if newSize =? MemoryFile.getFileSize f then Some f
      else MemoryFile.truncate newSize f
  | None => None
  end.

(** Modelled from the spec: [fullWriteback] (MMKV_IO.cpp) is missing;
    this follows the seven steps of the spec's compaction: the live
    records in one buffer, encrypted from a fresh IV in crypt mode, written
    over the payload (after growing the file when they do not fit), then
    the CRC, the meta file with an increased sequence, and the index. *)
Definition livePayload (s : MMKV) : list Z :=
  flat_map (fun k => record_bytes k (valueOf s k)) (liveKeys s).

Definition freshIV (s : MMKV) : option (list Z) :=
  match m_crypter s with
  | Some _ =>
      if MetaInfo.MMKVVersionRandomIV <=? MetaInfo.m_version (m_metaInfo s)
      then Some (fillRandomIV (MetaInfo.m_sequence (m_metaInfo s)))
      else None
  | None => None
  end.

Definition storedPayload (s : MMKV) : list Z :=
  match AES.resetIV (freshIV s) <$> m_crypter s with
  | Some c => fst (AES.encrypt c (livePayload s))
  | None => livePayload s
  end.

Definition fullWriteback (s : MMKV) : bool * MMKV :=
  if m_hasFullWriteback s then (true, s)
  else
    let stored := storedPayload s in
    match expandFile (Fixed32Size + len stored) (m_file s) with
    | None => (false, s)
    | Some file =>
        let s1 := with_crypter (AES.resetIV (freshIV s) <$> m_crypter s)
                    (with_file file s) in
        let s2 := with_mapped_bytes (blit Fixed32Size stored (mapped_bytes s1)) s1 in
        let s3 := with_actualSize (len stored) s2 in
        let s4 := recaculateCRCDigestWithIV (freshIV s) s3 in
        let s5 := buildIndex stored s4 in
        (true, with_hasFullWriteback true s5)
    end.

Definition roundUp (n align : Z) : Z := (n + align - 1) / align * align.

(** Step 3 of the spec's append: make room for [recLen] more bytes. *)
Definition ensureMemorySize (recLen : Z) (s : MMKV) : option MMKV :=
  if MemoryFile.getFileSize (m_file s) <? Fixed32Size + m_actualSize s + recLen
  then
    let '(ok, s1) := fullWriteback s in
    if ok then
      match expandFile
              (roundUp (Fixed32Size + m_actualSize s1 + recLen) DEFAULT_MMAP_SIZE)
              (m_file s1) with
      | Some file => Some (with_file file s1)
      | None => None
      end
    else None
  else Some s.

(** Steps 2 and 4 to 7 of the spec's append. *)
Definition appendDataWithKey (value : list Z) (key : string) (s : MMKV)
    : bool * MMKV :=
  let head := record_head key value in
  let recLen := len head + len value in
  match ensureMemorySize recLen s with
  | None => (false, s)
  | Some s1 =>
      let at_ := Fixed32Size + m_actualSize s1 in
      let voff := at_ + len head in
      let '(stored, s2) :=
        match m_crypter s1 with
        | Some c =>
            let '(e1, c1) := AES.encrypt c head in
            let '(e2, c2) := AES.encrypt c1 value in
            let dic :=
              if len value =? 0 then delete key (m_dicCrypt s1)
              else <[key := {| cryptOffset := voff; cryptValueSize := len value;
                               cryptStatus := AES.getCurrentStatus c1 |}]>
                     (m_dicCrypt s1) in
            (e1 ++ e2, with_dicCrypt dic (with_crypter (Some c2) s1))
        | None =>
            let dic :=
              if len value =? 0 then delete key (m_dic s1)
              else <[key := {| offset := voff; valueSize := len value |}]> (m_dic s1) in
            (head ++ value, with_dic dic s1)
        end in
      let s3 := with_mapped_bytes (blit at_ stored (mapped_bytes s2)) s2 in
      let s4 := with_actualSize (m_actualSize s3 + recLen) s3 in
      (true, updateCRCDigest (Some stored) recLen s4)
  end.

(** Modelled from the spec: [setDataForKey] (MMKV_IO.cpp) is missing.
    An empty key fails without touching the store; a store that is not
    open or not mapped surfaces as [false]; the record is entered in the
    dictionary in use, so a store that has none takes no record; a data
    holder gets its length prefix here. *)
Definition setDataForKey (data : list Z) (key : string) (isDataHolder : bool)
    (s : MMKV) : bool * MMKV :=
  if isKeyEmpty key then (false, s)
  else
    let s := checkLoadData s in
    if m_needLoadFromFile s || negb (isFileValid s) || negb (dictionaryInUse s)
    then (false, s)
    else
      appendDataWithKey
        (if isDataHolder then CodedOutputData.writeData data else data) key s.

(** Modelled from the spec: [removeDataForKey] (MMKV_IO.cpp) is
    missing.  The single-key remove appends a tombstone through the
    append path, which also erases the entry of the dictionary in use; a
    store that has none has nothing to remove. *)
Definition removeDataForKey (key : string) (s : MMKV) : bool * MMKV :=
  if isKeyEmpty key then (false, s)
  else if m_needLoadFromFile s || negb (isFileValid s) || negb (dictionaryInUse s)
  then (false, s)
  else appendDataWithKey [] key s.

End Engine.

(** ** MMKV.cpp: the instance methods *)

(** [strnlen(key, maxlen)] over a byte array. *)
Fixpoint strnlen (key : list Z) (maxlen : nat) : nat :=
  match maxlen, key with
  | S n, b :: rest => if b =? 0 then O else S (strnlen rest n)
  | _, _ => O
  end.

(** [MMKV::cryptKey]. *)
Definition cryptKey (s : MMKV) : string :=
  match m_crypter s with
  | Some c =>
      let key := AES.getKey c in
      string_of_bytes (firstn (strnlen key AES.AES_KEY_LEN) key)
  | None => ""
  end.

(** [cryptKey && cryptKey->length() > 0]. *)
Definition nonEmptyKey (cryptKey : option string) : option string :=
  match cryptKey with
  | Some (String c k) => Some (String c k)
  | _ => None
  end.

(** [strlen]: a C string ends at its first NUL. *)
Fixpoint c_str (value : string) : string :=
  match value with
  | EmptyString => EmptyString
  | String c rest => if ascii_dec c NUL then EmptyString else String c (c_str rest)
  end.

(** Modelled from the spec: [MiniPBCoder] is missing; a list of strings
    is the length-prefixed run of its length-prefixed items. *)
Definition encodeVector (v : list string) : list Z :=
  CodedOutputData.writeData
    (flat_map (fun x => CodedOutputData.writeData (bytes_of_string x)) v).

Fixpoint decodeItems (fuel : nat) (buf : list Z) : option (list string) :=
  match buf, fuel with
  | [], _ => Some []
  | _, O => None
  | _, S fuel' =>
      match CodedInputData.readData buf with
      | Some item =>
          cons (string_of_bytes item)
            <$> decodeItems fuel'
                  (skipn (Z.to_nat (pbRawVarint32Size (len item)) + length item) buf)
      | None => None
      end
  end.

Definition decodeVector (data : list Z) : option (list string) :=
  match CodedInputData.readData data with
  | Some body => decodeItems (length body) body
  | None => None
  end.

Section Instance.

Variable g_errorHandler : option ErrorHandler.
Variable fillRandomIV : Z -> list Z.

Local Abbreviation checkLoadData := (checkLoadData g_errorHandler).
Local Abbreviation fullWriteback := (fullWriteback fillRandomIV).
Local Abbreviation setDataForKey := (setDataForKey g_errorHandler fillRandomIV).
Local Abbreviation getDataForKey := (getDataForKey g_errorHandler).
Local Abbreviation removeDataForKey := (removeDataForKey fillRandomIV).

(** [MMKV::checkContentChanged]. *)
Definition checkContentChanged (s : MMKV) : MMKV := checkLoadData s.

(** [MMKV::checkReSetCryptKey]. *)
Definition checkReSetCryptKey (cryptKey_ : option string) (s : MMKV) : MMKV :=
  match m_crypter s with
  | Some _ =>
      match nonEmptyKey cryptKey_ with
      | Some key =>
          let oldKey := cryptKey s in
          if negb (String.eqb oldKey key)
          then checkLoadData
                 (with_crypter (Some (AES.new (bytes_of_string key))) s)
          else s
      | None => checkLoadData (with_crypter None s)
      end
  | None =>
      match nonEmptyKey cryptKey_ with
      | Some key =>
          checkLoadData (with_crypter (Some (AES.new (bytes_of_string key))) s)
      | None => s
      end
  end.

(** *** set *)

Definition set_bool (value : bool) (key : string) (s : MMKV) : bool * MMKV :=
  if isKeyEmpty key then (false, s)
  else
    let size := pbBoolSize in
    let data := CodedOutputData.into size (CodedOutputData.writeBool value) in
    setDataForKey data key false s.

Definition set_int32 (value : Z) (key : string) (s : MMKV) : bool * MMKV :=
  if isKeyEmpty key then (false, s)
  else
    let size := pbInt32Size value in
    let data := CodedOutputData.into size (CodedOutputData.writeInt32 value) in
    setDataForKey data key false s.

Definition set_uint32 (value : Z) (key : string) (s : MMKV) : bool * MMKV :=
  if isKeyEmpty key then (false, s)
  else
    let size := pbUInt32Size value in
    let data := CodedOutputData.into size (CodedOutputData.writeUInt32 value) in
    setDataForKey data key false s.

Definition set_int64 (value : Z) (key : string) (s : MMKV) : bool * MMKV :=
  if isKeyEmpty key then (false, s)
  else
    let size := pbInt64Size value in
    let data := CodedOutputData.into size (CodedOutputData.writeInt64 value) in
    setDataForKey data key false s.

Definition set_uint64 (value : Z) (key : string) (s : MMKV) : bool * MMKV :=
  if isKeyEmpty key then (false, s)
  else
    let size := pbUInt64Size value in
    let data := CodedOutputData.into size (CodedOutputData.writeUInt64 value) in
    setDataForKey data key false s.

(** [value] is the bit pattern of the [float]. *)
Definition set_float (value : Z) (key : string) (s : MMKV) : bool * MMKV :=
  if isKeyEmpty key then (false, s)
  else
    let size := pbFloatSize in
    let data := CodedOutputData.into size (CodedOutputData.writeFloat value) in
    setDataForKey data key false s.

(** [value] is the bit pattern of the [double]. *)
Definition set_double (value : Z) (key : string) (s : MMKV) : bool * MMKV :=
  if isKeyEmpty key then (false, s)
  else
    let size := pbDoubleSize in
    let data := CodedOutputData.into size (CodedOutputData.writeDouble value) in
    setDataForKey data key false s.

(** [MMKV::removeValueForKey]. *)
Definition removeValueForKey (key : string) (s : MMKV) : MMKV :=
  if isKeyEmpty key then s
  else
    let s := checkLoadData s in
    snd (removeDataForKey key s).

(** [set(const char *value, key)]: [None] is the null pointer. *)
Definition set_cstr (value : option string) (key : string) (s : MMKV) : bool * MMKV :=
  match value with
  | None => (true, removeValueForKey key s)
  | Some v => setDataForKey (bytes_of_string (c_str v)) key true s
  end.

Definition set_string (value : string) (key : string) (s : MMKV) : bool * MMKV :=
  if isKeyEmpty key then (false, s)
  else setDataForKey (bytes_of_string value) key true s.

(** [set(const MMBuffer &value, key)]. *)
Definition set_bytes (value : list Z) (key : string) (s : MMKV) : bool * MMKV :=
  if isKeyEmpty key then (false, s)
  else setDataForKey value key true s.

Definition set_vector (v : list string) (key : string) (s : MMKV) : bool * MMKV :=
  if isKeyEmpty key then (false, s)
  else
    let data := encodeVector v in
    setDataForKey data key false s.

(** *** get *)

(** [getString(key, result)]: the caller's [result] is threaded through. *)
Definition getString (key : string) (result : string) (s : MMKV)
    : bool * string * MMKV :=
  if isKeyEmpty key then (false, result, s)
  else
    let '(data, s) := getDataForKey key s in
    if 0 <? len data then
      match CodedInputData.readString data with
      | Some r => (true, r, s)
      | None => (false, result, s)
      end
    else (false, result, s).

Definition getBytes (key : string) (s : MMKV) : list Z * MMKV :=
  if isKeyEmpty key then ([], s)
  else
    let '(data, s) := getDataForKey key s in
    if 0 <? len data then
      match CodedInputData.readData data with
      | Some r => (r, s)
      | None => ([], s)
      end
    else ([], s).

Definition getVector (key : string) (result : list string) (s : MMKV)
    : bool * list string * MMKV :=
  if isKeyEmpty key then (false, result, s)
  else
    let '(data, s) := getDataForKey key s in
    if 0 <? len data then
      match decodeVector data with
      | Some r => (true, r, s)
      | None => (false, result, s)
      end
    else (false, result, s).

(** The shape shared by the scalar getters. *)
Definition getScalar {A : Type} (read : list Z -> option A) (key : string)
    (defaultValue : A) (s : MMKV) : A * MMKV :=
  if isKeyEmpty key then (defaultValue, s)
  else
    let '(data, s) := getDataForKey key s in
    if 0 <? len data then
      match read data with
      | Some v => (v, s)
      | None => (defaultValue, s)
      end
    else (defaultValue, s).

Definition getBool := getScalar CodedInputData.readBool.
Definition getInt32 := getScalar CodedInputData.readInt32.
Definition getUInt32 := getScalar CodedInputData.readUInt32.
Definition getInt64 := getScalar CodedInputData.readInt64.
Definition getUInt64 := getScalar CodedInputData.readUInt64.
Definition getFloat := getScalar CodedInputData.readFloat.
Definition getDouble := getScalar CodedInputData.readDouble.

(** [MMKV::getValueSize]. *)
Definition getValueSize (key : string) (actualSize : bool) (s : MMKV) : Z * MMKV :=
  if isKeyEmpty key then (0, s)
  else
    let '(data, s) := getDataForKey key s in
    let whole := (len data, s) in
    if actualSize then
      match CodedInputData.readInt32 data with
      | Some length =>
          if 0 <=? length then
            if pbRawVarint32Size length + length =? len data
            then (length, s) else whole
          else whole
      | None => whole
      end
    else whole.

(** [MMKV::writeValueToBuffer]: the caller's buffer [ptr] is threaded
    through; [size] is an [int32_t]. *)
Definition writeValueToBuffer (key : string) (ptr : list Z) (size : Z) (s : MMKV)
    : Z * list Z * MMKV :=
  if isKeyEmpty key || (size <? 0) then (-1, ptr, s)
  else
    let '(data, s) := getDataForKey key s in
    match CodedInputData.readInt32 data with
    | Some length =>
        let offset := pbRawVarint32Size length in
        if 0 <=? length then
          if offset + length =? len data then
            if length <=? size
            then (length, blit 0 (slice offset length data) ptr, s)
            else (-1, ptr, s)
          else
            if len data <=? size
            then (int32 (len data), blit 0 data ptr, s)
            else (-1, ptr, s)
        else (-1, ptr, s)
    | None => (-1, ptr, s)
    end.

(** *** enumerate *)

(** [containsKey], [count], [allKeys] and [removeValuesForKeys] go through
    the dictionary pointer that the crypter selects without testing it.
    Their result is [None] where the source dereferences a null pointer:
    the call has no defined outcome there. *)

(** [MMKV::containsKey]. *)
Definition containsKey (key : string) (s : MMKV) : option (bool * MMKV) :=
  let s := checkLoadData s in
  match m_crypter s with
  | Some _ =>
      if m_dicCryptPtr s
      then Some (bool_decide (is_Some (m_dicCrypt s !! key)), s)
      else None
  | None =>
      if m_dicPtr s
      then Some (bool_decide (is_Some (m_dic s !! key)), s)
      else None
  end.

(** [MMKV::count]. *)
Definition count (s : MMKV) : option (Z * MMKV) :=
  let s := checkLoadData s in
  match m_crypter s with
  | Some _ =>
      if m_dicCryptPtr s then Some (Z.of_nat (size (m_dicCrypt s)), s) else None
  | None =>
      if m_dicPtr s then Some (Z.of_nat (size (m_dic s)), s) else None
  end.

Definition totalSize (s : MMKV) : Z * MMKV :=
  let s := checkLoadData s in (MemoryFile.getFileSize (m_file s), s).

Definition actualSize (s : MMKV) : Z * MMKV :=
  let s := checkLoadData s in (m_actualSize s, s).

(** [MMKV::allKeys]. *)
Definition allKeys (s : MMKV) : option (list string * MMKV) :=
  let s := checkLoadData s in
  match m_crypter s with
  | Some _ =>
      if m_dicCryptPtr s then Some ((map_to_list (m_dicCrypt s)).*1, s) else None
  | None =>
      if m_dicPtr s then Some ((map_to_list (m_dic s)).*1, s) else None
  end.

(** The two loops of [removeValuesForKeys]: erase what is found and
    count it. *)
Definition eraseKeys {V : Type} (arrKeys : list string) (dic : gmap string V)
    : gmap string V * Z :=
  fold_left
    (fun acc key =>
       match fst acc !! key with
       | Some _ => (delete key (fst acc), snd acc + 1)
       | None => acc
       end)
    arrKeys (dic, 0).

(** [MMKV::removeValuesForKeys]: with two keys or more the loop looks the
    first key up in the dictionary in use at once. *)
Definition removeValuesForKeys (arrKeys : list string) (s : MMKV) : option MMKV :=
  match arrKeys with
  | [] => Some s
  | [key] => Some (removeValueForKey key s)
  | _ =>
      let s := checkLoadData s in
      let looped :=
        match m_crypter s with
        | Some _ =>
            if m_dicCryptPtr s then
              let '(dic, n) := eraseKeys arrKeys (m_dicCrypt s) in
              Some (with_dicCrypt dic s, n)
            else None
        | None =>
            if m_dicPtr s then
              let '(dic, n) := eraseKeys arrKeys (m_dic s) in
              Some (with_dic dic s, n)
            else None
        end in
      match looped with
      | Some (s, deleteCount) =>
          Some (if 0 <? deleteCount
                then snd (fullWriteback (with_hasFullWriteback false s))
                else s)
      | None => None
      end
  end.

End Instance.

(** ** MMKV.cpp: the process-wide state *)

(** What the files of the process hold: data files as bytes, meta files as
    their fields, the directories made so far, and the size the device
    grants to a file. *)
Record Disk := {
  d_data : gmap string (list Z);
  d_meta : gmap string MetaInfo.MMKVMetaInfo;
  d_dirs : list string;
  d_quota : Z
}.

(** Calls that leave the address space of [mmkvWithID]: lock traffic on
    [g_instanceLock], registry look-ups and file system calls, oldest
    first. *)
Inductive Event :=
| EvLock
| EvUnlock
| EvFind (mmapKey : string)
| EvIsFileExist (path : string)
| EvMkPath (path : string)
| EvOpen (path : string).

Record Process := {
  g_instanceDic : gmap string MMKV;
  g_rootDir : string;
  g_errorHandler : option ErrorHandler;
  g_disk : Disk;
  g_specialDirOnce : bool;
  g_trace : list Event
}.

Definition with_instanceDic (v : gmap string MMKV) (p : Process) : Process :=
  {| g_instanceDic := v; g_rootDir := g_rootDir p;
     g_errorHandler := g_errorHandler p; g_disk := g_disk p;
     g_specialDirOnce := g_specialDirOnce p; g_trace := g_trace p |}.

Definition with_errorHandler (v : option ErrorHandler) (p : Process) : Process :=
  {| g_instanceDic := g_instanceDic p; g_rootDir := g_rootDir p;
     g_errorHandler := v; g_disk := g_disk p;
     g_specialDirOnce := g_specialDirOnce p; g_trace := g_trace p |}.

Definition with_disk (v : Disk) (p : Process) : Process :=
  {| g_instanceDic := g_instanceDic p; g_rootDir := g_rootDir p;
     g_errorHandler := g_errorHandler p; g_disk := v;
     g_specialDirOnce := g_specialDirOnce p; g_trace := g_trace p |}.

Definition with_specialDirOnce (v : bool) (p : Process) : Process :=
  {| g_instanceDic := g_instanceDic p; g_rootDir := g_rootDir p;
     g_errorHandler := g_errorHandler p; g_disk := g_disk p;
     g_specialDirOnce := v; g_trace := g_trace p |}.

Definition emit (e : Event) (p : Process) : Process :=
  {| g_instanceDic := g_instanceDic p; g_rootDir := g_rootDir p;
     g_errorHandler := g_errorHandler p; g_disk := g_disk p;
     g_specialDirOnce := g_specialDirOnce p; g_trace := g_trace p ++ [e] |}.

Definition isFileExist (path : string) (p : Process) : bool :=
  bool_decide (path ∈ d_dirs (g_disk p))
  || bool_decide (is_Some (d_data (g_disk p) !! path)).

Definition mkPath (path : string) (p : Process) : Process :=
  let d := g_disk p in
  emit (EvMkPath path)
    (with_disk {| d_data := d_data d; d_meta := d_meta d;
                  d_dirs := path :: d_dirs d; d_quota := d_quota d |} p).

(** [mkSpecialCharacterFileDirectory] under its once token. *)
Definition mkSpecialCharacterFileDirectory (p : Process) : Process :=
  if g_specialDirOnce p then p
  else
    with_specialDirOnce true
      (mkPath (g_rootDir p +:+ MMKV_PATH_SLASH +:+ SPECIAL_CHARACTER_DIRECTORY_NAME) p).

(** [new MemoryFile(path)]: create or open, at least one page, mapped. *)
Definition openMemoryFile (path : string) (d : Disk) : MemoryFile.MemoryFile :=
  let bytes := default [] (d_data d !! path) in
  {| MemoryFile.m_name := path;
     MemoryFile.m_bytes :=
       bytes ++ repeat 0 (Z.to_nat (DEFAULT_MMAP_SIZE - len bytes));
     MemoryFile.m_ptr := true;
     MemoryFile.m_quota := d_quota d |}.

(** Modelled from the spec: the mode flags of MMKVPredef.h are missing;
    only the multi-process bit is tested in MMKV.cpp. *)
Definition MMKV_SINGLE_PROCESS : Z := 1.
Definition MMKV_MULTI_PROCESS : Z := 2.

(** The constructor [MMKV::MMKV(mmapID, mode, cryptKey, relativePath)]. *)
Definition MMKV_new (mmapID : string) (mode : Z) (cryptKey : option string)
    (relativePath : option string) (p : Process) : MMKV * Process :=
  let path := mappedKVPathWithID (g_rootDir p) mmapID relativePath in
  let crcPath := crcPathWithID (g_rootDir p) mmapID relativePath in
  let p := if hasSpecialCharacter mmapID then mkSpecialCharacterFileDirectory p else p in
  let p := emit (EvOpen crcPath) (emit (EvOpen path) p) in
  let kv :=
    {| m_mmapID := mmapID; m_path := path; m_crcPath := crcPath;
       m_mmapKey := ""; m_dic := ∅; m_dicCrypt := ∅;
       m_dicPtr := match nonEmptyKey cryptKey with Some _ => false | None => true end;
       m_dicCryptPtr :=
         match nonEmptyKey cryptKey with Some _ => true | None => false end;
       m_file := openMemoryFile path (g_disk p);
       m_metaFile := default MetaInfo.empty (d_meta (g_disk p) !! crcPath);
       m_metaInfo := MetaInfo.empty;
       m_crypter :=
         match nonEmptyKey cryptKey with
         | Some key => Some (AES.new (bytes_of_string key))
         | None => None
         end;
       m_isInterProcess := negb (Z.land mode MMKV_MULTI_PROCESS =? 0);
       m_actualSize := 0; m_output := None;
       m_needLoadFromFile := true; m_hasFullWriteback := false;
       m_crcDigest := 0 |} in
  (loadFromFile (g_errorHandler p) kv, p).

(** [MMKV::mmkvWithID]: the result is the registry key of the instance,
    [None] for [nullptr]. *)
Definition mmkvWithID (mmapID : string) (mode : Z) (cryptKey : option string)
    (relativePath : option string) (p : Process) : option string * Process :=
  if decide (mmapID = "") then (None, p)
  else
    let p := emit EvLock p in
    let mmapKey := mmapedKVKey (g_rootDir p) mmapID relativePath in
    let p := emit (EvFind mmapKey) p in
    match g_instanceDic p !! mmapKey with
    | Some kv => (Some mmapKey, emit EvUnlock p)
    | None =>
        let p :=
          match relativePath with
          | Some rp =>
              let specialPath :=
                rp +:+ MMKV_PATH_SLASH +:+ SPECIAL_CHARACTER_DIRECTORY_NAME in
              let p' := emit (EvIsFileExist specialPath) p in
              if isFileExist specialPath p' then p' else mkPath specialPath p'
          | None => p
          end in
        let '(kv, p) := MMKV_new mmapID mode cryptKey relativePath p in
        let kv := with_mmapKey mmapKey kv in
        (Some mmapKey, emit EvUnlock (with_instanceDic (<[mmapKey := kv]> (g_instanceDic p)) p))
    end.

(** [MMKV::registerErrorHandler] and [MMKV::unRegisterErrorHandler]. *)
Definition registerErrorHandler (handler : ErrorHandler) (p : Process) : Process :=
  emit EvUnlock (with_errorHandler (Some handler) (emit EvLock p)).

Definition unRegisterErrorHandler (p : Process) : Process :=
  emit EvUnlock (with_errorHandler None (emit EvLock p)).

(** [MMKV::close]: under [g_instanceLock] the instance is looked up by its
    registry key, its entry is erased when found, and the instance is
    destroyed. *)
Definition close (s : MMKV) (p : Process) : Process :=
  let p := emit EvLock p in
  let p := emit (EvFind (m_mmapKey s)) p in
  let p :=
    match g_instanceDic p !! m_mmapKey s with
    | Some _ => with_instanceDic (delete (m_mmapKey s) (g_instanceDic p)) p
    | None => p
    end in
  emit EvUnlock p.

(** ** MMKV.cpp: start-up *)





(** ** Worked stores *)

(** Concrete stores for the examples below: a process with an empty disk,
    stores opened in it, and what a few calls make of them. *)

Definition process0 : Process :=
  {| g_instanceDic := ∅; g_rootDir := "/data/mmkv"; g_errorHandler := None;
     g_disk := {| d_data := ∅; d_meta := ∅; d_dirs := ["/data/mmkv"];
                  d_quota := 65536 |};
     g_specialDirOnce := false; g_trace := [] |}.

Definition noIV (n : Z) : list Z := repeat 0 16.

(** A freshly opened plain store and the same store opened with a key. *)
Definition store0 : MMKV := fst (MMKV_new "settings" MMKV_SINGLE_PROCESS None None process0).
Definition crypt0 : MMKV :=
  fst (MMKV_new "settings" MMKV_SINGLE_PROCESS (Some "0123456789abcdef") None process0).

Definition key16 : string := "0123456789abcdef".

(** [set("a", 1)], then [set("b", -2)], then [set("e", "")]. *)
Definition store1 : MMKV := snd (set_int32 None noIV 1 "a" store0).
Definition store2 : MMKV := snd (set_int32 None noIV (-2) "b" store1).
Definition store3 : MMKV := snd (set_string None noIV "" "e" store2).

(** A store that has just been written back: its flag is set. *)
Definition storeW : MMKV := snd (fullWriteback noIV store1).

(** The crypt store after [set("msg", "hello")]. *)
Definition crypt1 : MMKV := snd (set_string None noIV "hello" "msg" crypt0).

(** The plain store [store1] after a key was attached to it: it has a
    crypter, and the only dictionary it was given is the plain one. *)
Definition attached : MMKV := checkReSetCryptKey None (Some key16) store1.

(** A store keyed with 17 bytes, one more than the cipher keeps, after
    the same [set]. *)
Definition key17 : string := "0123456789abcdefg".
Definition crypt17 : MMKV :=
  snd (set_string None noIV "hello" "msg"
         (fst (MMKV_new "settings" MMKV_SINGLE_PROCESS (Some key17) None process0))).

(** A process whose disk grants a file one page and no more, and a store
    opened there and filled up to its last two bytes by
    [set("big", 4082 bytes)]. *)
Definition processFull : Process :=
  with_disk {| d_data := ∅; d_meta := ∅; d_dirs := ["/data/mmkv"]; d_quota := 4096 |}
    process0.

Definition storeFull : MMKV :=
  snd (set_bytes None noIV (repeat 7 4082) "big"
         (fst (MMKV_new "settings" MMKV_SINGLE_PROCESS None None processFull))).

(** ** Vocabulary of the properties *)

(** The nine characters the file-name rule lists. *)
Definition listedCharacters : list ascii :=
  ["\"; "/"; ":"; "*"; "?"; "034"; "<"; ">"; "|"]%char.

Definition isListed (ch : ascii) : bool := existsb (Ascii.eqb ch) listedCharacters.

Definition containsListed (mmapID : string) : bool :=
  existsb isListed (list_ascii_of_string mmapID).

Definition containsNUL (mmapID : string) : bool :=
  existsb (Ascii.eqb NUL) (list_ascii_of_string mmapID).

Definition isLowerHex (ch : ascii) : bool :=
  existsb (Ascii.eqb ch) (list_ascii_of_string "0123456789abcdef").

Definition sameIdentity (s s' : MMKV) : Prop :=
  m_mmapID s' = m_mmapID s /\ m_path s' = m_path s /\ m_crcPath s' = m_crcPath s.

(** The payload bytes of a mapped data file: offsets [4 .. 4+actualSize-1]. *)
Definition payload (actualSize : Z) (mem : list Z) : list Z :=
  slice Fixed32Size actualSize mem.

Definition inSync (s : MMKV) : Prop :=
  m_needLoadFromFile s = false
  /\ MetaInfo.m_sequence (m_metaFile s) = MetaInfo.m_sequence (m_metaInfo s).

Definition anyPresent {V : Type} (keys : list string) (dic : gmap string V) : bool :=
  existsb (fun key => bool_decide (is_Some (dic !! key))) keys.

Definition erased {V : Type} (keys : list string) (dic : gmap string V) : gmap string V :=
  fold_left (fun d key => delete key d) keys dic.

(** Loaded, mapped, and with a payload length that a [size_t] can hold. *)
Definition ready (s : MMKV) : Prop :=
  m_needLoadFromFile s = false
  /\ MemoryFile.m_ptr (m_file s) = true
  /\ 0 <= m_actualSize s.

(** Whether the key is in the index in use. *)
Definition contains (s : MMKV) (key : string) : bool :=
  match m_crypter s with
  | Some _ => bool_decide (is_Some (m_dicCrypt s !! key))
  | None => bool_decide (is_Some (m_dic s !! key))
  end.

(** An instance that takes records as it is: loaded and in step with its
    meta file, validly mapped, and with its dictionary in use. *)
Definition takesRecords (s : MMKV) : Prop :=
  inSync s /\ isFileValid s = true /\ dictionaryInUse s = true.

(** The bytes one record takes in the file: the length of the key, the
    key, the length of the value, and the [n] bytes of the value. *)
Definition recordSize (key : string) (n : Z) : Z :=
  pbRawVarint32Size (len (bytes_of_string key)) + len (bytes_of_string key)
  + pbRawVarint32Size n + n.

(** Room left in the file for one more record under [key] with [n] value
    bytes. *)
Definition hasRoom (key : string) (n : Z) (s : MMKV) : Prop :=
  Fixed32Size + m_actualSize s + recordSize key n
  <= MemoryFile.getFileSize (m_file s).

(** A file name that every file system takes: none of the nine listed
    characters and no NUL. *)
Definition isSafeName (name : string) : bool :=
  negb (containsListed name) && negb (containsNUL name).

(** What names an instance for its whole life: the id [mmapID()] reports,
    the two paths, the registry key and the process mode. *)
Definition handle (s : MMKV) : string * string * string * string * bool :=
  (m_mmapID s, m_path s, m_crcPath s, m_mmapKey s, m_isInterProcess s).

(** * Properties *)

(** ** Proof steps that recur *)

Ltac case_matches :=
  repeat match goal with
    | |- context [match ?x with _ => _ end] => destruct x eqn:?
    end.

Ltac lens :=
  repeat (rewrite ?length_app, ?length_firstn, ?length_skipn, ?repeat_length,
            ?length_map in *);
  lia.

(** ** Known answers for the modelled primitives *)

Example CRC32_check : CRC32 0 (bytes_of_string "123456789") = 0xCBF43926.
Proof. vm_compute. reflexivity. Qed.

Example CRC32_incremental :
  CRC32 (CRC32 0 (bytes_of_string "1234")) (bytes_of_string "56789") = 0xCBF43926.
Proof. vm_compute. reflexivity. Qed.

Example md5_empty : md5 "" = "d41d8cd98f00b204e9800998ecf8427e".
Proof. vm_compute. reflexivity. Qed.

Example md5_abc : md5 "abc" = "900150983cd24fb0d6963f7d28e17f72".
Proof. vm_compute. reflexivity. Qed.

(** FIPS-197, appendix C.1. *)
Example AES_encrypt_fips197 :
  AES.AES_encrypt (map Z.of_nat (seq 0 16)) (map (fun i => Z.of_nat i * 17) (seq 0 16))
  = [0x69; 0xc4; 0xe0; 0xd8; 0x6a; 0x7b; 0x04; 0x30;
     0xd8; 0xcd; 0xb7; 0x80; 0x70; 0xb4; 0xc5; 0x5a].
Proof. vm_compute. reflexivity. Qed.

(** ** Recovery policy *)

(** C10: without a registered handler both policies answer
    [OnErrorDiscard]; with a handler each policy answers what the handler
    returns for its error kind.  The same holds through
    [registerErrorHandler] and [unRegisterErrorHandler]. *)
Theorem error_policy_resolution :
  (forall mmapID,
      onMMKVCRCCheckFail None mmapID = OnErrorDiscard
      /\ onMMKVFileLengthError None mmapID = OnErrorDiscard)
  /\ (forall handler mmapID,
        onMMKVCRCCheckFail (Some handler) mmapID = handler mmapID MMKVCRCCheckFail
        /\ onMMKVFileLengthError (Some handler) mmapID = handler mmapID MMKVFileLength)
  /\ (forall p mmapID,
        onMMKVCRCCheckFail (g_errorHandler (unRegisterErrorHandler p)) mmapID
          = OnErrorDiscard
        /\ onMMKVFileLengthError (g_errorHandler (unRegisterErrorHandler p)) mmapID
          = OnErrorDiscard)
  /\ (forall p handler mmapID,
        onMMKVCRCCheckFail (g_errorHandler (registerErrorHandler handler p)) mmapID
          = handler mmapID MMKVCRCCheckFail
        /\ onMMKVFileLengthError (g_errorHandler (registerErrorHandler handler p)) mmapID
          = handler mmapID MMKVFileLength).
Proof. repeat split. Qed.

(** ** Opening by id *)

(** C8: [mmkvWithID] with an empty id answers [nullptr] and leaves the
    process untouched: no lock event, no registry look-up, no file system
    call, the registry and the disk as they were. *)
Theorem mmkvWithID_empty_id (mode : Z) (cryptKey : option string)
    (relativePath : option string) (p : Process) :
  mmkvWithID "" mode cryptKey relativePath p = (None, p)
  /\ g_trace (snd (mmkvWithID "" mode cryptKey relativePath p)) = g_trace p
  /\ g_instanceDic (snd (mmkvWithID "" mode cryptKey relativePath p)) = g_instanceDic p
  /\ g_disk (snd (mmkvWithID "" mode cryptKey relativePath p)) = g_disk p.
Proof. unfold mmkvWithID. destruct (decide ("" = "")); [repeat split | congruence]. Qed.

(** For contrast: any other id takes the registry lock first, then looks
    the key up, and answers an instance. *)
Lemma mmkvWithID_nonempty_id (mmapID : string) (mode : Z) (cryptKey : option string)
    (relativePath : option string) (p : Process) :
  mmapID <> "" ->
  exists rest,
    g_trace (snd (mmkvWithID mmapID mode cryptKey relativePath p))
      = g_trace p
          ++ EvLock :: EvFind (mmapedKVKey (g_rootDir p) mmapID relativePath) :: rest
    /\ fst (mmkvWithID mmapID mode cryptKey relativePath p)
       = Some (mmapedKVKey (g_rootDir p) mmapID relativePath).
Proof.
  intros Hne. unfold mmkvWithID.
  destruct (decide (mmapID = "")) as [->|_]; [congruence|].
  cbn [emit g_trace g_rootDir g_instanceDic].
  destruct (g_instanceDic p !! _) as [kv|] eqn:Hfind.
  - exists [EvUnlock]. cbn. rewrite <- !app_assoc. auto.
  - destruct relativePath as [rp|].
    + destruct (isFileExist _ _); unfold MMKV_new;
        destruct (hasSpecialCharacter mmapID);
        unfold mkSpecialCharacterFileDirectory;
        repeat match goal with |- context [if ?b then _ else _] => destruct b end;
        cbn; rewrite <- ?app_assoc; cbn; eauto.
    + unfold MMKV_new; destruct (hasSpecialCharacter mmapID);
        unfold mkSpecialCharacterFileDirectory;
        repeat match goal with |- context [if ?b then _ else _] => destruct b end;
        cbn; rewrite <- ?app_assoc; cbn; eauto.
Qed.

(** ** File names *)

Lemma strchr_specialCharacters (ch : ascii) :
  strchr specialCharacters ch = isListed ch || Ascii.eqb NUL ch.
Proof. destruct ch as [[] [] [] [] [] [] [] []]; vm_compute; reflexivity. Qed.

Lemma hasSpecialCharacter_spec (mmapID : string) :
  hasSpecialCharacter mmapID = containsListed mmapID || containsNUL mmapID.
Proof.
  unfold containsListed, containsNUL.
  induction mmapID as [|ch rest IH]; [reflexivity|].
  cbn [hasSpecialCharacter list_ascii_of_string existsb].
  rewrite strchr_specialCharacters, IH.
  destruct (isListed ch), (Ascii.eqb NUL ch),
    (existsb isListed (list_ascii_of_string rest)); reflexivity.
Qed.

Lemma length_le_bytes (n : nat) (x : Z) : length (le_bytes n x) = n.
Proof. revert x; induction n; intros; cbn; [reflexivity | now rewrite IHn]. Qed.

Lemma MD5_length (msg : list Z) : length (MD5.MD5 msg) = MD5.MD5_DIGEST_LENGTH.
Proof.
  unfold MD5.MD5.
  destruct (MD5.blocks _ _ _) as [[[A B] C] D].
  rewrite !length_app, !length_le_bytes. reflexivity.
Qed.

Lemma hex_digit_lower (n : Z) : 0 <= n < 16 -> isLowerHex (hex_digit n) = true.
Proof.
  intros H.
  assert (Hall : forallb (fun i => isLowerHex (hex_digit (Z.of_nat i))) (seq 0 16) = true)
    by (vm_compute; reflexivity).
  rewrite forallb_forall in Hall.
  rewrite <- (Z2Nat.id n) by lia.
  apply Hall, in_seq. lia.
Qed.

Lemma hex2_chars (ch : Z) :
  exists a b, hex2 ch = String a (String b "")
              /\ isLowerHex a = true /\ isLowerHex b = true.
Proof.
  unfold hex2, uint8. do 2 eexists. split; [reflexivity|].
  assert (0 <= ch mod 256 < 256) by (apply Z.mod_pos_bound; lia).
  split; apply hex_digit_lower.
  - split; [apply Z.div_pos; lia | apply Z.div_lt_upper_bound; lia].
  - apply Z.mod_pos_bound; lia.
Qed.

Lemma list_ascii_app (a b : string) :
  list_ascii_of_string (a +:+ b) = list_ascii_of_string a ++ list_ascii_of_string b.
Proof. induction a as [|c a IH]; simpl; [reflexivity | now rewrite IH]. Qed.

Lemma hex_fold_chars (md : list Z) (buf : string) :
  let out := fold_left (fun buf ch => buf +:+ hex2 ch) md buf in
  length (list_ascii_of_string out)
    = (length (list_ascii_of_string buf) + 2 * length md)%nat
  /\ (forallb isLowerHex (list_ascii_of_string buf) = true ->
      forallb isLowerHex (list_ascii_of_string out) = true).
Proof.
  revert buf; induction md as [|ch md IH]; intros buf; cbn [fold_left].
  - cbn. split; [lia | auto].
  - destruct (IH (buf +:+ hex2 ch)) as [Hlen Hhex].
    destruct (hex2_chars ch) as (a & b & Heq & Ha & Hb).
    split.
    + cbn zeta in Hlen. rewrite Hlen, list_ascii_app, length_app, Heq. cbn. lia.
    + intros Hbuf. apply Hhex.
      rewrite list_ascii_app, forallb_app, Hbuf, Heq.
      cbn [list_ascii_of_string forallb andb]. now rewrite Ha, Hb.
Qed.

Lemma md5_shape (value : string) :
  String.length (md5 value) = 32%nat
  /\ forallb isLowerHex (list_ascii_of_string (md5 value)) = true.
Proof.
  unfold md5.
  destruct (hex_fold_chars (MD5.MD5 (bytes_of_string value)) "") as [Hlen Hhex].
  cbn zeta in *. split; [|apply Hhex; reflexivity].
  rewrite MD5_length in Hlen. cbn in Hlen.
  rewrite <- Hlen.
  generalize (fold_left (fun buf ch => buf +:+ hex2 ch)
                (MD5.MD5 (bytes_of_string value)) "").
  induction s; cbn; [reflexivity | now rewrite IHs].
Qed.

Lemma checkFileCRCValid_frame (actualSize crcDigest : Z) (s : MMKV) :
  snd (checkFileCRCValid actualSize crcDigest s)
  = with_crcDigest (m_crcDigest (snd (checkFileCRCValid actualSize crcDigest s))) s.
Proof. unfold checkFileCRCValid. case_matches; destruct s; reflexivity. Qed.

(** The four ways a load can end. *)
Lemma loadFromFile_cases (P : MMKV -> Prop) (h : option ErrorHandler) (s : MMKV) :
  (forall d, P (loadKeep (readActualSize (m_file (loadPrepare s)))
                  (with_crcDigest d (loadPrepare s)))) ->
  (forall d, P (discardAll (with_crcDigest d (loadPrepare s)))) ->
  P (discardAll (loadPrepare s)) ->
  P (loadRefuse (loadPrepare s)) ->
  P (loadFromFile h s).
Proof.
  intros Hkeep Hdrop Hdrop' Hrefuse. unfold loadFromFile. cbn zeta.
  destruct (_ + _ <=? _).
  - rewrite checkFileCRCValid_frame.
    destruct (fst _); [apply Hkeep|].
    destruct (onMMKVCRCCheckFail h (m_mmapID s)); [apply Hdrop | apply Hkeep].
  - destruct (onMMKVFileLengthError h (m_mmapID s)); assumption.
Qed.

Lemma buildIndex_identity (stored : list Z) (s : MMKV) :
  sameIdentity s (buildIndex stored s).
Proof. unfold buildIndex. case_matches; repeat split. Qed.

Lemma loadFromFile_identity (h : option ErrorHandler) (s : MMKV) :
  sameIdentity s (loadFromFile h s).
Proof.
  apply loadFromFile_cases; intros; try (repeat split; fail).
  unfold loadKeep.
  match goal with
  | |- context [buildIndex ?st ?s2] =>
      destruct (buildIndex_identity st s2) as (H1 & H2 & H3)
  end.
  repeat split; cbn; assumption.
Qed.

(** C6 as stated fails: an id with an embedded NUL contains none of the
    nine listed characters, yet its file name is the hashed one, because
    [strchr] also finds the terminator of the character list. *)
Lemma encodeFilePath_nul_counterexample :
  let mmapID := String "a" (String NUL "b") in
  containsListed mmapID = false
  /\ encodeFilePath mmapID <> mmapID
  /\ encodeFilePath mmapID = "specialCharacter/70350f6027bce3713f6b76473084309b".
Proof. vm_compute. repeat split. discriminate. Qed.

(** C6, amended: an id that contains one of the nine listed characters
    gets the 32-character lowercase hex MD5 of the whole id under
    [specialCharacter]; an id that contains none of them and no NUL is its
    own file name.  (The code sends an id with a NUL down the first branch
    as well.)  The instance keeps the id as given, and the data and meta
    paths are built from the encoded name. *)
Theorem encodeFilePath_spec (mmapID : string) :
  encodeFilePath mmapID
    = (if containsListed mmapID || containsNUL mmapID
       then "specialCharacter" +:+ "/" +:+ md5 mmapID
       else mmapID)
  /\ md5 mmapID
     = fold_left (fun buf ch => buf +:+ hex2 ch) (MD5.MD5 (bytes_of_string mmapID)) ""
  /\ String.length (md5 mmapID) = 32%nat
  /\ forallb isLowerHex (list_ascii_of_string (md5 mmapID)) = true
  /\ (forall mode cryptKey relativePath p,
        let kv := fst (MMKV_new mmapID mode cryptKey relativePath p) in
        m_mmapID kv = mmapID
        /\ m_path kv = mappedKVPathWithID (g_rootDir p) mmapID relativePath
        /\ m_crcPath kv = crcPathWithID (g_rootDir p) mmapID relativePath).
Proof.
  split; [|split; [reflexivity|split; [apply md5_shape|split; [apply md5_shape|]]]].
  - unfold encodeFilePath. rewrite hasSpecialCharacter_spec. reflexivity.
  - intros mode cryptKey relativePath p. unfold MMKV_new. cbn [fst].
    match goal with
    | |- context [loadFromFile ?h ?s] =>
        destruct (loadFromFile_identity h s) as (H1 & H2 & H3)
    end.
    repeat split; assumption.
Qed.

(** ** Integrity check *)

Lemma payload_length (actualSize : Z) (mem : list Z) :
  0 <= actualSize ->
  Fixed32Size + actualSize <= len mem ->
  len (payload actualSize mem) = actualSize.
Proof.
  unfold payload, slice, len, Fixed32Size, pbFixed32Size. intros Hsize Hfit.
  rewrite length_firstn, length_skipn. lia.
Qed.

Lemma payload_past_end (actualSize : Z) (mem : list Z) :
  len mem <= Fixed32Size + actualSize ->
  payload actualSize mem = skipn (Z.to_nat Fixed32Size) mem.
Proof.
  unfold payload, slice, len, Fixed32Size, pbFixed32Size. intros Hpast.
  apply firstn_all2. rewrite length_skipn. lia.
Qed.

(** C7 as stated fails: [actualSize] is cut to 32 bits before the CRC is
    taken.  For the length [2^32 + 4] on a store of one page the check
    answers [true] for the digest of the first 4 payload bytes, which is
    not the digest of the payload the length names (as much of it as the
    file has). *)
Lemma checkFileCRCValid_counterexample :
  MemoryFile.getMemory (m_file store1) = Some (mapped_bytes store1)
  /\ fst (checkFileCRCValid 4294967300 3203471545 store1) = true
  /\ uint32 (CRC32 0 (payload 4 (mapped_bytes store1))) = 3203471545
  /\ uint32 (CRC32 0 (payload 4294967300 (mapped_bytes store1))) <> 3203471545.
Proof.
  assert (Hlen : len (mapped_bytes store1) = 4096) by (vm_compute; reflexivity).
  split; [vm_compute; reflexivity|].
  split; [vm_compute; reflexivity|].
  split; [vm_compute; reflexivity|].
  rewrite payload_past_end
    by (rewrite Hlen; unfold Fixed32Size, pbFixed32Size; lia).
  vm_compute. discriminate.
Qed.

(** C7, amended: for a payload length below [2^32] whose payload lies
    within the mapping, and an expected digest (a [uint32_t]),
    [checkFileCRCValid] recomputes the CRC32 of the payload bytes at
    offsets [4 .. 4+actualSize-1] of the mapping, all [actualSize] of them,
    stores it in [m_crcDigest] and answers whether it equals the expected
    digest; without a mapping it answers [false] and stores nothing. *)
Theorem checkFileCRCValid_spec (actualSize expectedCRC : Z) (s : MMKV) :
  0 <= actualSize < 2 ^ 32 ->
  0 <= expectedCRC < 2 ^ 32 ->
  let r := checkFileCRCValid actualSize expectedCRC s in
  (forall mem,
      MemoryFile.getMemory (m_file s) = Some mem ->
      Fixed32Size + actualSize <= len mem ->
      let digest := uint32 (CRC32 0 (payload actualSize mem)) in
      len (payload actualSize mem) = actualSize
      /\ (fst r = true <-> digest = expectedCRC)
      /\ snd r = with_crcDigest digest s
      /\ m_crcDigest (snd r) = digest)
  /\ (MemoryFile.getMemory (m_file s) = None -> r = (false, s)).
Proof.
  intros Hsize Hcrc r. subst r. split.
  - intros mem Hmem Hfit. cbn zeta.
    split; [apply payload_length; [lia | exact Hfit]|].
    unfold checkFileCRCValid, payload. rewrite Hmem.
    cbn zeta. cbn [m_crcDigest with_crcDigest].
    assert (Ha : uint32 actualSize = actualSize) by (apply Z.mod_small; lia).
    assert (He : uint32 expectedCRC = expectedCRC) by (apply Z.mod_small; lia).
    rewrite Ha, He.
    destruct (Z.eqb_spec (uint32 (CRC32 0 (slice Fixed32Size actualSize mem))) expectedCRC);
      cbn [fst snd]; repeat split; auto; try congruence.
  - unfold checkFileCRCValid. intros ->. reflexivity.
Qed.

Lemma checkFileCRCValid_spec_witness :
  fst (checkFileCRCValid 4 3203471545 store1) = true
  /\ m_crcDigest (snd (checkFileCRCValid 4 3203471545 store1)) = 3203471545.
Proof.
  destruct (checkFileCRCValid_spec 4 3203471545 store1 ltac:(lia) ltac:(lia))
    as [Hmapped _].
  assert (Hmem : MemoryFile.getMemory (m_file store1) = Some (mapped_bytes store1))
    by (vm_compute; reflexivity).
  assert (Hfit : Fixed32Size + 4 <= len (mapped_bytes store1))
    by (vm_compute; discriminate).
  destruct (Hmapped (mapped_bytes store1) Hmem Hfit) as (_ & Hiff & _ & Hdigest).
  split.
  - apply Hiff. vm_compute. reflexivity.
  - rewrite Hdigest. vm_compute. reflexivity.
Defined.

(** The cast to [uint32_t]: a length beyond 32 bits is cut before the CRC
    is taken. *)
Lemma checkFileCRCValid_truncates (actualSize expectedCRC : Z) (s : MMKV) :
  checkFileCRCValid actualSize expectedCRC s
  = checkFileCRCValid (uint32 actualSize) (uint32 expectedCRC) s.
Proof.
  unfold checkFileCRCValid, uint32. now rewrite !Z.mod_mod by lia.
Qed.

(** ** The crypt key *)

Lemma byte_of_ascii_range (a : ascii) : 0 <= byte_of_ascii a < 256.
Proof. unfold byte_of_ascii. pose proof (N_ascii_bounded a). lia. Qed.

Lemma ascii_of_byte_of_ascii (a : ascii) : ascii_of_byte (byte_of_ascii a) = a.
Proof.
  unfold ascii_of_byte, uint8. rewrite Z.mod_small by apply byte_of_ascii_range.
  unfold byte_of_ascii. rewrite N2Z.id. apply ascii_N_embedding.
Qed.

Lemma uint8_byte_of_ascii (a : ascii) : uint8 (byte_of_ascii a) = byte_of_ascii a.
Proof. apply Z.mod_small, byte_of_ascii_range. Qed.

Lemma byte_of_ascii_zero (a : ascii) : byte_of_ascii a = 0 <-> a = NUL.
Proof.
  split; [|intros ->; reflexivity].
  intros H. rewrite <- (ascii_of_byte_of_ascii a), H. reflexivity.
Qed.

Lemma string_of_bytes_of_string (s : string) :
  string_of_bytes (bytes_of_string s) = s.
Proof.
  unfold string_of_bytes, bytes_of_string. rewrite map_map.
  rewrite (map_ext _ id), map_id by apply ascii_of_byte_of_ascii.
  apply string_of_list_ascii_of_string.
Qed.

Lemma key_array_c_str (n m : nat) (key : string) :
  (n <= m)%nat ->
  let k := firstn n (map uint8 (bytes_of_string key) ++ repeat 0 m) in
  string_of_bytes (firstn (strnlen k n) k) = c_str (substring 0 n key).
Proof.
  revert m key. induction n as [|n IH]; intros m key Hle.
  - destruct key; reflexivity.
  - destruct key as [|a rest].
    + destruct m as [|m]; [lia|]. reflexivity.
    + cbn [bytes_of_string list_ascii_of_string map app firstn strnlen substring c_str].
      fold (bytes_of_string rest).
      rewrite !uint8_byte_of_ascii.
      destruct (ascii_dec a NUL) as [->|Hne]; [reflexivity|].
      destruct (Z.eqb_spec (byte_of_ascii a) 0) as [Hz|_];
        [apply byte_of_ascii_zero in Hz; contradiction|].
      cbn [firstn]. unfold string_of_bytes. cbn [map string_of_list_ascii].
      rewrite ascii_of_byte_of_ascii. f_equal.
      apply (IH m rest). lia.
Qed.

Lemma c_str_length (n : nat) (key : string) :
  (String.length (c_str (substring 0 n key)) <= n)%nat.
Proof.
  revert key; induction n as [|n IH]; intros [|a rest]; cbn; try lia.
  destruct (ascii_dec a NUL); cbn; [lia|]. specialize (IH rest). lia.
Qed.

Lemma c_str_no_NUL (value : string) : containsNUL (c_str value) = false.
Proof.
  unfold containsNUL. induction value as [|a rest IH]; [reflexivity|].
  cbn [c_str]. destruct (ascii_dec a NUL) as [->|Hne]; [reflexivity|].
  cbn [list_ascii_of_string existsb]. rewrite IH, orb_false_r.
  apply Ascii.eqb_neq. congruence.
Qed.

Lemma decrypt_key (src : list Z) (c : AES.AESCrypt) :
  AES.m_key (snd (AES.decrypt c src)) = AES.m_key c.
Proof.
  revert c; induction src as [|x rest IH]; intros c; [reflexivity|].
  cbn [AES.decrypt]. specialize (IH (AES.step x c)).
  destruct (AES.decrypt (AES.step x c) rest). exact IH.
Qed.

Lemma encrypt_key (src : list Z) (c : AES.AESCrypt) :
  AES.m_key (snd (AES.encrypt c src)) = AES.m_key c.
Proof.
  revert c; induction src as [|x rest IH]; intros c; [reflexivity|].
  cbn [AES.encrypt].
  specialize (IH (AES.step (Z.lxor x (AES.keystream c)) c)).
  destruct (AES.encrypt _ rest). exact IH.
Qed.

Lemma buildIndex_crypter (stored : list Z) (s : MMKV) :
  AES.m_key <$> m_crypter (buildIndex stored s) = AES.m_key <$> m_crypter s.
Proof.
  unfold buildIndex. destruct (m_crypter s) as [c|] eqn:Hc; [|cbn; now rewrite Hc].
  pose proof (decrypt_key stored c) as Hk.
  destruct (AES.decrypt c stored) as [plain c']. cbn in *. now rewrite Hk.
Qed.

Lemma loadFromFile_crypter_key (h : option ErrorHandler) (s : MMKV) :
  AES.m_key <$> m_crypter (loadFromFile h s) = AES.m_key <$> m_crypter s.
Proof.
  assert (Hreset : AES.m_key <$> m_crypter (loadPrepare s) = AES.m_key <$> m_crypter s).
  { cbn. destruct (m_crypter s) as [c|]; [|reflexivity].
    cbn. unfold resetForLoad. destruct (_ <=? _); reflexivity. }
  apply loadFromFile_cases; intros;
    cbn [loadKeep with_needLoadFromFile with_actualSize m_crypter discardAll
         loadRefuse writeActualSize with_metaFile with_metaInfo with_mapped_bytes
         with_file with_dic with_dicCrypt with_crcDigest];
    rewrite ?buildIndex_crypter; exact Hreset.
Qed.

Lemma cryptKey_of_key (key : string) (s : MMKV) :
  AES.m_key <$> m_crypter s = Some (AES.fit16 (bytes_of_string key)) ->
  cryptKey s = c_str (substring 0 AES.AES_KEY_LEN key).
Proof.
  unfold cryptKey, AES.getKey. destruct (m_crypter s) as [c|]; [|discriminate].
  cbn. intros [= ->]. apply (key_array_c_str 16 16 key). lia.
Qed.

Lemma cryptKey_of_none (s : MMKV) :
  AES.m_key <$> m_crypter s = None -> cryptKey s = "".
Proof. unfold cryptKey. destruct (m_crypter s); [discriminate | reflexivity]. Qed.

(** C9: without a crypter, in particular for an instance opened with no
    key or with the empty key, [cryptKey] is empty.  With a crypter keyed
    by [key] it is the first [AES_KEY_LEN] bytes of [key] cut at the first
    NUL: at most [AES_KEY_LEN] bytes, free of NUL, hence never a key that
    has an embedded NUL. *)
Theorem cryptKey_spec (key : string) (s : MMKV) :
  cryptKey (with_crypter None s) = ""
  /\ (forall mmapID mode relativePath p,
        cryptKey (fst (MMKV_new mmapID mode None relativePath p)) = ""
        /\ cryptKey (fst (MMKV_new mmapID mode (Some "") relativePath p)) = ""
        /\ cryptKey (fst (MMKV_new mmapID mode (Some key) relativePath p))
           = c_str (substring 0 AES.AES_KEY_LEN key))
  /\ (forall iv number,
        cryptKey
          (with_crypter
             (Some {| AES.m_key := AES.fit16 (bytes_of_string key);
                      AES.m_vector := iv; AES.m_number := number |}) s)
        = c_str (substring 0 AES.AES_KEY_LEN key))
  /\ (String.length (c_str (substring 0 AES.AES_KEY_LEN key)) <= AES.AES_KEY_LEN)%nat
  /\ containsNUL (c_str (substring 0 AES.AES_KEY_LEN key)) = false
  /\ (containsNUL key = true -> c_str (substring 0 AES.AES_KEY_LEN key) <> key).
Proof.
  split; [reflexivity|]. split; [|split; [|split; [|split]]].
  - intros mmapID mode relativePath p. unfold MMKV_new. cbn [fst].
    repeat split.
    + apply cryptKey_of_none. now rewrite loadFromFile_crypter_key.
    + apply cryptKey_of_none. now rewrite loadFromFile_crypter_key.
    + destruct key as [|a rest].
      * cbn [nonEmptyKey]. rewrite cryptKey_of_none; [reflexivity|].
        now rewrite loadFromFile_crypter_key.
      * apply cryptKey_of_key. now rewrite loadFromFile_crypter_key.
  - intros iv number. now apply cryptKey_of_key.
  - apply c_str_length.
  - apply c_str_no_NUL.
  - intros Hnul Heq. rewrite <- Heq, c_str_no_NUL in Hnul. discriminate.
Qed.

Lemma cryptKey_spec_witness :
  let key := String "a" (String "b" (String NUL "cd")) in
  containsNUL key = true
  /\ cryptKey (fst (MMKV_new "settings" MMKV_SINGLE_PROCESS (Some key) None process0)) = "ab"
  /\ c_str (substring 0 AES.AES_KEY_LEN key) <> key.
Proof.
  intros key.
  destruct (cryptKey_spec key store0) as (_ & Hnew & _ & _ & _ & Hnul).
  split; [reflexivity|]. split.
  - destruct (Hnew "settings" MMKV_SINGLE_PROCESS None process0) as (_ & _ & ->).
    reflexivity.
  - apply Hnul. reflexivity.
Defined.

(** ** Empty keys and negative sizes *)

(** C2 as stated fails on one overload: [set(const char *, key)] has no
    empty-key test of its own, and with a null value it answers [true]
    after [removeValueForKey] has declined the empty key. *)
Lemma set_null_empty_key_counterexample :
  set_cstr None noIV None "" store0 = (true, store0)
  /\ fst (set_cstr None noIV None "" store0) <> false.
Proof. split; [reflexivity | discriminate]. Qed.

(** C2, amended: with an empty key every [set] overload that is given a
    value answers [false], every getter answers the caller's default (the
    untouched result and [false], an empty buffer, or 0 for
    [getValueSize]), [removeValueForKey] returns, and [writeValueToBuffer]
    answers -1 for an empty key or a negative size; the instance, and the
    caller's buffer, are left exactly as they were.  The [const char]
    overload of [set] with a null value and an empty key leaves the
    instance as it was too; what it answers is not part of the rule. *)
Theorem empty_key_is_inert (h : option ErrorHandler) (iv : Z -> list Z) (s : MMKV) :
  ((forall v, set_bool h iv v "" s = (false, s))
   /\ (forall v, set_int32 h iv v "" s = (false, s))
   /\ (forall v, set_uint32 h iv v "" s = (false, s))
   /\ (forall v, set_int64 h iv v "" s = (false, s))
   /\ (forall v, set_uint64 h iv v "" s = (false, s))
   /\ (forall v, set_float h iv v "" s = (false, s))
   /\ (forall v, set_double h iv v "" s = (false, s))
   /\ (forall v, set_string h iv v "" s = (false, s))
   /\ (forall v, set_bytes h iv v "" s = (false, s))
   /\ (forall v, set_vector h iv v "" s = (false, s))
   /\ (forall v, set_cstr h iv (Some v) "" s = (false, s))
   /\ snd (set_cstr h iv None "" s) = s)
  /\ ((forall d, getBool h "" d s = (d, s))
      /\ (forall d, getInt32 h "" d s = (d, s))
      /\ (forall d, getUInt32 h "" d s = (d, s))
      /\ (forall d, getInt64 h "" d s = (d, s))
      /\ (forall d, getUInt64 h "" d s = (d, s))
      /\ (forall d, getFloat h "" d s = (d, s))
      /\ (forall d, getDouble h "" d s = (d, s))
      /\ (forall result, getString h "" result s = (false, result, s))
      /\ getBytes h "" s = ([], s)
      /\ (forall result, getVector h "" result s = (false, result, s))
      /\ (forall actualSize, getValueSize h "" actualSize s = (0, s)))
  /\ removeValueForKey h iv "" s = s
  /\ (forall ptr size, writeValueToBuffer h "" ptr size s = (-1, ptr, s))
  /\ (forall key ptr size,
        size < 0 -> writeValueToBuffer h key ptr size s = (-1, ptr, s)).
Proof.
  repeat split; try reflexivity.
  intros key ptr size Hneg. unfold writeValueToBuffer.
  destruct (Z.ltb_spec size 0); [|lia]. now rewrite orb_true_r.
Qed.

Lemma empty_key_is_inert_witness :
  writeValueToBuffer None "a" [7; 7; 7; 7] (-1) store1 = (-1, [7; 7; 7; 7], store1).
Proof.
  apply (empty_key_is_inert None noIV store1). lia.
Defined.

(** ** Changing the key *)

Lemma checkLoadData_inSync (h : option ErrorHandler) (s : MMKV) :
  inSync s -> checkLoadData h s = s.
Proof.
  intros [Hload Hseq]. unfold checkLoadData. rewrite Hload, Hseq, Z.eqb_refl.
  reflexivity.
Qed.

(** C3 as stated fails: going from plain to crypt attaches the crypter
    and nothing else.  The bytes of the data file stay the plain-text
    bytes they were, the sequence of the meta file is not increased and no
    write-back is recorded; a write-back from the same state ends
    elsewhere. *)
Lemma checkReSetCryptKey_counterexample :
  let s' := checkReSetCryptKey None (Some key16) store1 in
  m_crypter store1 = None
  /\ m_crypter s' = Some (AES.new (bytes_of_string key16))
  /\ mapped_bytes s' = mapped_bytes store1
  /\ m_metaFile s' = m_metaFile store1
  /\ m_hasFullWriteback s' = false
  /\ s' <> snd (fullWriteback noIV
                  (with_hasFullWriteback false
                     (with_crypter (Some (AES.new (bytes_of_string key16))) store1))).
Proof.
  assert (Hsync : inSync (with_crypter (Some (AES.new (bytes_of_string key16))) store1))
    by (split; vm_compute; reflexivity).
  assert (Hplain : m_crypter store1 = None) by (vm_compute; reflexivity).
  cbn zeta. unfold checkReSetCryptKey. rewrite Hplain. cbn [nonEmptyKey key16].
  fold key16. rewrite (checkLoadData_inSync _ _ Hsync).
  split; [exact Hplain|]. split; [reflexivity|].
  split; [vm_compute; reflexivity|]. split; [vm_compute; reflexivity|].
  split; [vm_compute; reflexivity|].
  intros Heq.
  apply (f_equal (fun s => MetaInfo.m_sequence (m_metaFile s))) in Heq.
  vm_compute in Heq. discriminate.
Qed.

(** The comparison is with what [cryptKey] reports, not with the key the
    store was opened with: a key longer than the cipher keeps is never
    found equal, so passing it again replaces the crypter and restarts its
    IV. *)
Lemma checkReSetCryptKey_long_key :
  cryptKey crypt17 = key16
  /\ checkReSetCryptKey None (Some key17) crypt17 <> crypt17.
Proof.
  split; [vm_compute; reflexivity|].
  intros Heq. apply (f_equal m_crypter) in Heq. vm_compute in Heq. discriminate.
Qed.

(** C3, amended: [checkReSetCryptKey] swaps the crypter and then only
    checks freshness ([checkLoadData]); it never starts a write-back.
    Plain to crypt with a non-empty key attaches a new crypter; crypt to
    plain (null or empty key) drops it; crypt to crypt with a key other than
    what [cryptKey] reports replaces it; a key equal to what [cryptKey]
    reports, or no key on a plain instance, changes nothing.  On an
    instance that is loaded and in step with its meta file the swap is the
    whole effect. *)
Theorem checkReSetCryptKey_transitions (h : option ErrorHandler) (key : string)
    (s : MMKV) :
  key <> "" ->
  let attached := with_crypter (Some (AES.new (bytes_of_string key))) s in
  let dropped := with_crypter None s in
  (m_crypter s = None ->
     checkReSetCryptKey h (Some key) s = checkLoadData h attached
     /\ checkReSetCryptKey h None s = s
     /\ checkReSetCryptKey h (Some "") s = s)
  /\ (is_Some (m_crypter s) ->
        checkReSetCryptKey h None s = checkLoadData h dropped
        /\ checkReSetCryptKey h (Some "") s = checkLoadData h dropped
        /\ (cryptKey s <> key ->
              checkReSetCryptKey h (Some key) s = checkLoadData h attached)
        /\ (cryptKey s = key -> checkReSetCryptKey h (Some key) s = s))
  /\ (inSync s -> checkLoadData h attached = attached /\ checkLoadData h dropped = dropped).
Proof.
  intros Hkey attached dropped.
  assert (HnonEmpty : nonEmptyKey (Some key) = Some key)
    by (destruct key; [congruence | reflexivity]).
  unfold checkReSetCryptKey. rewrite HnonEmpty. cbn [nonEmptyKey].
  split; [|split].
  - intros ->. repeat split.
  - intros [c ->]. repeat split.
    + intros Hne. apply String.eqb_neq in Hne. now rewrite Hne.
    + intros Heq. apply String.eqb_eq in Heq. now rewrite Heq.
  - intros Hsync. split; apply checkLoadData_inSync; exact Hsync.
Qed.

Lemma checkReSetCryptKey_transitions_witness :
  checkReSetCryptKey None (Some key16) store1
  = checkLoadData None (with_crypter (Some (AES.new (bytes_of_string key16))) store1).
Proof.
  assert (Hkey : key16 <> "") by discriminate.
  assert (Hplain : m_crypter store1 = None) by (vm_compute; reflexivity).
  destruct (checkReSetCryptKey_transitions None key16 store1 Hkey) as [Hp _].
  destruct (Hp Hplain) as [Hattach _]. exact Hattach.
Defined.

(** ** Batch remove *)

Lemma eraseKeys_acc {V : Type} (keys : list string) (dic : gmap string V) (n : Z) :
  0 <= n ->
  let r :=
    fold_left
      (fun acc key =>
         match fst acc !! key with
         | Some _ => (delete key (fst acc), snd acc + 1)
         | None => acc
         end) keys (dic, n) in
  fst r = erased keys dic
  /\ (0 <? snd r) = (0 <? n) || anyPresent keys dic.
Proof.
  revert dic n. induction keys as [|key keys IH]; intros dic n Hn; cbn zeta.
  - cbn. now rewrite orb_false_r.
  - cbn [fold_left fst snd erased anyPresent existsb].
    destruct (dic !! key) as [v|] eqn:Hfind.
    + destruct (IH (delete key dic) (n + 1) ltac:(lia)) as [Hfst Hsnd].
      cbn zeta in Hfst, Hsnd. rewrite Hfst, Hsnd.
      split; [reflexivity|].
      rewrite bool_decide_eq_true_2 by eauto.
      destruct (Z.ltb_spec 0 (n + 1)); [|lia]. now rewrite orb_true_r.
    + destruct (IH dic n Hn) as [Hfst Hsnd].
      cbn zeta in Hfst, Hsnd. rewrite Hfst, Hsnd.
      rewrite (delete_id dic key Hfind).
      split; [reflexivity|].
      rewrite bool_decide_eq_false_2; [reflexivity|].
      intros [v Hv]. congruence.
Qed.

Lemma eraseKeys_spec {V : Type} (keys : list string) (dic : gmap string V) :
  eraseKeys keys dic = (erased keys dic, snd (eraseKeys keys dic))
  /\ (0 <? snd (eraseKeys keys dic)) = anyPresent keys dic.
Proof.
  destruct (eraseKeys_acc keys dic 0 ltac:(lia)) as [Hfst Hsnd].
  cbn zeta in Hfst, Hsnd. unfold eraseKeys. split.
  - rewrite <- Hfst. now destruct (fold_left _ _ _).
  - exact Hsnd.
Qed.

Lemma erased_lookup {V : Type} (keys : list string) (dic : gmap string V) (key : string) :
  erased keys dic !! key = if bool_decide (key ∈ keys) then None else dic !! key.
Proof.
  unfold erased. revert dic. induction keys as [|k keys IH]; intros dic.
  - reflexivity.
  - cbn [fold_left]. rewrite IH.
    destruct (decide (key = k)) as [->|Hne].
    + rewrite lookup_delete_eq.
      rewrite (bool_decide_eq_true_2 (k ∈ k :: keys)) by apply list_elem_of_here.
      now destruct (bool_decide _).
    + rewrite lookup_delete_ne by congruence.
      destruct (bool_decide (key ∈ keys)) eqn:Hin.
      * apply bool_decide_eq_true_1 in Hin.
        rewrite bool_decide_eq_true_2; [reflexivity|].
        now apply list_elem_of_further.
      * apply bool_decide_eq_false_1 in Hin.
        rewrite bool_decide_eq_false_2; [reflexivity|].
        intros Hin'. apply elem_of_cons in Hin'. tauto.
Qed.

Lemma erased_absent {V : Type} (keys : list string) (dic : gmap string V) :
  anyPresent keys dic = false -> erased keys dic = dic.
Proof.
  unfold erased, anyPresent. revert dic.
  induction keys as [|k keys IH]; intros dic Hnone; [reflexivity|].
  cbn [existsb fold_left] in *. apply orb_false_elim in Hnone as [Hk Hrest].
  apply bool_decide_eq_false_1 in Hk.
  rewrite delete_id; [now apply IH|].
  destruct (dic !! k) eqn:E; [|reflexivity]. exfalso. apply Hk. eauto.
Qed.

(** C4 as stated fails: when none of the listed keys is in the index the
    flag keeps its value and no write-back is started.  Here the flag
    stays [true] and the sequence stays where the previous write-back left
    it, while a forced write-back would have increased it. *)
Lemma removeValuesForKeys_counterexample :
  m_hasFullWriteback storeW = true
  /\ removeValuesForKeys None noIV ["x"; "y"] storeW = Some storeW
  /\ MetaInfo.m_sequence (m_metaFile storeW) = 1
  /\ MetaInfo.m_sequence
       (m_metaFile (snd (fullWriteback noIV (with_hasFullWriteback false storeW)))) = 2.
Proof. vm_compute. repeat split. Qed.

(** C4, amended: for a list of two or more keys on an instance whose
    dictionary in use exists after the freshness check, the listed keys
    are erased from that dictionary (the crypt one when a crypter is
    attached); if at least one of them was there, [m_hasFullWriteback] is
    set to [false] and [fullWriteback] runs at once on that state; if none
    was there the call ends after the freshness check.  Where the
    dictionary in use was never made the loop dereferences a null pointer
    and the call has no outcome.  A one-element list goes through
    [removeValueForKey], an empty list does nothing. *)
Theorem removeValuesForKeys_spec (h : option ErrorHandler) (iv : Z -> list Z)
    (k1 k2 : string) (rest : list string) (s : MMKV) :
  let keys := k1 :: k2 :: rest in
  let s0 := checkLoadData h s in
  removeValuesForKeys h iv keys s
  = (if dictionaryInUse s0
     then
       Some match m_crypter s0 with
            | Some _ =>
                if anyPresent keys (m_dicCrypt s0)
                then snd (fullWriteback iv
                            (with_hasFullWriteback false
                               (with_dicCrypt (erased keys (m_dicCrypt s0)) s0)))
                else s0
            | None =>
                if anyPresent keys (m_dic s0)
                then snd (fullWriteback iv
                            (with_hasFullWriteback false
                               (with_dic (erased keys (m_dic s0)) s0)))
                else s0
            end
     else None)
  /\ (forall key,
        erased keys (m_dic s0) !! key
          = (if bool_decide (key ∈ keys) then None else m_dic s0 !! key)
        /\ erased keys (m_dicCrypt s0) !! key
          = (if bool_decide (key ∈ keys) then None else m_dicCrypt s0 !! key))
  /\ removeValuesForKeys h iv [k1] s = Some (removeValueForKey h iv k1 s)
  /\ removeValuesForKeys h iv [] s = Some s.
Proof.
  intros keys s0. split; [|split; [|split; reflexivity]].
  - unfold removeValuesForKeys, dictionaryInUse. fold keys. fold s0.
    destruct (m_crypter s0) as [c|].
    + destruct (m_dicCryptPtr s0); [|reflexivity].
      destruct (eraseKeys_spec keys (m_dicCrypt s0)) as [Hpair Hcount].
      rewrite Hpair, Hcount.
      destruct (anyPresent keys (m_dicCrypt s0)) eqn:Hany; [reflexivity|].
      rewrite (erased_absent _ _ Hany). now destruct s0.
    + destruct (m_dicPtr s0); [|reflexivity].
      destruct (eraseKeys_spec keys (m_dic s0)) as [Hpair Hcount].
      rewrite Hpair, Hcount.
      destruct (anyPresent keys (m_dic s0)) eqn:Hany; [reflexivity|].
      rewrite (erased_absent _ _ Hany). now destruct s0.
  - intros key. split; apply erased_lookup.
Qed.

(** The case without an outcome is met: [attached] has a crypter and no
    crypt dictionary. *)
Example removeValuesForKeys_attached :
  removeValuesForKeys None noIV ["a"; "b"] attached = None.
Proof. vm_compute. reflexivity. Qed.

(** ** Buffers: slices and overwrites *)

Lemma len_nonneg (l : list Z) : 0 <= len l.
Proof. unfold len. lia. Qed.

Lemma len_app (a b : list Z) : len (a ++ b) = len a + len b.
Proof. unfold len. rewrite length_app. lia. Qed.

Lemma length_blit (off : Z) (bytes mem : list Z) :
  length (blit off bytes mem) = length mem.
Proof.
  unfold blit. lens.
Qed.

Lemma slice_blit_hit (pos : Z) (a v mem : list Z) :
  0 <= pos ->
  pos + len a + len v <= len mem ->
  slice (pos + len a) (len v) (blit pos (a ++ v) mem) = v.
Proof.
  unfold len. intros Hpos Hfit.
  assert (Hb : blit pos (a ++ v) mem
               = (firstn (Z.to_nat pos) mem ++ a)
                   ++ v ++ skipn (Z.to_nat pos + length (a ++ v)) mem).
  { unfold blit. rewrite <- !app_assoc. apply firstn_all2.
    lens. }
  rewrite Hb. unfold slice.
  rewrite drop_app_length' by lens.
  apply take_app_length'. lia.
Qed.

Lemma slice_blit_low (off n : Z) (head mem : list Z) :
  len head <= off ->
  slice off n (blit 0 head mem) = slice off n mem.
Proof.
  unfold slice, blit, len. intros Hoff. f_equal.
  change (Z.to_nat 0) with 0%nat. rewrite take_0. cbn [app Nat.add].
  rewrite skipn_firstn_comm. rewrite drop_app_ge by lia.
  rewrite drop_drop.
  replace (length head + (Z.to_nat off - length head))%nat with (Z.to_nat off) by lia.
  apply firstn_all2. lens.
Qed.

(** ** The cipher undoes itself *)

Lemma lxor_cancel (p k : Z) : Z.lxor (Z.lxor p k) k = p.
Proof. now rewrite Z.lxor_assoc, Z.lxor_nilpotent, Z.lxor_0_r. Qed.

Lemma decrypt_encrypt (src : list Z) (c : AES.AESCrypt) :
  AES.decrypt c (fst (AES.encrypt c src)) = (src, snd (AES.encrypt c src)).
Proof.
  revert c. induction src as [|p rest IH]; intros c; [reflexivity|].
  cbn [AES.encrypt].
  specialize (IH (AES.step (Z.lxor p (AES.keystream c)) c)).
  destruct (AES.encrypt (AES.step (Z.lxor p (AES.keystream c)) c) rest) as [out c'].
  cbn [fst snd AES.decrypt] in *. rewrite IH, lxor_cancel. reflexivity.
Qed.

Lemma cloneWithStatus_same_key (c1 c2 : AES.AESCrypt) :
  AES.m_key c2 = AES.m_key c1 ->
  AES.cloneWithStatus (AES.getCurrentStatus c1) c2 = c1.
Proof. destruct c1, c2. cbn. now intros ->. Qed.

(** ** The codec reads back what it wrote *)

Lemma rawVarint_length (fuel : nat) (v : Z) : (length (rawVarint fuel v) <= fuel)%nat.
Proof.
  revert v. induction fuel as [|fuel IH]; intros v; cbn; [lia|].
  destruct (v <? 128); cbn; [lia|]. specialize (IH (v / 128)). lia.
Qed.

Lemma rawVarint_nonempty (fuel : nat) (v : Z) : rawVarint (S fuel) v <> [].
Proof. cbn. destruct (v <? 128); discriminate. Qed.

Lemma rawVarint_S (fuel : nat) (v : Z) :
  rawVarint (S fuel) v
  = if v <? 128 then [v] else (v mod 128 + 128) :: rawVarint fuel (v / 128).
Proof. reflexivity. Qed.

Lemma readRawVarint_S (fuel : nat) (b : Z) (rest : list Z) :
  CodedInputData.readRawVarint (S fuel) (b :: rest)
  = if b <? 128 then Some (b, rest)
    else match CodedInputData.readRawVarint fuel rest with
         | Some (v, rest') => Some (b - 128 + 128 * v, rest')
         | None => None
         end.
Proof. reflexivity. Qed.

Lemma readRawVarint_rawVarint (fuel : nat) :
  forall (v : Z) (fuel' : nat) (rest : list Z),
    0 <= v < 128 ^ Z.of_nat (S fuel) ->
    (S fuel <= fuel')%nat ->
    CodedInputData.readRawVarint fuel' (rawVarint (S fuel) v ++ rest) = Some (v, rest).
Proof.
  induction fuel as [|fuel IH]; intros v fuel' rest Hv Hfuel;
    destruct fuel' as [|fuel']; try lia; rewrite rawVarint_S.
  - change (128 ^ Z.of_nat 1) with 128 in Hv.
    destruct (Z.ltb_spec v 128); [|lia].
    cbn [app]. rewrite readRawVarint_S.
    destruct (Z.ltb_spec v 128); [reflexivity | lia].
  - destruct (Z.ltb_spec v 128) as [Hsmall|Hbig]; cbn [app]; rewrite readRawVarint_S.
    + destruct (Z.ltb_spec v 128); [reflexivity | lia].
    + assert (Hmod : 0 <= v mod 128 < 128) by (apply Z.mod_pos_bound; lia).
      destruct (Z.ltb_spec (v mod 128 + 128) 128); [lia|].
      rewrite (IH (v / 128) fuel' rest).
      * f_equal. f_equal. rewrite (Z.div_mod v 128) at 3 by lia. lia.
      * split; [apply Z.div_pos; lia|].
        apply Z.div_lt_upper_bound; [lia|].
        rewrite Nat2Z.inj_succ, Z.pow_succ_r in Hv by lia. lia.
      * lia.
Qed.

Lemma uint32_range (x : Z) : 0 <= uint32 x < 2 ^ 32.
Proof. apply Z.mod_pos_bound. lia. Qed.

Lemma uint64_range (x : Z) : 0 <= uint64 x < 2 ^ 64.
Proof. apply Z.mod_pos_bound. lia. Qed.

Lemma readRawVarint_rawVarint32 (v : Z) (rest : list Z) :
  CodedInputData.readRawVarint 10 (rawVarint32 v ++ rest) = Some (uint32 v, rest).
Proof.
  apply (readRawVarint_rawVarint 4); [|lia].
  pose proof (uint32_range v). change (128 ^ Z.of_nat 5) with (2 ^ 35). lia.
Qed.

Lemma readRawVarint_rawVarint64 (v : Z) (rest : list Z) :
  CodedInputData.readRawVarint 10 (rawVarint64 v ++ rest) = Some (uint64 v, rest).
Proof.
  apply (readRawVarint_rawVarint 9); [|lia].
  pose proof (uint64_range v). change (128 ^ Z.of_nat 10) with (2 ^ 70). lia.
Qed.

(** A buffer sized at least as long as what is written holds the written
    bytes first. *)
Lemma into_prefix (size : Z) (bytes : list Z) :
  len bytes <= size ->
  exists pad, CodedOutputData.into size bytes = bytes ++ pad.
Proof.
  unfold CodedOutputData.into, len. intros Hfit.
  rewrite take_app_ge by lia. eauto.
Qed.

Lemma into_exact (bytes : list Z) : CodedOutputData.into (len bytes) bytes = bytes.
Proof.
  unfold CodedOutputData.into, len. rewrite Nat2Z.id.
  apply take_app_length.
Qed.

Lemma int32_of_signed (v : Z) : - 2 ^ 31 <= v < 2 ^ 31 -> int32 v = v.
Proof.
  intros Hv. unfold int32, uint32.
  destruct (Z_lt_le_dec v 0) as [Hneg|Hpos].
  - replace (v mod 2 ^ 32) with (v + 2 ^ 32).
    + destruct (Z.ltb_spec (v + 2 ^ 32) (2 ^ 31)); lia.
    + apply (Z.mod_unique_pos _ _ (-1)); lia.
  - rewrite Z.mod_small by lia. destruct (Z.ltb_spec v (2 ^ 31)); lia.
Qed.

Lemma int64_of_signed (v : Z) : - 2 ^ 63 <= v < 2 ^ 63 -> int64 v = v.
Proof.
  intros Hv. unfold int64, uint64.
  destruct (Z_lt_le_dec v 0) as [Hneg|Hpos].
  - replace (v mod 2 ^ 64) with (v + 2 ^ 64).
    + destruct (Z.ltb_spec (v + 2 ^ 64) (2 ^ 63)); lia.
    + apply (Z.mod_unique_pos _ _ (-1)); lia.
  - rewrite Z.mod_small by lia. destruct (Z.ltb_spec v (2 ^ 63)); lia.
Qed.

Lemma int32_uint32 (x : Z) : int32 (uint32 x) = int32 x.
Proof. unfold int32, uint32. now rewrite Z.mod_mod by lia. Qed.

Lemma int64_uint64 (x : Z) : int64 (uint64 x) = int64 x.
Proof. unfold int64, uint64. now rewrite Z.mod_mod by lia. Qed.

Lemma int32_uint64 (x : Z) : int32 (uint64 x) = int32 x.
Proof.
  unfold int32, uint32, uint64.
  rewrite (Z.mod_mod_divide x (2 ^ 64) (2 ^ 32)) by (exists (2 ^ 32); lia).
  reflexivity.
Qed.

Lemma uint32_int32 (x : Z) : uint32 (int32 x) = uint32 x.
Proof.
  unfold int32. pose proof (uint32_range x).
  destruct (uint32 x <? 2 ^ 31).
  - unfold uint32. now rewrite Z.mod_mod by lia.
  - unfold uint32 at 1.
    replace (uint32 x - 2 ^ 32) with (uint32 x + (-1) * 2 ^ 32) by lia.
    rewrite Z.mod_add by lia. unfold uint32. now rewrite Z.mod_mod by lia.
Qed.

Lemma uint64_int64 (x : Z) : uint64 (int64 x) = uint64 x.
Proof.
  unfold int64. pose proof (uint64_range x).
  destruct (uint64 x <? 2 ^ 63).
  - unfold uint64. now rewrite Z.mod_mod by lia.
  - unfold uint64 at 1.
    replace (uint64 x - 2 ^ 64) with (uint64 x + (-1) * 2 ^ 64) by lia.
    rewrite Z.mod_add by lia. unfold uint64. now rewrite Z.mod_mod by lia.
Qed.

Lemma le_value_le_bytes (n : nat) (x : Z) :
  le_value (le_bytes n x) = x mod 256 ^ Z.of_nat n.
Proof.
  revert x. induction n as [|n IH]; intros x.
  - cbn. now rewrite Z.mod_1_r.
  - cbn [le_bytes le_value]. rewrite IH.
    rewrite Nat2Z.inj_succ, Z.pow_succ_r by lia.
    rewrite Z.rem_mul_r by lia. lia.
Qed.

(** What each getter's reader makes of each setter's buffer. *)
Lemma read_write_bool (v : bool) :
  CodedInputData.readBool (CodedOutputData.into pbBoolSize (CodedOutputData.writeBool v))
  = Some v.
Proof. destruct v; reflexivity. Qed.

Lemma read_after_varint32 (v : Z) (size : Z) :
  len (rawVarint32 v) <= size ->
  CodedInputData.readRawVarint32 (CodedOutputData.into size (rawVarint32 v))
  = match CodedInputData.readRawVarint32 (CodedOutputData.into size (rawVarint32 v)) with
    | Some (_, rest) => Some (int32 v, rest)
    | None => None
    end
  /\ fst <$> CodedInputData.readRawVarint32 (CodedOutputData.into size (rawVarint32 v))
     = Some (int32 v).
Proof.
  intros Hfit. destruct (into_prefix size _ Hfit) as [pad ->].
  unfold CodedInputData.readRawVarint32.
  rewrite readRawVarint_rawVarint32, int32_uint32. split; reflexivity.
Qed.

Lemma read_after_varint64 (v : Z) (size : Z) :
  len (rawVarint64 v) <= size ->
  CodedInputData.readRawVarint 10 (CodedOutputData.into size (rawVarint64 v))
  = match CodedInputData.readRawVarint 10 (CodedOutputData.into size (rawVarint64 v)) with
    | Some (_, rest) => Some (uint64 v, rest)
    | None => None
    end
  /\ fst <$> CodedInputData.readRawVarint 10 (CodedOutputData.into size (rawVarint64 v))
     = Some (uint64 v).
Proof.
  intros Hfit. destruct (into_prefix size _ Hfit) as [pad ->].
  rewrite readRawVarint_rawVarint64. split; reflexivity.
Qed.

Lemma rawVarint64_fits (v : Z) : len (rawVarint64 v) <= 10.
Proof. unfold len, rawVarint64. pose proof (rawVarint_length 10 (uint64 v)). lia. Qed.

Lemma read_write_int32 (v : Z) :
  - 2 ^ 31 <= v < 2 ^ 31 ->
  CodedInputData.readInt32
    (CodedOutputData.into (pbInt32Size v) (CodedOutputData.writeInt32 v)) = Some v.
Proof.
  intros Hv. unfold CodedInputData.readInt32, pbInt32Size, CodedOutputData.writeInt32.
  destruct (Z.leb_spec 0 v).
  - destruct (read_after_varint32 v (pbRawVarint32Size v)) as [_ ->];
      [reflexivity|]. now rewrite int32_of_signed.
  - unfold CodedInputData.readRawVarint32.
    destruct (read_after_varint64 v 10 (rawVarint64_fits v)) as [Hshape Hval].
    destruct (CodedInputData.readRawVarint 10 _) as [[u rest]|]; [|discriminate].
    cbn in Hval |- *. injection Hval as ->.
    now rewrite int32_uint64, int32_of_signed.
Qed.

Lemma read_write_uint32 (v : Z) :
  0 <= v < 2 ^ 32 ->
  CodedInputData.readUInt32
    (CodedOutputData.into (pbUInt32Size v) (CodedOutputData.writeUInt32 v)) = Some v.
Proof.
  intros Hv. unfold CodedInputData.readUInt32, pbUInt32Size, CodedOutputData.writeUInt32.
  destruct (read_after_varint32 v (pbRawVarint32Size v)) as [_ Hval]; [reflexivity|].
  destruct (CodedInputData.readRawVarint32 _) as [[u rest]|]; [|discriminate].
  cbn in Hval |- *. injection Hval as ->.
  rewrite uint32_int32. unfold uint32. now rewrite Z.mod_small.
Qed.

Lemma read_write_int64 (v : Z) :
  - 2 ^ 63 <= v < 2 ^ 63 ->
  CodedInputData.readInt64
    (CodedOutputData.into (pbInt64Size v) (CodedOutputData.writeInt64 v)) = Some v.
Proof.
  intros Hv. unfold CodedInputData.readInt64, CodedInputData.readRawVarint64,
    pbInt64Size, CodedOutputData.writeInt64.
  destruct (read_after_varint64 v (pbRawVarint64Size v)) as [_ Hval]; [reflexivity|].
  destruct (CodedInputData.readRawVarint 10 _) as [[u rest]|]; [|discriminate].
  cbn in Hval |- *. injection Hval as ->.
  now rewrite int64_uint64, int64_of_signed.
Qed.

Lemma read_write_uint64 (v : Z) :
  0 <= v < 2 ^ 64 ->
  CodedInputData.readUInt64
    (CodedOutputData.into (pbUInt64Size v) (CodedOutputData.writeUInt64 v)) = Some v.
Proof.
  intros Hv. unfold CodedInputData.readUInt64, CodedInputData.readRawVarint64,
    pbUInt64Size, CodedOutputData.writeUInt64.
  destruct (read_after_varint64 v (pbRawVarint64Size v)) as [_ Hval]; [reflexivity|].
  destruct (CodedInputData.readRawVarint 10 _) as [[u rest]|]; [|discriminate].
  cbn in Hval |- *. injection Hval as ->.
  rewrite uint64_int64. unfold uint64. rewrite Z.mod_mod by lia. now rewrite Z.mod_small.
Qed.

Lemma read_write_fixed (n : nat) (bits : Z) :
  0 <= bits < 256 ^ Z.of_nat n ->
  CodedInputData.readFixed n (CodedOutputData.into (Z.of_nat n) (le_bytes n bits))
  = Some bits.
Proof.
  intros Hbits.
  pose proof (into_exact (le_bytes n bits)) as Hinto.
  unfold len in Hinto. rewrite length_le_bytes in Hinto. rewrite Hinto.
  unfold CodedInputData.readFixed. rewrite length_le_bytes.
  destruct (Nat.leb_spec n n); [|lia].
  rewrite <- (length_le_bytes n bits) at 1. rewrite firstn_all.
  rewrite le_value_le_bytes. now rewrite Z.mod_small.
Qed.

Lemma read_write_data (data : list Z) :
  len data < 2 ^ 31 ->
  CodedInputData.readData (CodedOutputData.writeData data) = Some data.
Proof.
  intros Hlen. pose proof (len_nonneg data).
  unfold CodedInputData.readData, CodedOutputData.writeData,
    CodedInputData.readRawVarint32.
  rewrite readRawVarint_rawVarint32, int32_uint32, int32_of_signed by (fold (len data); lia).
  fold (len data).
  destruct (Z.leb_spec 0 (len data)); [|lia].
  destruct (Z.leb_spec (len data) (len data)); [|lia].
  cbn [andb]. unfold len. rewrite Nat2Z.id, firstn_all. reflexivity.
Qed.

Lemma read_write_string (value : string) :
  len (bytes_of_string value) < 2 ^ 31 ->
  CodedInputData.readString (CodedOutputData.writeData (bytes_of_string value))
  = Some value.
Proof.
  intros Hlen. unfold CodedInputData.readString.
  rewrite read_write_data by exact Hlen. cbn.
  now rewrite string_of_bytes_of_string.
Qed.

(** ** The engine keeps an open store open *)

Lemma doubled_ge (fuel : nat) (size needed newSize : Z) :
  doubled fuel size needed = Some newSize -> needed <= newSize.
Proof.
  revert size. induction fuel as [|fuel IH]; intros size Hd; cbn [doubled] in Hd;
    destruct (Z.leb_spec needed size);
    try (injection Hd as <-; assumption); try discriminate.
  exact (IH _ Hd).
Qed.

Lemma expandFile_post (needed : Z) (f f' : MemoryFile.MemoryFile) :
  expandFile needed f = Some f' ->
  0 <= needed ->
  MemoryFile.m_ptr f = true ->
  MemoryFile.m_ptr f' = true /\ needed <= MemoryFile.getFileSize f'.
Proof.
  unfold expandFile. intros Hexp Hneeded Hptr.
  destruct (doubled 64 (MemoryFile.getFileSize f) needed) as [newSize|] eqn:Hd;
    [|discriminate].
  apply doubled_ge in Hd.
  destruct (Z.eqb_spec newSize (MemoryFile.getFileSize f)) as [Heq|Hne].
  - injection Hexp as <-. split; [assumption | lia].
  - unfold MemoryFile.truncate in Hexp.
    destruct (newSize <=? MemoryFile.m_quota f); [|discriminate].
    injection Hexp as <-. split; [reflexivity|].
    unfold MemoryFile.getFileSize. cbn. lens.
Qed.

Lemma buildIndex_frame (stored : list Z) (s : MMKV) :
  m_file (buildIndex stored s) = m_file s
  /\ m_actualSize (buildIndex stored s) = m_actualSize s
  /\ m_needLoadFromFile (buildIndex stored s) = m_needLoadFromFile s.
Proof.
  unfold buildIndex. destruct (m_crypter s) as [c|]; [|repeat split].
  destruct (AES.decrypt c stored). repeat split.
Qed.

Lemma recaculateCRCDigestWithIV_frame (iv : option (list Z)) (s : MMKV) :
  MemoryFile.m_ptr (m_file (recaculateCRCDigestWithIV iv s)) = MemoryFile.m_ptr (m_file s)
  /\ m_actualSize (recaculateCRCDigestWithIV iv s) = m_actualSize s
  /\ m_needLoadFromFile (recaculateCRCDigestWithIV iv s) = m_needLoadFromFile s.
Proof.
  unfold recaculateCRCDigestWithIV.
  destruct (MemoryFile.getMemory (m_file s)); repeat split.
Qed.

Lemma fullWriteback_ready (iv : Z -> list Z) (s s1 : MMKV) :
  fullWriteback iv s = (true, s1) -> ready s -> ready s1.
Proof.
  unfold fullWriteback. intros Hwb (Hload & Hptr & Hsize).
  destruct (m_hasFullWriteback s).
  { injection Hwb as <-. repeat split; assumption. }
  match type of Hwb with
  | context [expandFile ?n ?f] => destruct (expandFile n f) as [file|] eqn:Hexp
  end; [|discriminate].
  apply expandFile_post in Hexp as [Hptr' _];
    [|pose proof (len_nonneg (storedPayload iv s));
      unfold Fixed32Size, pbFixed32Size; lia
     | assumption].
  injection Hwb as <-.
  unfold ready. cbn [with_hasFullWriteback m_needLoadFromFile m_file m_actualSize].
  match goal with
  | |- context [buildIndex ?st ?s4] =>
      destruct (buildIndex_frame st s4) as (Hf & Ha & Hn); rewrite Hf, Ha, Hn
  end.
  match goal with
  | |- context [recaculateCRCDigestWithIV ?v ?s3] =>
      destruct (recaculateCRCDigestWithIV_frame v s3) as (Hf' & Ha' & Hn');
      rewrite Hf', Ha', Hn'
  end.
  cbn. repeat split; try assumption. apply len_nonneg.
Qed.

Lemma roundUp_ge (n : Z) : n <= roundUp n DEFAULT_MMAP_SIZE.
Proof.
  unfold roundUp, DEFAULT_MMAP_SIZE.
  pose proof (Z.div_mod (n + 4096 - 1) 4096 ltac:(lia)).
  pose proof (Z.mod_pos_bound (n + 4096 - 1) 4096 ltac:(lia)).
  lia.
Qed.

Lemma ensureMemorySize_post (iv : Z -> list Z) (recLen : Z) (s s1 : MMKV) :
  ensureMemorySize iv recLen s = Some s1 ->
  0 <= recLen ->
  ready s ->
  ready s1
  /\ Fixed32Size + m_actualSize s1 + recLen <= MemoryFile.getFileSize (m_file s1).
Proof.
  unfold ensureMemorySize. intros Hens Hrec Hready.
  destruct (Z.ltb_spec (MemoryFile.getFileSize (m_file s))
              (Fixed32Size + m_actualSize s + recLen)) as [Hsmall|Hfits].
  - destruct (fullWriteback iv s) as [ok s2] eqn:Hwb.
    destruct ok; [|discriminate].
    apply fullWriteback_ready in Hwb as (Hload & Hptr & Hsize); [|assumption].
    destruct (expandFile _ (m_file s2)) as [file|] eqn:Hexp; [|discriminate].
    injection Hens as <-.
    apply expandFile_post in Hexp as [Hptr' Hfit]; [| |assumption].
    + pose proof (roundUp_ge (Fixed32Size + m_actualSize s2 + recLen)).
      split; [repeat split; assumption|]. cbn. lia.
    + pose proof (roundUp_ge (Fixed32Size + m_actualSize s2 + recLen)).
      unfold Fixed32Size, pbFixed32Size in *. lia.
  - injection Hens as <-. split; [assumption | lia].
Qed.

Lemma encrypt_length (src : list Z) (c : AES.AESCrypt) :
  length (fst (AES.encrypt c src)) = length src.
Proof.
  revert c. induction src as [|p rest IH]; intros c; [reflexivity|].
  cbn [AES.encrypt].
  specialize (IH (AES.step (Z.lxor p (AES.keystream c)) c)).
  destruct (AES.encrypt _ rest). cbn in *. now rewrite IH.
Qed.

Lemma getMemory_with_bytes (b : list Z) (f : MemoryFile.MemoryFile) :
  MemoryFile.m_ptr f = true ->
  MemoryFile.getMemory (MemoryFile.with_bytes b f) = Some b.
Proof. unfold MemoryFile.getMemory. cbn. now intros ->. Qed.

Lemma updateCRCDigest_fields (bytes : list Z) (n : Z) (s : MMKV) :
  let s' := updateCRCDigest (Some bytes) n s in
  m_dic s' = m_dic s
  /\ m_dicCrypt s' = m_dicCrypt s
  /\ m_crypter s' = m_crypter s
  /\ m_needLoadFromFile s' = m_needLoadFromFile s
  /\ m_metaFile s' = m_metaInfo s'
  /\ m_file s'
     = MemoryFile.with_bytes (blit 0 (le_bytes 4 (m_actualSize s)) (mapped_bytes s))
         (m_file s).
Proof. repeat split. Qed.

(** What an append leaves behind: the store is in step with its meta
    file and the key reads back as the value just written. *)
Lemma appendDataWithKey_read (iv : Z -> list Z) (value : list Z) (key : string)
    (s s' : MMKV) :
  appendDataWithKey iv value key s = (true, s') ->
  ready s ->
  value <> [] ->
  inSync s' /\ valueOf s' key = value.
Proof.
  unfold appendDataWithKey. intros Happ Hready Hvalue.
  assert (Hlen : len value <> 0) by (destruct value; [congruence | unfold len; cbn; lia]).
  set (head := record_head key value) in *.
  pose proof (len_nonneg head) as Hhead. pose proof (len_nonneg value) as Hval.
  destruct (ensureMemorySize _ _ s) as [s1|] eqn:Hens; [|discriminate].
  apply ensureMemorySize_post in Hens as [(Hload & Hptr & Hsize) Hfit];
    [| lia | assumption].
  destruct (Z.eqb_spec (len value) 0) as [|_]; [contradiction|].
  assert (Hhdr : len (le_bytes 4 (m_actualSize s1 + (len head + len value)))
                 <= Fixed32Size + m_actualSize s1 + len head)
    by (unfold len; rewrite length_le_bytes; unfold Fixed32Size, pbFixed32Size; lia).
  assert (Hpos : 0 <= Fixed32Size + m_actualSize s1)
    by (unfold Fixed32Size, pbFixed32Size; lia).
  assert (Hroom : Fixed32Size + m_actualSize s1 + len head + len value
                  <= len (MemoryFile.m_bytes (m_file s1)))
    by (unfold MemoryFile.getFileSize, len in *; lia).
  destruct (m_crypter s1) as [c|] eqn:Hcrypt.
  - pose proof (encrypt_length head c) as Hl1.
    pose proof (encrypt_key head c) as Hk1.
    destruct (AES.encrypt c head) as [e1 c1].
    pose proof (encrypt_length value c1) as Hl2.
    pose proof (encrypt_key value c1) as Hk2.
    pose proof (decrypt_encrypt value c1) as Hdec.
    destruct (AES.encrypt c1 value) as [e2 c2].
    cbn [fst snd] in Hl1, Hk1, Hl2, Hk2, Hdec.
    apply (f_equal snd) in Happ. cbn [snd] in Happ. subst s'.
    match goal with
    | |- context [updateCRCDigest (Some ?b) ?n ?s4] =>
        destruct (updateCRCDigest_fields b n s4) as (_ & Hdc & Hc & Hn & Hm & Hf)
    end.
    split; [split; [rewrite Hn; exact Hload | rewrite Hm; reflexivity]|].
    unfold valueOf. rewrite Hf, Hc, Hdc.
    cbn [m_file m_crypter m_dicCrypt m_actualSize mapped_bytes with_actualSize
         with_mapped_bytes with_file with_dicCrypt with_crypter
         MemoryFile.m_bytes MemoryFile.with_bytes].
    rewrite getMemory_with_bytes by exact Hptr.
    rewrite lookup_insert_eq. cbn [cryptStatus cryptOffset cryptValueSize].
    rewrite cloneWithStatus_same_key by congruence.
    rewrite slice_blit_low by exact Hhdr.
    replace (len head) with (len e1) in * by (unfold len; lia).
    replace (len value) with (len e2) in * by (unfold len; lia).
    rewrite slice_blit_hit by assumption. now rewrite Hdec.
  - apply (f_equal snd) in Happ. cbn [snd] in Happ. subst s'.
    match goal with
    | |- context [updateCRCDigest (Some ?b) ?n ?s4] =>
        destruct (updateCRCDigest_fields b n s4) as (Hd & _ & Hc & Hn & Hm & Hf)
    end.
    split; [split; [rewrite Hn; exact Hload | rewrite Hm; reflexivity]|].
    unfold valueOf. rewrite Hf, Hc, Hd.
    cbn [m_file m_crypter m_dic m_actualSize mapped_bytes with_actualSize
         with_mapped_bytes with_file with_dic
         MemoryFile.m_bytes MemoryFile.with_bytes].
    rewrite getMemory_with_bytes by exact Hptr.
    rewrite Hcrypt, lookup_insert_eq. cbn [offset valueSize].
    rewrite slice_blit_low by exact Hhdr.
    now apply slice_blit_hit.
Qed.

Lemma clearMemoryCache_actualSize (s : MMKV) :
  0 <= m_actualSize s -> 0 <= m_actualSize (clearMemoryCache s).
Proof.
  unfold clearMemoryCache. destruct (m_needLoadFromFile s); [auto|].
  intros _. destruct (m_crypter _) as [c|]; [destruct (_ <=? _)|]; cbn; lia.
Qed.

Lemma loadFromFile_actualSize (h : option ErrorHandler) (s : MMKV) :
  0 <= m_actualSize s -> 0 <= m_actualSize (loadFromFile h s).
Proof.
  intros Hsize.
  apply (loadFromFile_cases (fun s' => 0 <= m_actualSize s')); intros; cbn; try lia.
  apply uint32_range.
Qed.

Lemma checkLoadData_actualSize (h : option ErrorHandler) (s : MMKV) :
  0 <= m_actualSize s -> 0 <= m_actualSize (checkLoadData h s).
Proof.
  intros Hsize. unfold checkLoadData.
  destruct (m_needLoadFromFile s); [now apply loadFromFile_actualSize|].
  destruct (_ =? _); [assumption|].
  now apply loadFromFile_actualSize, clearMemoryCache_actualSize.
Qed.

(** The engine's contract behind every round trip: after a [set] that
    reports success, the key reads back as the bytes that were stored. *)
Lemma getDataForKey_after_setDataForKey (h : option ErrorHandler) (iv : Z -> list Z)
    (data : list Z) (key : string) (isDataHolder : bool) (s s' : MMKV) :
  0 <= m_actualSize s ->
  setDataForKey h iv data key isDataHolder s = (true, s') ->
  let value := if isDataHolder then CodedOutputData.writeData data else data in
  value <> [] ->
  isKeyEmpty key = false /\ getDataForKey h key s' = (value, s').
Proof.
  intros Hsize Hset value Hvalue. unfold setDataForKey in Hset. fold value in Hset.
  destruct (isKeyEmpty key); [discriminate|]. split; [reflexivity|].
  pose proof (checkLoadData_actualSize h s Hsize) as Hsize'.
  destruct (m_needLoadFromFile (checkLoadData h s)) eqn:Hload; [discriminate|].
  destruct (isFileValid (checkLoadData h s)) eqn:Hvalid; [|discriminate].
  destruct (dictionaryInUse (checkLoadData h s)) eqn:Hdic; [|discriminate].
  cbn [orb negb] in Hset.
  apply appendDataWithKey_read in Hset as [Hsync Hread]; [| |exact Hvalue].
  - unfold getDataForKey. rewrite (checkLoadData_inSync h s' Hsync).
    now rewrite Hread.
  - unfold isFileValid, isFileValid_file in Hvalid.
    apply andb_true_iff in Hvalid as [Hptr _]. repeat split; assumption.
Qed.

Lemma len_pos_of_nonempty (l : list Z) : l <> [] -> (0 <? len l) = true.
Proof.
  intros Hne. destruct l; [congruence|]. apply Z.ltb_lt. unfold len. cbn. lia.
Qed.

Lemma getScalar_after_set {A : Type} (read : list Z -> option A)
    (h : option ErrorHandler) (iv : Z -> list Z) (data : list Z) (key : string)
    (v d : A) (s s' : MMKV) :
  read [] = None ->
  read data = Some v ->
  0 <= m_actualSize s ->
  setDataForKey h iv data key false s = (true, s') ->
  getScalar h read key d s' = (v, s').
Proof.
  intros Hnil Hread Hsize Hset.
  assert (Hne : data <> []) by (intros ->; congruence).
  destruct (getDataForKey_after_setDataForKey h iv data key false s s' Hsize Hset Hne)
    as [Hkey Hget].
  unfold getScalar. rewrite Hkey, Hget, (len_pos_of_nonempty _ Hne), Hread.
  reflexivity.
Qed.

Lemma writeData_nonempty (data : list Z) : CodedOutputData.writeData data <> [].
Proof.
  unfold CodedOutputData.writeData, rawVarint32. rewrite rawVarint_S.
  destruct (_ <? 128); discriminate.
Qed.

Lemma getString_after_set (h : option ErrorHandler) (iv : Z -> list Z)
    (data : list Z) (key result : string) (s s' : MMKV) :
  len data < 2 ^ 31 ->
  0 <= m_actualSize s ->
  setDataForKey h iv data key true s = (true, s') ->
  getString h key result s' = (true, string_of_bytes data, s')
  /\ getBytes h key s' = (data, s').
Proof.
  intros Hlen Hsize Hset.
  destruct (getDataForKey_after_setDataForKey h iv data key true s s' Hsize Hset
              (writeData_nonempty data)) as [Hkey Hget].
  unfold getString, getBytes, CodedInputData.readString.
  rewrite Hkey, Hget, (len_pos_of_nonempty _ (writeData_nonempty data)).
  rewrite (read_write_data data Hlen). split; reflexivity.
Qed.

(** A store that is open, in step with its meta file, with its dictionary
    in use and with room, takes the record: [set] does report success
    there. *)
Lemma setDataForKey_succeeds (h : option ErrorHandler) (iv : Z -> list Z)
    (data : list Z) (key : string) (isDataHolder : bool) (s : MMKV) :
  key <> "" ->
  inSync s ->
  isFileValid s = true ->
  dictionaryInUse s = true ->
  (let value := if isDataHolder then CodedOutputData.writeData data else data in
   Fixed32Size + m_actualSize s + (len (record_head key value) + len value)
     <= MemoryFile.getFileSize (m_file s)) ->
  fst (setDataForKey h iv data key isDataHolder s) = true.
Proof.
  intros Hkey Hsync Hvalid Hdic Hroom. unfold setDataForKey.
  destruct key; [congruence|]. cbn [isKeyEmpty].
  rewrite (checkLoadData_inSync h s Hsync).
  destruct Hsync as [-> _]. rewrite Hvalid, Hdic. cbn [orb negb].
  unfold appendDataWithKey, ensureMemorySize. cbn zeta in Hroom.
  destruct (Z.ltb_spec (MemoryFile.getFileSize (m_file s))
              (Fixed32Size + m_actualSize s
               + (len (record_head (String a key)
                         (if isDataHolder then CodedOutputData.writeData data else data))
                  + len (if isDataHolder then CodedOutputData.writeData data else data))));
    [lia|].
  destruct (m_crypter s) as [c|].
  - destruct (AES.encrypt c _) as [e1 c1]. destruct (AES.encrypt c1 _) as [e2 c2].
    reflexivity.
  - reflexivity.
Qed.

(** ** Round trip *)

Lemma pbRawVarint32Size_pos (v : Z) : 0 < pbRawVarint32Size v.
Proof.
  unfold pbRawVarint32Size, rawVarint32.
  pose proof (rawVarint_nonempty 4 (uint32 v)) as Hne.
  destruct (rawVarint 5 (uint32 v)); [congruence | cbn; lia].
Qed.

Lemma len_into (size : Z) (bytes : list Z) :
  0 <= size -> len (CodedOutputData.into size bytes) = size.
Proof. intros H. unfold len, CodedOutputData.into. lens. Qed.

Lemma into_nonempty (size : Z) (bytes : list Z) :
  0 < size -> CodedOutputData.into size bytes <> [].
Proof.
  intros H Hnil. apply (f_equal len) in Hnil. rewrite len_into in Hnil by lia.
  change (len []) with 0 in Hnil. lia.
Qed.

Lemma record_head_size (key : string) (value : list Z) :
  len (record_head key value) + len value = recordSize key (len value).
Proof.
  unfold record_head, recordSize, pbRawVarint32Size. rewrite !len_app.
  unfold len. lia.
Qed.

(** An instance that takes records, with room for this one, stores it. *)
Lemma setDataForKey_takes (h : option ErrorHandler) (iv : Z -> list Z)
    (data : list Z) (key : string) (isDataHolder : bool) (s : MMKV) :
  key <> "" ->
  takesRecords s ->
  hasRoom key (len (if isDataHolder then CodedOutputData.writeData data else data)) s ->
  setDataForKey h iv data key isDataHolder s
  = (true, snd (setDataForKey h iv data key isDataHolder s)).
Proof.
  intros Hkey (Hsync & Hvalid & Hdic) Hroom.
  rewrite (surjective_pairing (setDataForKey h iv data key isDataHolder s)) at 1.
  f_equal. apply setDataForKey_succeeds; try assumption. cbn zeta.
  rewrite record_head_size. exact Hroom.
Qed.

Lemma scalar_round_trip {A : Type} (read : list Z -> option A)
    (h : option ErrorHandler) (iv : Z -> list Z) (size : Z) (bytes : list Z)
    (key : string) (v d : A) (s : MMKV) :
  read [] = None ->
  read (CodedOutputData.into size bytes) = Some v ->
  0 <= size ->
  0 <= m_actualSize s ->
  key <> "" ->
  takesRecords s ->
  hasRoom key size s ->
  let r := setDataForKey h iv (CodedOutputData.into size bytes) key false s in
  fst r = true /\ getScalar h read key d (snd r) = (v, snd r).
Proof.
  intros Hnil Hread Hpos Hsize Hkey Htakes Hroom r.
  rewrite <- (len_into size bytes Hpos) in Hroom.
  pose proof (setDataForKey_takes h iv _ key false s Hkey Htakes Hroom) as Hset.
  fold r in Hset. split; [now rewrite Hset|].
  exact (getScalar_after_set read h iv _ key v d s (snd r) Hnil Hread Hsize Hset).
Qed.

Lemma bytes_round_trip (h : option ErrorHandler) (iv : Z -> list Z)
    (data : list Z) (key result : string) (s : MMKV) :
  len data < 2 ^ 31 ->
  0 <= m_actualSize s ->
  key <> "" ->
  takesRecords s ->
  hasRoom key (len (CodedOutputData.writeData data)) s ->
  let r := setDataForKey h iv data key true s in
  fst r = true
  /\ getString h key result (snd r) = (true, string_of_bytes data, snd r)
  /\ getBytes h key (snd r) = (data, snd r).
Proof.
  intros Hlen Hsize Hkey Htakes Hroom r.
  pose proof (setDataForKey_takes h iv data key true s Hkey Htakes Hroom) as Hset.
  fold r in Hset. split; [now rewrite Hset|].
  exact (getString_after_set h iv data key result s (snd r) Hlen Hsize Hset).
Qed.

(** The length prefix of a stored string is read as a signed 32-bit
    number: from 2 GiB on a string that was stored does not read back. *)
Lemma read_write_data_long (data : list Z) :
  2 ^ 31 <= len data < 2 ^ 32 ->
  CodedInputData.readData (CodedOutputData.writeData data) = None.
Proof.
  intros Hlen.
  unfold CodedInputData.readData, CodedOutputData.writeData,
    CodedInputData.readRawVarint32.
  rewrite readRawVarint_rawVarint32, int32_uint32. fold (len data).
  assert (Hneg : int32 (len data) = len data - 2 ^ 32).
  { unfold int32, uint32. cbn zeta. rewrite Z.mod_small by lia.
    destruct (Z.ltb_spec (len data) (2 ^ 31)); [lia | reflexivity]. }
  rewrite Hneg. destruct (Z.leb_spec 0 (len data - 2 ^ 32)); [lia | reflexivity].
Qed.

Lemma getString_after_long_set (h : option ErrorHandler) (iv : Z -> list Z)
    (data : list Z) (key result : string) (s s' : MMKV) :
  2 ^ 31 <= len data < 2 ^ 32 ->
  0 <= m_actualSize s ->
  setDataForKey h iv data key true s = (true, s') ->
  getString h key result s' = (false, result, s')
  /\ getBytes h key s' = ([], s').
Proof.
  intros Hlen Hsize Hset.
  destruct (getDataForKey_after_setDataForKey h iv data key true s s' Hsize Hset
              (writeData_nonempty data)) as [Hkey Hget].
  unfold getString, getBytes, CodedInputData.readString.
  rewrite Hkey, Hget, (len_pos_of_nonempty _ (writeData_nonempty data)).
  rewrite (read_write_data_long data Hlen). split; reflexivity.
Qed.

(** C1 as stated fails: a [set] can answer [false], and the getter then
    gives the caller's default.  [storeFull] has two bytes left in a file
    that cannot grow: [set("n", 5)] answers [false] and stores nothing, and
    [getInt32("n", 0)] gives 0. *)
Lemma set_get_round_trip_counterexample :
  MemoryFile.getFileSize (m_file storeFull) = 4096
  /\ m_actualSize storeFull = 4090
  /\ set_int32 None noIV 5 "n" storeFull = (false, storeFull)
  /\ getInt32 None "n" 0 storeFull = (0, storeFull).
Proof.
  split; [vm_compute; reflexivity|].
  split; [vm_compute; reflexivity|].
  split; vm_compute; reflexivity.
Qed.

(** C1, amended: whenever a [set] answers [true], the matching getter
    returns the value that was set, whatever default the caller passes; and
    on an instance that takes records and has room for this one, [set] does
    answer [true], so the round trip holds there as it stands.  Values
    range over their C++ types ([float] and [double] as bit patterns, a
    [const char] pointer as the C string it denotes); a string or buffer is
    shorter than 2 GiB, the most its signed 32-bit length prefix reads
    back; [m_actualSize] is a [size_t]. *)
Theorem set_get_round_trip (h : option ErrorHandler) (iv : Z -> list Z)
    (key : string) (s : MMKV) :
  0 <= m_actualSize s ->
  (forall s',
      (forall v d, set_bool h iv v key s = (true, s') -> getBool h key d s' = (v, s'))
      /\ (forall v d, - 2 ^ 31 <= v < 2 ^ 31 ->
            set_int32 h iv v key s = (true, s') -> getInt32 h key d s' = (v, s'))
      /\ (forall v d, 0 <= v < 2 ^ 32 ->
            set_uint32 h iv v key s = (true, s') -> getUInt32 h key d s' = (v, s'))
      /\ (forall v d, - 2 ^ 63 <= v < 2 ^ 63 ->
            set_int64 h iv v key s = (true, s') -> getInt64 h key d s' = (v, s'))
      /\ (forall v d, 0 <= v < 2 ^ 64 ->
            set_uint64 h iv v key s = (true, s') -> getUInt64 h key d s' = (v, s'))
      /\ (forall v d, 0 <= v < 2 ^ 32 ->
            set_float h iv v key s = (true, s') -> getFloat h key d s' = (v, s'))
      /\ (forall v d, 0 <= v < 2 ^ 64 ->
            set_double h iv v key s = (true, s') -> getDouble h key d s' = (v, s'))
      /\ (forall v result, len (bytes_of_string v) < 2 ^ 31 ->
            set_string h iv v key s = (true, s') ->
            getString h key result s' = (true, v, s'))
      /\ (forall v result, len (bytes_of_string (c_str v)) < 2 ^ 31 ->
            set_cstr h iv (Some v) key s = (true, s') ->
            getString h key result s' = (true, c_str v, s'))
      /\ (forall v, len v < 2 ^ 31 ->
            set_bytes h iv v key s = (true, s') -> getBytes h key s' = (v, s')))
  /\ (key <> "" ->
      takesRecords s ->
      (forall v d, hasRoom key pbBoolSize s ->
          let r := set_bool h iv v key s in
          fst r = true /\ getBool h key d (snd r) = (v, snd r))
      /\ (forall v d, - 2 ^ 31 <= v < 2 ^ 31 -> hasRoom key (pbInt32Size v) s ->
            let r := set_int32 h iv v key s in
            fst r = true /\ getInt32 h key d (snd r) = (v, snd r))
      /\ (forall v d, 0 <= v < 2 ^ 32 -> hasRoom key (pbUInt32Size v) s ->
            let r := set_uint32 h iv v key s in
            fst r = true /\ getUInt32 h key d (snd r) = (v, snd r))
      /\ (forall v d, - 2 ^ 63 <= v < 2 ^ 63 -> hasRoom key (pbInt64Size v) s ->
            let r := set_int64 h iv v key s in
            fst r = true /\ getInt64 h key d (snd r) = (v, snd r))
      /\ (forall v d, 0 <= v < 2 ^ 64 -> hasRoom key (pbUInt64Size v) s ->
            let r := set_uint64 h iv v key s in
            fst r = true /\ getUInt64 h key d (snd r) = (v, snd r))
      /\ (forall v d, 0 <= v < 2 ^ 32 -> hasRoom key pbFloatSize s ->
            let r := set_float h iv v key s in
            fst r = true /\ getFloat h key d (snd r) = (v, snd r))
      /\ (forall v d, 0 <= v < 2 ^ 64 -> hasRoom key pbDoubleSize s ->
            let r := set_double h iv v key s in
            fst r = true /\ getDouble h key d (snd r) = (v, snd r))
      /\ (forall v result, len (bytes_of_string v) < 2 ^ 31 ->
            hasRoom key (len (CodedOutputData.writeData (bytes_of_string v))) s ->
            let r := set_string h iv v key s in
            fst r = true /\ getString h key result (snd r) = (true, v, snd r))
      /\ (forall v result, len (bytes_of_string (c_str v)) < 2 ^ 31 ->
            hasRoom key (len (CodedOutputData.writeData (bytes_of_string (c_str v)))) s ->
            let r := set_cstr h iv (Some v) key s in
            fst r = true /\ getString h key result (snd r) = (true, c_str v, snd r))
      /\ (forall v, len v < 2 ^ 31 ->
            hasRoom key (len (CodedOutputData.writeData v)) s ->
            let r := set_bytes h iv v key s in
            fst r = true /\ getBytes h key (snd r) = (v, snd r))).
Proof.
  intros Hsize. split.
  - intros s'.
    repeat match goal with |- _ /\ _ => split end.
    + intros v d. unfold set_bool. destruct (isKeyEmpty key); [discriminate|].
      intros Hset.
      exact (getScalar_after_set CodedInputData.readBool h iv _ key v d s s'
               eq_refl (read_write_bool v) Hsize Hset).
    + intros v d Hv. unfold set_int32. destruct (isKeyEmpty key); [discriminate|].
      intros Hset.
      exact (getScalar_after_set CodedInputData.readInt32 h iv _ key v d s s'
               eq_refl (read_write_int32 v Hv) Hsize Hset).
    + intros v d Hv. unfold set_uint32. destruct (isKeyEmpty key); [discriminate|].
      intros Hset.
      exact (getScalar_after_set CodedInputData.readUInt32 h iv _ key v d s s'
               eq_refl (read_write_uint32 v Hv) Hsize Hset).
    + intros v d Hv. unfold set_int64. destruct (isKeyEmpty key); [discriminate|].
      intros Hset.
      exact (getScalar_after_set CodedInputData.readInt64 h iv _ key v d s s'
               eq_refl (read_write_int64 v Hv) Hsize Hset).
    + intros v d Hv. unfold set_uint64. destruct (isKeyEmpty key); [discriminate|].
      intros Hset.
      exact (getScalar_after_set CodedInputData.readUInt64 h iv _ key v d s s'
               eq_refl (read_write_uint64 v Hv) Hsize Hset).
    + intros v d Hv. unfold set_float. destruct (isKeyEmpty key); [discriminate|].
      intros Hset.
      exact (getScalar_after_set CodedInputData.readFloat h iv _ key v d s s'
               eq_refl (read_write_fixed 4 v Hv) Hsize Hset).
    + intros v d Hv. unfold set_double. destruct (isKeyEmpty key); [discriminate|].
      intros Hset.
      exact (getScalar_after_set CodedInputData.readDouble h iv _ key v d s s'
               eq_refl (read_write_fixed 8 v Hv) Hsize Hset).
    + intros v result Hv. unfold set_string. destruct (isKeyEmpty key); [discriminate|].
      intros Hset.
      destruct (getString_after_set h iv _ key result s s' Hv Hsize Hset) as [-> _].
      now rewrite string_of_bytes_of_string.
    + intros v result Hv. unfold set_cstr. intros Hset.
      destruct (getString_after_set h iv _ key result s s' Hv Hsize Hset) as [-> _].
      now rewrite string_of_bytes_of_string.
    + intros v Hv. unfold set_bytes. destruct (isKeyEmpty key); [discriminate|].
      intros Hset.
      now destruct (getString_after_set h iv _ key "" s s' Hv Hsize Hset) as [_ ->].
  - intros Hkey Htakes.
    assert (Hempty : isKeyEmpty key = false)
      by (destruct key; [congruence | reflexivity]).
    assert (Hv32 : forall v, 0 <= pbRawVarint32Size v)
      by (intros v; unfold pbRawVarint32Size; lia).
    assert (Hv64 : forall v, 0 <= pbRawVarint64Size v)
      by (intros v; unfold pbRawVarint64Size; lia).
    repeat match goal with |- _ /\ _ => split end.
    + intros v d Hroom. unfold set_bool. rewrite Hempty. cbn zeta.
      apply (scalar_round_trip CodedInputData.readBool); try assumption;
        [reflexivity | apply read_write_bool | unfold pbBoolSize; lia].
    + intros v d Hv Hroom. unfold set_int32. rewrite Hempty. cbn zeta.
      apply (scalar_round_trip CodedInputData.readInt32); try assumption;
        [reflexivity | now apply read_write_int32 |].
      unfold pbInt32Size. destruct (0 <=? v); [apply Hv32 | lia].
    + intros v d Hv Hroom. unfold set_uint32. rewrite Hempty. cbn zeta.
      apply (scalar_round_trip CodedInputData.readUInt32); try assumption;
        [reflexivity | now apply read_write_uint32 | apply Hv32].
    + intros v d Hv Hroom. unfold set_int64. rewrite Hempty. cbn zeta.
      apply (scalar_round_trip CodedInputData.readInt64); try assumption;
        [reflexivity | now apply read_write_int64 | apply Hv64].
    + intros v d Hv Hroom. unfold set_uint64. rewrite Hempty. cbn zeta.
      apply (scalar_round_trip CodedInputData.readUInt64); try assumption;
        [reflexivity | now apply read_write_uint64 | apply Hv64].
    + intros v d Hv Hroom. unfold set_float. rewrite Hempty. cbn zeta.
      apply (scalar_round_trip CodedInputData.readFloat); try assumption;
        [reflexivity | now apply (read_write_fixed 4) | unfold pbFloatSize; lia].
    + intros v d Hv Hroom. unfold set_double. rewrite Hempty. cbn zeta.
      apply (scalar_round_trip CodedInputData.readDouble); try assumption;
        [reflexivity | now apply (read_write_fixed 8) | unfold pbDoubleSize; lia].
    + intros v result Hv Hroom. unfold set_string. rewrite Hempty. cbn zeta.
      destruct (bytes_round_trip h iv (bytes_of_string v) key result s Hv Hsize Hkey
                  Htakes Hroom) as (Hok & Hstr & _).
      split; [exact Hok|]. now rewrite Hstr, string_of_bytes_of_string.
    + intros v result Hv Hroom. unfold set_cstr. cbn zeta.
      destruct (bytes_round_trip h iv (bytes_of_string (c_str v)) key result s Hv
                  Hsize Hkey Htakes Hroom) as (Hok & Hstr & _).
      split; [exact Hok|]. now rewrite Hstr, string_of_bytes_of_string.
    + intros v Hv Hroom. unfold set_bytes. rewrite Hempty. cbn zeta.
      destruct (bytes_round_trip h iv v key "" s Hv Hsize Hkey Htakes Hroom)
        as (Hok & _ & Hbytes).
      split; [exact Hok | exact Hbytes].
Qed.

(** Every overload on the freshly opened [store0], and a string on the
    crypt store. *)
Lemma set_get_round_trip_witness :
  (let r := set_bool None noIV true "k" store0 in
   fst r = true /\ getBool None "k" false (snd r) = (true, snd r))
  /\ (let r := set_int32 None noIV (-2) "k" store0 in
      fst r = true /\ getInt32 None "k" 7 (snd r) = (-2, snd r))
  /\ (let r := set_uint32 None noIV 4000000000 "k" store0 in
      fst r = true /\ getUInt32 None "k" 7 (snd r) = (4000000000, snd r))
  /\ (let r := set_int64 None noIV (-5000000000) "k" store0 in
      fst r = true /\ getInt64 None "k" 7 (snd r) = (-5000000000, snd r))
  /\ (let r := set_uint64 None noIV 18000000000000000000 "k" store0 in
      fst r = true /\ getUInt64 None "k" 7 (snd r) = (18000000000000000000, snd r))
  /\ (let r := set_float None noIV 0x3fc00000 "k" store0 in
      fst r = true /\ getFloat None "k" 0 (snd r) = (0x3fc00000, snd r))
  /\ (let r := set_double None noIV 0x3ff8000000000000 "k" store0 in
      fst r = true /\ getDouble None "k" 0 (snd r) = (0x3ff8000000000000, snd r))
  /\ (let r := set_string None noIV "hello" "k" store0 in
      fst r = true /\ getString None "k" "" (snd r) = (true, "hello", snd r))
  /\ (let r := set_cstr None noIV (Some "hello") "k" store0 in
      fst r = true /\ getString None "k" "" (snd r) = (true, c_str "hello", snd r))
  /\ (let r := set_bytes None noIV [1; 2; 3] "k" store0 in
      fst r = true /\ getBytes None "k" (snd r) = ([1; 2; 3], snd r))
  /\ (set_string None noIV "hello" "msg" crypt0 = (true, crypt1)
      /\ getString None "msg" "" crypt1 = (true, "hello", crypt1)).
Proof.
  assert (Hs0 : m_actualSize store0 = 0) by (vm_compute; reflexivity).
  assert (Hc0 : m_actualSize crypt0 = 0) by (vm_compute; reflexivity).
  assert (Hsize : 0 <= m_actualSize store0) by (rewrite Hs0; lia).
  assert (Hsizec : 0 <= m_actualSize crypt0) by (rewrite Hc0; lia).
  assert (Hkey : "k" <> "") by discriminate.
  assert (Htakes : takesRecords store0).
  { split; [split|split]; vm_compute; reflexivity. }
  assert (Hroom : forall n, n <= 4000 -> hasRoom "k" n store0).
  { intros n Hn. unfold hasRoom, recordSize.
    assert (Hfile : MemoryFile.getFileSize (m_file store0) = 4096)
      by (vm_compute; reflexivity).
    assert (Hlen : len (bytes_of_string "k") = 1) by (vm_compute; reflexivity).
    pose proof (rawVarint_length 5 (uint32 n)) as Hn5.
    assert (Hk : pbRawVarint32Size 1 = 1) by (vm_compute; reflexivity).
    rewrite Hfile, Hs0, Hlen, Hk.
    unfold pbRawVarint32Size, rawVarint32, Fixed32Size, pbFixed32Size. lia. }
  assert (Hn32 : forall v, pbRawVarint32Size v <= 5).
  { intros v. unfold pbRawVarint32Size, rawVarint32.
    pose proof (rawVarint_length 5 (uint32 v)). lia. }
  assert (Hn64 : forall v, pbRawVarint64Size v <= 10).
  { intros v. unfold pbRawVarint64Size, rawVarint64.
    pose proof (rawVarint_length 10 (uint64 v)). lia. }
  assert (Hlen1 : len (bytes_of_string "hello") < 2 ^ 31) by (vm_compute; reflexivity).
  assert (Hlen2 : len (bytes_of_string (c_str "hello")) < 2 ^ 31)
    by (vm_compute; reflexivity).
  assert (Hlen3 : len [1; 2; 3] < 2 ^ 31) by (vm_compute; reflexivity).
  assert (Hw1 : len (CodedOutputData.writeData (bytes_of_string "hello")) = 6)
    by (vm_compute; reflexivity).
  assert (Hw2 : len (CodedOutputData.writeData (bytes_of_string (c_str "hello"))) = 6)
    by (vm_compute; reflexivity).
  assert (Hw3 : len (CodedOutputData.writeData [1; 2; 3]) = 4)
    by (vm_compute; reflexivity).
  assert (Hset : set_string None noIV "hello" "msg" crypt0 = (true, crypt1))
    by (vm_compute; reflexivity).
  destruct (set_get_round_trip None noIV "k" store0 Hsize) as [_ Hgood].
  destruct (Hgood Hkey Htakes)
    as (Hb & Hi32 & Hu32 & Hi64 & Hu64 & Hf & Hd & Hstring & Hcstr & Hbytes).
  destruct (set_get_round_trip None noIV "msg" crypt0 Hsizec) as [Hstored _].
  destruct (Hstored crypt1) as (_ & _ & _ & _ & _ & _ & _ & Hstr & _).
  split; [apply Hb, Hroom; unfold pbBoolSize; lia|].
  split; [apply Hi32; [lia | apply Hroom; unfold pbInt32Size; cbn; lia]|].
  split; [apply Hu32; [lia | apply Hroom; unfold pbUInt32Size; specialize (Hn32 4000000000); lia]|].
  split; [apply Hi64; [lia | apply Hroom; unfold pbInt64Size; specialize (Hn64 (-5000000000)); lia]|].
  split; [apply Hu64; [lia | apply Hroom; unfold pbUInt64Size; specialize (Hn64 18000000000000000000); lia]|].
  split; [apply Hf; [lia | apply Hroom; unfold pbFloatSize; lia]|].
  split; [apply Hd; [lia | apply Hroom; unfold pbDoubleSize; lia]|].
  split; [apply Hstring; [exact Hlen1 | apply Hroom; rewrite Hw1; lia]|].
  split; [apply Hcstr; [exact Hlen2 | apply Hroom; rewrite Hw2; lia]|].
  split; [apply Hbytes; [exact Hlen3 | apply Hroom; rewrite Hw3; lia]|].
  split; [exact Hset | exact (Hstr "hello" "" Hlen1 Hset)].
Defined.

(** ** Absent or empty *)

Lemma valueOf_absent (s : MMKV) (key : string) :
  contains s key = false -> valueOf s key = [].
Proof.
  unfold contains, valueOf. intros Habs.
  destruct (MemoryFile.getMemory (m_file s)); [|reflexivity].
  destruct (m_crypter s).
  - destruct (m_dicCrypt s !! key) eqn:E; [|reflexivity].
    apply bool_decide_eq_false_1 in Habs. exfalso. apply Habs. eauto.
  - destruct (m_dic s !! key) eqn:E; [|reflexivity].
    apply bool_decide_eq_false_1 in Habs. exfalso. apply Habs. eauto.
Qed.

(** C5: [getString] tells an absent key from a present but empty
    string.  After the freshness check, a key that is not in the index
    gives [false] and leaves the caller's string as it was; a key whose
    stored value is the encoding of the empty string gives [true] and the
    empty string.  The second case is what [set] of an empty string leaves
    behind. *)
Theorem getString_absent_or_empty (h : option ErrorHandler) (key result : string)
    (s : MMKV) :
  key <> "" ->
  let s0 := checkLoadData h s in
  (contains s0 key = false -> getString h key result s = (false, result, s0))
  /\ (contains s0 key = true ->
      valueOf s0 key = CodedOutputData.writeData (bytes_of_string "") ->
      getString h key result s = (true, "", s0))
  /\ (forall iv s',
        0 <= m_actualSize s ->
        set_string h iv "" key s = (true, s') ->
        contains s' key = true
        /\ valueOf s' key = CodedOutputData.writeData (bytes_of_string "")
        /\ getString h key result s' = (true, "", s')).
Proof.
  intros Hkey s0.
  assert (Hne : isKeyEmpty key = false) by (destruct key; [congruence | reflexivity]).
  split; [|split].
  - intros Habs. unfold getString, getDataForKey. rewrite Hne. fold s0.
    now rewrite (valueOf_absent _ _ Habs).
  - intros _ Hvalue. unfold getString, getDataForKey. rewrite Hne. fold s0.
    now rewrite Hvalue.
  - intros iv s' Hsize Hset. unfold set_string in Hset. rewrite Hne in Hset.
    destruct (getDataForKey_after_setDataForKey h iv _ key true s s' Hsize Hset
                (writeData_nonempty _)) as [_ Hget].
    destruct (getString_after_set h iv (bytes_of_string "") key result s s'
                ltac:(reflexivity) Hsize Hset)
      as [Hstr _].
    assert (Hsync : checkLoadData h s' = s').
    { unfold getDataForKey in Hget. now injection Hget. }
    assert (Hval : valueOf s' key = CodedOutputData.writeData (bytes_of_string "")).
    { unfold getDataForKey in Hget. rewrite Hsync in Hget. now injection Hget. }
    split; [|split; [exact Hval | exact Hstr]].
    destruct (contains s' key) eqn:Hc; [reflexivity|].
    rewrite (valueOf_absent _ _ Hc) in Hval. discriminate.
Qed.

Lemma getString_absent_or_empty_witness :
  (contains store3 "nokey" = false
   /\ getString None "nokey" "kept" store3 = (false, "kept", store3))
  /\ (set_string None noIV "" "e" store2 = (true, store3)
      /\ contains store3 "e" = true
      /\ getString None "e" "kept" store3 = (true, "", store3)).
Proof.
  assert (Hsync : checkLoadData None store3 = store3) by (vm_compute; reflexivity).
  assert (Habs : contains store3 "nokey" = false) by (vm_compute; reflexivity).
  assert (Hset : set_string None noIV "" "e" store2 = (true, store3))
    by (vm_compute; reflexivity).
  assert (Hsize : m_actualSize store2 = 17) by (vm_compute; reflexivity).
  split.
  - split; [exact Habs|].
    destruct (getString_absent_or_empty None "nokey" "kept" store3 ltac:(discriminate))
      as (Hcase & _).
    rewrite Hsync in Hcase. exact (Hcase Habs).
  - destruct (getString_absent_or_empty None "e" "kept" store2 ltac:(discriminate))
      as (_ & _ & Hcase).
    destruct (Hcase noIV store3 ltac:(lia) Hset) as (Hc & _ & Hget).
    split; [exact Hset|]. split; [exact Hc | exact Hget].
Defined.

(** * Further properties of MMKV.cpp *)

(** ** Registry keys and paths *)

Lemma append_assoc (a b c : string) : (a +:+ b) +:+ c = a +:+ (b +:+ c).
Proof.
  induction a as [|ch a IH]; [reflexivity|].
  change ((String ch a +:+ b) +:+ c) with (String ch ((a +:+ b) +:+ c)).
  change (String ch a +:+ (b +:+ c)) with (String ch (a +:+ (b +:+ c))).
  now rewrite IH.
Qed.

Lemma isLowerHex_not_listed (ch : ascii) :
  isLowerHex ch = true -> isListed ch = false /\ Ascii.eqb NUL ch = false.
Proof. destruct ch as [[] [] [] [] [] [] [] []]; vm_compute; intuition congruence. Qed.

Lemma lowerHex_isSafeName (name : string) :
  forallb isLowerHex (list_ascii_of_string name) = true -> isSafeName name = true.
Proof.
  unfold isSafeName, containsListed, containsNUL.
  induction name as [|ch rest IH]; [reflexivity|].
  cbn [list_ascii_of_string forallb existsb]. intros H.
  apply andb_prop in H as [Hch Hrest].
  destruct (isLowerHex_not_listed ch Hch) as [-> ->]. cbn [orb].
  exact (IH Hrest).
Qed.

(** X1: the registry key of an instance.  Without a relative path, or with
    one equal to the root directory, the key is the id as given; with any
    other relative path it is the 32-character lowercase hex MD5 of
    [relativePath/mmapID].  Neither the mode nor the crypt key takes part. *)
Theorem mmapedKVKey_spec (rootDir mmapID : string) :
  mmapedKVKey rootDir mmapID None = mmapID
  /\ mmapedKVKey rootDir mmapID (Some rootDir) = mmapID
  /\ (forall rp,
        rp <> rootDir ->
        let key := mmapedKVKey rootDir mmapID (Some rp) in
        key = md5 (rp +:+ "/" +:+ mmapID)
        /\ String.length key = 32%nat
        /\ forallb isLowerHex (list_ascii_of_string key) = true).
Proof.
  split; [reflexivity|]. split.
  - unfold mmapedKVKey. now rewrite String.eqb_refl.
  - intros rp Hne. cbn zeta. unfold mmapedKVKey.
    assert (Heq : String.eqb rootDir rp = false)
      by (apply String.eqb_neq; congruence).
    rewrite Heq. cbn [negb].
    destruct (md5_shape (rp +:+ MMKV_PATH_SLASH +:+ mmapID)) as [Hlen Hhex].
    repeat split; assumption.
Qed.

Lemma length_append (a b : string) :
  String.length (a +:+ b) = (String.length a + String.length b)%nat.
Proof.
  induction a as [|ch a IH]; [reflexivity|].
  change (String ch a +:+ b) with (String ch (a +:+ b)). cbn. now rewrite IH.
Qed.

Lemma append_cancel_l (a b c : string) : a +:+ b = a +:+ c -> b = c.
Proof.
  induction a as [|ch a IH]; [auto|].
  change (String ch a +:+ b) with (String ch (a +:+ b)).
  change (String ch a +:+ c) with (String ch (a +:+ c)).
  intros [= H]. auto.
Qed.

Lemma containsListed_app (a b : string) :
  containsListed (a +:+ b) = containsListed a || containsListed b.
Proof. unfold containsListed. now rewrite list_ascii_app, existsb_app. Qed.

Lemma containsNUL_app (a b : string) :
  containsNUL (a +:+ b) = containsNUL a || containsNUL b.
Proof. unfold containsNUL. now rewrite list_ascii_app, existsb_app. Qed.

Lemma hasSpecialCharacter_isSafeName (name : string) :
  hasSpecialCharacter name = negb (isSafeName name).
Proof.
  rewrite hasSpecialCharacter_spec. unfold isSafeName.
  now destruct (containsListed name), (containsNUL name).
Qed.

Lemma plain_and_hashed_differ (hashed plain : string) :
  isSafeName hashed = false -> isSafeName plain = true ->
  encodeFilePath hashed <> encodeFilePath plain.
Proof.
  intros Hhashed Hplain. unfold encodeFilePath.
  rewrite !hasSpecialCharacter_isSafeName, Hhashed, Hplain. cbn [negb].
  intros Heq.
  assert (Hsep : containsListed plain = true).
  { rewrite <- Heq, !containsListed_app.
    assert (Hslash : containsListed MMKV_PATH_SLASH = true) by reflexivity.
    rewrite Hslash. now rewrite orb_true_r. }
  unfold isSafeName in Hplain. rewrite Hsep in Hplain. discriminate.
Qed.

(** X2: every encoded file name is one the file system takes.  An id
    without any of the listed characters (and without NUL) is kept and is
    safe as it stands; any other id becomes the fixed directory name, one
    separator, and a 32-character hash that is safe.  So the name of a
    hashed id and the name of a plain id never coincide. *)
Theorem encodeFilePath_safe (mmapID : string) :
  (isSafeName mmapID = true ->
     encodeFilePath mmapID = mmapID /\ isSafeName (encodeFilePath mmapID) = true)
  /\ (isSafeName mmapID = false ->
        exists hash,
          encodeFilePath mmapID = SPECIAL_CHARACTER_DIRECTORY_NAME +:+ "/" +:+ hash
          /\ String.length hash = 32%nat
          /\ isSafeName hash = true
          /\ isSafeName SPECIAL_CHARACTER_DIRECTORY_NAME = true)
  /\ (forall other,
        isSafeName mmapID = false -> isSafeName other = true ->
        encodeFilePath mmapID <> encodeFilePath other).
Proof.
  split; [|split].
  - intros H. unfold encodeFilePath.
    rewrite hasSpecialCharacter_isSafeName, H. cbn [negb].
    split; [reflexivity | exact H].
  - intros H. unfold encodeFilePath.
    rewrite hasSpecialCharacter_isSafeName, H. cbn [negb].
    exists (md5 mmapID). destruct (md5_shape mmapID) as [Hlen Hhex].
    repeat split; try assumption. now apply lowerHex_isSafeName.
  - intros other Hhashed Hother. now apply plain_and_hashed_differ.
Qed.

(** X3: where the two files of an instance lie.  Both are in the relative
    path when one is given and in the root directory otherwise; the meta
    file is the data file with [.crc] appended, so the two are never the
    same file.  But the data file of the id [x.crc] is the meta file of the
    id [x]. *)
Theorem file_paths (rootDir mmapID : string) (relativePath : option string) :
  let dir := default rootDir relativePath in
  mappedKVPathWithID rootDir mmapID relativePath
    = dir +:+ "/" +:+ encodeFilePath mmapID
  /\ crcPathWithID rootDir mmapID relativePath
     = mappedKVPathWithID rootDir mmapID relativePath +:+ ".crc"
  /\ crcPathWithID rootDir mmapID relativePath
     <> mappedKVPathWithID rootDir mmapID relativePath
  /\ (isSafeName mmapID = true ->
        mappedKVPathWithID rootDir (mmapID +:+ ".crc") relativePath
        = crcPathWithID rootDir mmapID relativePath).
Proof.
  cbn zeta.
  assert (Hcrc : crcPathWithID rootDir mmapID relativePath
                 = mappedKVPathWithID rootDir mmapID relativePath +:+ ".crc").
  { unfold mappedKVPathWithID, crcPathWithID, CRC_SUFFIX, MMKV_PATH_SLASH.
    destruct relativePath; now rewrite !append_assoc. }
  unfold mappedKVPathWithID, crcPathWithID, CRC_SUFFIX, MMKV_PATH_SLASH in *.
  split; [|split; [|split]].
  - now destruct relativePath.
  - exact Hcrc.
  - rewrite Hcrc. intros Heq. apply (f_equal String.length) in Heq.
    rewrite length_append in Heq. cbn in Heq. lia.
  - intros Hsafe.
    assert (Hplain : encodeFilePath (mmapID +:+ ".crc") = encodeFilePath mmapID +:+ ".crc").
    { unfold encodeFilePath. rewrite !hasSpecialCharacter_isSafeName, Hsafe.
      unfold isSafeName in *. rewrite containsListed_app, containsNUL_app.
      apply andb_prop in Hsafe as [Hl Hn].
      apply negb_true_iff in Hl, Hn. rewrite Hl, Hn. reflexivity. }
    rewrite Hplain. now destruct relativePath.
Qed.

Lemma file_paths_witness :
  isSafeName "settings" = true
  /\ mappedKVPathWithID "/data/mmkv" ("settings" +:+ ".crc") None
     = crcPathWithID "/data/mmkv" "settings" None.
Proof.
  split; [reflexivity|].
  apply (file_paths "/data/mmkv" "settings" None). reflexivity.
Defined.

(** ** The registry *)

Lemma loadFromFile_handle (h : option ErrorHandler) (s : MMKV) :
  m_mmapKey (loadFromFile h s) = m_mmapKey s
  /\ m_isInterProcess (loadFromFile h s) = m_isInterProcess s.
Proof.
  assert (Hbuild : forall stored s0,
             m_mmapKey (buildIndex stored s0) = m_mmapKey s0
             /\ m_isInterProcess (buildIndex stored s0) = m_isInterProcess s0).
  { intros stored s0. unfold buildIndex. case_matches; split; reflexivity. }
  apply loadFromFile_cases; intros; try (split; reflexivity).
  unfold loadKeep.
  match goal with
  | |- context [buildIndex ?st ?s2] => destruct (Hbuild st s2) as [H1 H2]
  end.
  split; cbn; assumption.
Qed.

(** What the constructor leaves in the instance. *)
Lemma MMKV_new_instance (mmapID : string) (mode : Z) (cryptKey relativePath : option string)
    (p : Process) :
  let kv := fst (MMKV_new mmapID mode cryptKey relativePath p) in
  m_mmapID kv = mmapID
  /\ m_path kv = mappedKVPathWithID (g_rootDir p) mmapID relativePath
  /\ m_crcPath kv = crcPathWithID (g_rootDir p) mmapID relativePath
  /\ m_isInterProcess kv = negb (Z.land mode MMKV_MULTI_PROCESS =? 0)
  /\ (is_Some (m_crypter kv) <-> is_Some (nonEmptyKey cryptKey)).
Proof.
  unfold MMKV_new. cbn [fst].
  match goal with
  | |- context [loadFromFile ?h ?s] =>
      pose proof (loadFromFile_identity h s) as (H1 & H2 & H3);
      pose proof (loadFromFile_handle h s) as [_ H4];
      pose proof (loadFromFile_crypter_key h s) as H5;
      generalize dependent (loadFromFile h s)
  end.
  intros kv H1 H2 H3 H4 H5. cbn in H1, H2, H3, H4, H5.
  repeat split; try assumption;
    destruct (m_crypter kv), (nonEmptyKey cryptKey); cbn in H5;
    try discriminate; intros [? ?]; eauto; discriminate.
Qed.

Lemma MMKV_new_process (mmapID : string) (mode : Z) (cryptKey relativePath : option string)
    (p : Process) :
  let p' := snd (MMKV_new mmapID mode cryptKey relativePath p) in
  g_instanceDic p' = g_instanceDic p
  /\ g_rootDir p' = g_rootDir p
  /\ exists evs, g_trace p' = g_trace p ++ evs
       ++ [EvOpen (mappedKVPathWithID (g_rootDir p) mmapID relativePath);
           EvOpen (crcPathWithID (g_rootDir p) mmapID relativePath)].
Proof.
  unfold MMKV_new. cbn [snd].
  destruct (hasSpecialCharacter mmapID).
  - unfold mkSpecialCharacterFileDirectory. destruct (g_specialDirOnce p).
    + repeat split. exists []. cbn. now rewrite <- app_assoc.
    + repeat split. eexists [_]. cbn. rewrite <- !app_assoc. reflexivity.
  - repeat split. exists []. cbn. now rewrite <- app_assoc.
Qed.

(** The part of [mmkvWithID] between the registry miss and the
    constructor touches neither the registry nor the root directory. *)
Lemma prepare_relativePath (relativePath : option string) (p : Process) :
  let p1 :=
    match relativePath with
    | Some rp =>
        let specialPath := rp +:+ MMKV_PATH_SLASH +:+ SPECIAL_CHARACTER_DIRECTORY_NAME in
        let p' := emit (EvIsFileExist specialPath) p in
        if isFileExist specialPath p' then p' else mkPath specialPath p'
    | None => p
    end in
  g_instanceDic p1 = g_instanceDic p /\ g_rootDir p1 = g_rootDir p
  /\ exists evs, g_trace p1 = g_trace p ++ evs.
Proof.
  destruct relativePath as [rp|]; cbn zeta.
  - destruct (isFileExist _ _); repeat split; cbn; rewrite <- ?app_assoc; eauto.
  - repeat split. exists []. now rewrite app_nil_r.
Qed.

(** A registry miss: what [mmkvWithID] enters and what it opens. *)
Lemma mmkvWithID_fresh (mmapID : string) (mode : Z)
    (cryptKey relativePath : option string) (p : Process) :
  mmapID <> "" ->
  let key := mmapedKVKey (g_rootDir p) mmapID relativePath in
  g_instanceDic p !! key = None ->
  let r := mmkvWithID mmapID mode cryptKey relativePath p in
  fst r = Some key
  /\ (exists kv,
        g_instanceDic (snd r) = <[key := kv]> (g_instanceDic p)
        /\ m_mmapKey kv = key
        /\ m_mmapID kv = mmapID
        /\ m_path kv = mappedKVPathWithID (g_rootDir p) mmapID relativePath
        /\ m_crcPath kv = crcPathWithID (g_rootDir p) mmapID relativePath
        /\ m_isInterProcess kv = negb (Z.land mode MMKV_MULTI_PROCESS =? 0)
        /\ (is_Some (m_crypter kv) <-> is_Some (nonEmptyKey cryptKey)))
  /\ exists evs,
       g_trace (snd r)
       = g_trace p ++ evs
           ++ [EvOpen (mappedKVPathWithID (g_rootDir p) mmapID relativePath);
               EvOpen (crcPathWithID (g_rootDir p) mmapID relativePath);
               EvUnlock].
Proof.
  intros Hne key Hfresh r. subst r. unfold mmkvWithID.
  destruct (decide (mmapID = "")) as [->|_]; [congruence|].
  cbn [emit g_rootDir g_instanceDic]. fold key. rewrite Hfresh.
  pose proof (prepare_relativePath relativePath
                (emit (EvFind key) (emit EvLock p))) as Hprep.
  cbn zeta in Hprep. cbn [emit g_rootDir g_instanceDic g_trace] in Hprep.
  set (p1 := match relativePath with Some _ => _ | None => _ end) in *.
  destruct Hprep as (Hdic & Hroot & evs1 & Htrace1).
  pose proof (MMKV_new_process mmapID mode cryptKey relativePath p1) as Hnew.
  pose proof (MMKV_new_instance mmapID mode cryptKey relativePath p1) as Hkv.
  cbn zeta in Hnew, Hkv.
  destruct (MMKV_new mmapID mode cryptKey relativePath p1) as [kv p2].
  cbn [fst snd] in *.
  destruct Hnew as (Hdic2 & Hroot2 & evs & Htrace).
  destruct Hkv as (Hid1 & Hid2 & Hid3 & Hinter & Hcrypt).
  rewrite Hroot in Hid2, Hid3, Htrace.
  cbn [with_instanceDic g_instanceDic emit g_trace].
  rewrite Hdic2, Hdic, Htrace, Htrace1.
  split; [reflexivity|]. split.
  - exists (with_mmapKey key kv). repeat split; cbn; tauto.
  - exists ((EvLock :: EvFind key :: evs1) ++ evs).
    rewrite <- !app_assoc. cbn. rewrite <- ?app_assoc. reflexivity.
Qed.

(** X4: opening an id that is not registered yet.  One instance is built
    and entered in the registry under [mmapedKVKey]; every other entry of
    the registry stays.  The instance carries the id, its registry key and
    its two paths; it is inter-process exactly when the mode has the
    multi-process bit, and it has a crypter exactly when a non-empty key is
    given.  Both files are opened on the way. *)
Theorem mmkvWithID_registers (mmapID : string) (mode : Z)
    (cryptKey relativePath : option string) (p : Process) :
  mmapID <> "" ->
  let key := mmapedKVKey (g_rootDir p) mmapID relativePath in
  g_instanceDic p !! key = None ->
  let r := mmkvWithID mmapID mode cryptKey relativePath p in
  fst r = Some key
  /\ (exists kv,
        g_instanceDic (snd r) = <[key := kv]> (g_instanceDic p)
        /\ m_mmapKey kv = key
        /\ m_mmapID kv = mmapID
        /\ m_path kv = mappedKVPathWithID (g_rootDir p) mmapID relativePath
        /\ m_crcPath kv = crcPathWithID (g_rootDir p) mmapID relativePath
        /\ m_isInterProcess kv = negb (Z.land mode MMKV_MULTI_PROCESS =? 0)
        /\ (is_Some (m_crypter kv) <-> is_Some (nonEmptyKey cryptKey)))
  /\ (forall other, other <> key ->
        g_instanceDic (snd r) !! other = g_instanceDic p !! other)
  /\ In (EvOpen (mappedKVPathWithID (g_rootDir p) mmapID relativePath)) (g_trace (snd r))
  /\ In (EvOpen (crcPathWithID (g_rootDir p) mmapID relativePath)) (g_trace (snd r)).
Proof.
  intros Hne key Hfresh r.
  destruct (mmkvWithID_fresh mmapID mode cryptKey relativePath p Hne Hfresh)
    as (Hkey & (kv & Hins & Hkv) & evs & Htrace).
  fold key in Hkey, Hins, Hkv. fold r in Hkey, Hins, Htrace.
  split; [exact Hkey|]. split; [|split; [|split]].
  - exists kv. split; assumption.
  - intros other Hother. rewrite Hins. now rewrite lookup_insert_ne by congruence.
  - rewrite Htrace, !in_app_iff. right. right. cbn. auto.
  - rewrite Htrace, !in_app_iff. right. right. cbn. auto.
Qed.

Lemma mmkvWithID_registers_witness :
  fst (mmkvWithID "settings" MMKV_MULTI_PROCESS (Some key16) None process0)
  = Some "settings"
  /\ In (EvOpen "/data/mmkv/settings.crc")
       (g_trace (snd (mmkvWithID "settings" MMKV_MULTI_PROCESS (Some key16) None process0))).
Proof.
  assert (Hne : "settings" <> "") by discriminate.
  assert (Hfresh : g_instanceDic process0
                     !! mmapedKVKey (g_rootDir process0) "settings" None = None)
    by (vm_compute; reflexivity).
  destruct (mmkvWithID_registers "settings" MMKV_MULTI_PROCESS (Some key16) None
              process0 Hne Hfresh) as (Hkey & _ & _ & _ & Hopen).
  split; [exact Hkey | exact Hopen].
Defined.

(** X5: asking for a registered id again.  The call answers the instance
    the registry holds, whatever mode and crypt key are passed this time;
    it only takes the lock and looks the key up: nothing is constructed, no
    file is opened, the registry and the disk stay as they are. *)
Theorem mmkvWithID_returns_registered (mmapID : string) (mode mode' : Z)
    (cryptKey cryptKey' relativePath : option string) (p : Process) :
  mmapID <> "" ->
  let key := mmapedKVKey (g_rootDir p) mmapID relativePath in
  let p1 := snd (mmkvWithID mmapID mode cryptKey relativePath p) in
  let r := mmkvWithID mmapID mode' cryptKey' relativePath p1 in
  is_Some (g_instanceDic p1 !! key)
  /\ fst r = Some key
  /\ g_instanceDic (snd r) = g_instanceDic p1
  /\ g_disk (snd r) = g_disk p1
  /\ g_trace (snd r) = g_trace p1 ++ [EvLock; EvFind key; EvUnlock].
Proof.
  intros Hne key p1 r.
  assert (Hp1 : is_Some (g_instanceDic p1 !! key) /\ g_rootDir p1 = g_rootDir p).
  { subst p1. unfold mmkvWithID.
    destruct (decide (mmapID = "")) as [->|_]; [congruence|].
    cbn [emit g_rootDir g_instanceDic]. fold key.
    destruct (g_instanceDic p !! key) as [kv|] eqn:Hfind.
    - cbn. rewrite Hfind. eauto.
    - pose proof (prepare_relativePath relativePath
                    (emit (EvFind key) (emit EvLock p))) as Hprep.
      cbn zeta in Hprep. cbn [emit g_rootDir g_instanceDic g_trace] in Hprep.
      set (p0 := match relativePath with Some _ => _ | None => _ end) in *.
      destruct Hprep as (_ & Hroot & _).
      pose proof (MMKV_new_process mmapID mode cryptKey relativePath p0) as Hnew.
      cbn zeta in Hnew.
      destruct (MMKV_new mmapID mode cryptKey relativePath p0) as [kv p2].
      cbn [fst snd] in *. destruct Hnew as (_ & Hroot2 & _).
      cbn [with_instanceDic g_instanceDic emit g_rootDir].
      rewrite lookup_insert_eq. split; [eauto | congruence]. }
  destruct Hp1 as [[kv Hkv] Hroot].
  split; [eauto|].
  subst r. unfold mmkvWithID.
  destruct (decide (mmapID = "")) as [->|_]; [congruence|].
  cbn [emit g_rootDir g_instanceDic]. rewrite Hroot. fold key. rewrite Hkv.
  cbn. rewrite <- !app_assoc. repeat split.
Qed.

Lemma mmkvWithID_returns_registered_witness :
  let p1 := snd (mmkvWithID "settings" MMKV_SINGLE_PROCESS None None process0) in
  fst (mmkvWithID "settings" MMKV_MULTI_PROCESS (Some key16) None p1) = Some "settings"
  /\ g_instanceDic (snd (mmkvWithID "settings" MMKV_MULTI_PROCESS (Some key16) None p1))
     = g_instanceDic p1.
Proof.
  assert (Hne : "settings" <> "") by discriminate.
  destruct (mmkvWithID_returns_registered "settings" MMKV_SINGLE_PROCESS
              MMKV_MULTI_PROCESS None (Some key16) None process0 Hne)
    as (_ & Hkey & Hdic & _).
  split; [exact Hkey | exact Hdic].
Defined.

(** X6: [close] takes the instance out of the registry: the entry under
    its key is gone, every other entry stays, the disk is not touched.
    Closing what [mmkvWithID] has just registered gives back the registry
    as it was before the open. *)
Theorem close_erases (s : MMKV) (p : Process) :
  g_instanceDic (close s p) = delete (m_mmapKey s) (g_instanceDic p)
  /\ g_instanceDic (close s p) !! m_mmapKey s = None
  /\ (forall other, other <> m_mmapKey s ->
        g_instanceDic (close s p) !! other = g_instanceDic p !! other)
  /\ g_disk (close s p) = g_disk p
  /\ g_trace (close s p) = g_trace p ++ [EvLock; EvFind (m_mmapKey s); EvUnlock]
  /\ (forall mmapID mode cryptKey relativePath kv,
        let key := mmapedKVKey (g_rootDir p) mmapID relativePath in
        let p1 := snd (mmkvWithID mmapID mode cryptKey relativePath p) in
        mmapID <> "" ->
        g_instanceDic p !! key = None ->
        g_instanceDic p1 !! key = Some kv ->
        m_mmapKey kv = key /\ g_instanceDic (close kv p1) = g_instanceDic p).
Proof.
  assert (Hdic : g_instanceDic (close s p) = delete (m_mmapKey s) (g_instanceDic p)).
  { unfold close. cbn [emit g_instanceDic].
    destruct (g_instanceDic p !! m_mmapKey s) eqn:Hfind; cbn; [reflexivity|].
    now rewrite delete_id. }
  assert (Hgen : forall s0 p0,
             g_instanceDic (close s0 p0) = delete (m_mmapKey s0) (g_instanceDic p0)).
  { intros s0 p0. unfold close. cbn [emit g_instanceDic].
    destruct (g_instanceDic p0 !! m_mmapKey s0) eqn:Hfind; cbn; [reflexivity|].
    now rewrite delete_id. }
  split; [exact Hdic|]. rewrite Hdic.
  split; [apply lookup_delete_eq|].
  split; [intros other Hother; now rewrite lookup_delete_ne by congruence|].
  split; [|split].
  - unfold close. cbn [emit g_instanceDic]. now destruct (g_instanceDic p !! _).
  - unfold close. cbn [emit g_instanceDic].
    destruct (g_instanceDic p !! _); cbn; now rewrite <- !app_assoc.
  - intros mmapID mode cryptKey relativePath kv key p1 Hne Hfresh Hkv.
    destruct (mmkvWithID_fresh mmapID mode cryptKey relativePath p Hne Hfresh)
      as (_ & (kv' & Hins & Hkey' & _) & _).
    fold p1 in Hins. rewrite Hins, lookup_insert_eq in Hkv.
    injection Hkv as <-. split; [exact Hkey'|].
    rewrite Hgen, Hins, Hkey'. fold key.
    now rewrite delete_insert_eq, delete_id.
Qed.

(** ** Sizes and raw copies *)

Lemma readInt32_writeData (body : list Z) :
  len body < 2 ^ 31 ->
  CodedInputData.readInt32 (CodedOutputData.writeData body) = Some (len body).
Proof.
  intros Hlen. unfold CodedInputData.readInt32, CodedInputData.readRawVarint32,
    CodedOutputData.writeData.
  fold (len body). rewrite readRawVarint_rawVarint32. cbn.
  rewrite int32_uint32, int32_of_signed; [reflexivity|].
  pose proof (len_nonneg body). lia.
Qed.

Lemma len_writeData (body : list Z) :
  len (CodedOutputData.writeData body) = pbRawVarint32Size (len body) + len body.
Proof.
  unfold CodedOutputData.writeData. fold (len body). rewrite len_app. reflexivity.
Qed.

Lemma getValueSize_stored (h : option ErrorHandler) (key : string) (s s0 : MMKV)
    (data : list Z) :
  isKeyEmpty key = false ->
  getDataForKey h key s = (data, s0) ->
  getValueSize h key false s = (len data, s0)
  /\ snd (getValueSize h key true s) = s0
  /\ (forall body,
        data = CodedOutputData.writeData body -> len body < 2 ^ 31 ->
        getValueSize h key true s = (len body, s0)).
Proof.
  intros Hempty Hget. unfold getValueSize. rewrite Hempty, Hget.
  split; [reflexivity|]. split; [case_matches; reflexivity|].
  intros body -> Hbody.
  rewrite (readInt32_writeData body Hbody).
  pose proof (len_nonneg body) as Hb.
  destruct (Z.leb_spec 0 (len body)); [|lia].
  now rewrite len_writeData, Z.eqb_refl.
Qed.

(** X7: what [getValueSize] reports for a stored value.  The stored size
    is the length of the value bytes.  The actual size is the length of the
    body whenever the value bytes read as a length prefix followed by
    exactly that many bytes, whatever type they were stored as; it is never
    negative and never more than the stored size; an absent key has size 0
    either way.  The call changes the instance no more than a read does. *)
Theorem getValueSize_spec (h : option ErrorHandler) (key : string) (s : MMKV) :
  key <> "" ->
  let data := fst (getDataForKey h key s) in
  let s0 := snd (getDataForKey h key s) in
  getValueSize h key false s = (len data, s0)
  /\ snd (getValueSize h key true s) = s0
  /\ (forall body,
        data = CodedOutputData.writeData body -> len body < 2 ^ 31 ->
        fst (getValueSize h key true s) = len body)
  /\ 0 <= fst (getValueSize h key true s) <= len data
  /\ (data = [] -> forall actualSize, fst (getValueSize h key actualSize s) = 0).
Proof.
  intros Hkey data s0.
  assert (Hempty : isKeyEmpty key = false) by (destruct key; [congruence | reflexivity]).
  unfold getValueSize. rewrite Hempty.
  destruct (getDataForKey h key s) as [d s1] eqn:Hget.
  cbn [fst snd] in data, s0. subst data s0.
  pose proof (len_nonneg d) as Hd.
  split; [reflexivity|]. split; [|split; [|split]].
  - case_matches; reflexivity.
  - intros body -> Hbody.
    rewrite (readInt32_writeData body Hbody).
    pose proof (len_nonneg body) as Hb.
    destruct (Z.leb_spec 0 (len body)); [|lia].
    rewrite len_writeData, Z.eqb_refl. reflexivity.
  - destruct (CodedInputData.readInt32 d) as [n|]; cbn [fst]; [|lia].
    destruct (Z.leb_spec 0 n); cbn [fst]; [|lia].
    destruct (Z.eqb_spec (pbRawVarint32Size n + n) (len d)); cbn [fst]; [|lia].
    pose proof (pbRawVarint32Size_pos n). lia.
  - intros -> actualSize. destruct actualSize; reflexivity.
Qed.

Lemma getValueSize_spec_witness :
  getValueSize None "a" false store1 = (1, store1)
  /\ fst (getValueSize None "nokey" true store1) = 0.
Proof.
  assert (Ha : "a" <> "") by discriminate.
  assert (Hn : "nokey" <> "") by discriminate.
  assert (Hlen : len (fst (getDataForKey None "a" store1)) = 1)
    by (vm_compute; reflexivity).
  assert (Hstate : snd (getDataForKey None "a" store1) = store1)
    by (vm_compute; reflexivity).
  assert (Hnone : fst (getDataForKey None "nokey" store1) = [])
    by (vm_compute; reflexivity).
  destruct (getValueSize_spec None "a" store1 Ha) as [Hstored _].
  destruct (getValueSize_spec None "nokey" store1 Hn) as (_ & _ & _ & _ & Hzero).
  rewrite Hlen, Hstate in Hstored.
  split; [exact Hstored | exact (Hzero Hnone true)].
Defined.

(** X8: the sizes of what [set] has just stored.  After a string or a
    byte buffer of [n] bytes is stored, the actual size is [n] and the
    stored size is [n] plus the length prefix; after a scalar is stored the
    stored size is the size of its encoding.  The actual size of a stored
    [int32] is the size of its encoding too, except for 0, whose single
    zero byte reads as an empty body and gives 0. *)
Theorem getValueSize_after_set (h : option ErrorHandler) (iv : Z -> list Z)
    (key : string) (s s' : MMKV) :
  0 <= m_actualSize s ->
  (forall v, len v < 2 ^ 31 ->
     set_bytes h iv v key s = (true, s') ->
     getValueSize h key true s' = (len v, s')
     /\ getValueSize h key false s' = (pbRawVarint32Size (len v) + len v, s'))
  /\ (forall v, len (bytes_of_string v) < 2 ^ 31 ->
        set_string h iv v key s = (true, s') ->
        getValueSize h key true s' = (len (bytes_of_string v), s')
        /\ getValueSize h key false s'
           = (pbRawVarint32Size (len (bytes_of_string v)) + len (bytes_of_string v), s'))
  /\ (forall v, - 2 ^ 31 <= v < 2 ^ 31 ->
        set_int32 h iv v key s = (true, s') ->
        getValueSize h key false s' = (pbInt32Size v, s')
        /\ getValueSize h key true s' = ((if v =? 0 then 0 else pbInt32Size v), s'))
  /\ (forall v, set_double h iv v key s = (true, s') ->
        getValueSize h key false s' = (pbDoubleSize, s')).
Proof.
  intros Hsize.
  assert (Hholder : forall v, len v < 2 ^ 31 ->
            setDataForKey h iv v key true s = (true, s') ->
            getValueSize h key true s' = (len v, s')
            /\ getValueSize h key false s' = (pbRawVarint32Size (len v) + len v, s')).
  { intros v Hv Hset.
    destruct (getDataForKey_after_setDataForKey h iv v key true s s' Hsize Hset
                (writeData_nonempty v)) as [Hempty Hget].
    destruct (getValueSize_stored h key s' s' _ Hempty Hget) as (Hstored & _ & Hactual).
    split; [exact (Hactual v eq_refl Hv) | now rewrite Hstored, len_writeData]. }
  assert (Hscalar : forall data, data <> [] ->
            setDataForKey h iv data key false s = (true, s') ->
            getValueSize h key false s' = (len data, s')).
  { intros data Hne Hset.
    destruct (getDataForKey_after_setDataForKey h iv data key false s s' Hsize Hset Hne)
      as [Hempty Hget].
    now destruct (getValueSize_stored h key s' s' _ Hempty Hget). }
  split; [|split; [|split]].
  - intros v Hv Hset. unfold set_bytes in Hset.
    destruct (isKeyEmpty key); [discriminate|]. now apply Hholder.
  - intros v Hv Hset. unfold set_string in Hset.
    destruct (isKeyEmpty key); [discriminate|]. now apply Hholder.
  - intros v Hv Hset. unfold set_int32 in Hset.
    destruct (isKeyEmpty key); [discriminate|]. cbn zeta in Hset.
    assert (Hpos : 0 < pbInt32Size v).
    { unfold pbInt32Size. destruct (0 <=? v); [apply pbRawVarint32Size_pos | lia]. }
    split.
    + rewrite (Hscalar _ (into_nonempty _ _ Hpos) Hset).
      now rewrite len_into by lia.
    + destruct (getDataForKey_after_setDataForKey h iv _ key false s s' Hsize Hset
                  (into_nonempty _ _ Hpos)) as [Hempty Hget].
      unfold getValueSize. rewrite Hempty, Hget, (read_write_int32 v Hv).
      rewrite len_into by lia. unfold pbInt32Size in *.
      pose proof (pbRawVarint32Size_pos v).
      destruct (Z.leb_spec 0 v).
      * destruct (Z.eqb_spec (pbRawVarint32Size v + v) (pbRawVarint32Size v)),
          (Z.eqb_spec v 0); try lia; [subst v|]; reflexivity.
      * destruct (Z.eqb_spec v 0); [lia | reflexivity].
  - intros v Hset. unfold set_double in Hset.
    destruct (isKeyEmpty key); [discriminate|]. cbn zeta in Hset.
    assert (Hpos : 0 < pbDoubleSize) by reflexivity.
    rewrite (Hscalar _ (into_nonempty _ _ Hpos) Hset).
    now rewrite len_into by lia.
Qed.

Lemma blit_front (bytes ptr : list Z) :
  (length bytes <= length ptr)%nat ->
  blit 0 bytes ptr = bytes ++ skipn (length bytes) ptr.
Proof.
  intros Hle. unfold blit. cbn [Z.to_nat firstn app Nat.add].
  apply firstn_all2. lens.
Qed.

Lemma slice_suffix (a b : list Z) : slice (len a) (len b) (a ++ b) = b.
Proof.
  unfold slice, len. rewrite !Nat2Z.id.
  rewrite skipn_app, skipn_all, Nat.sub_diag. cbn [app skipn].
  apply firstn_all.
Qed.

Lemma len_slice_exact (off n : Z) (data : list Z) :
  0 <= off -> 0 <= n -> off + n = len data -> len (slice off n data) = n.
Proof. unfold slice, len. intros. lens. Qed.

(** X9: [writeValueToBuffer] stays inside the caller's buffer.  For a
    buffer of at least [size] bytes the answer is -1 with the buffer
    untouched, or a count between 0 and [size] with exactly that many bytes
    written at the front and every byte behind them as it was; a count that
    is answered is the actual size [getValueSize] reports.  A key with no
    value answers -1. *)
Theorem writeValueToBuffer_bounds (h : option ErrorHandler) (key : string)
    (ptr : list Z) (size : Z) (s : MMKV) :
  size < 2 ^ 31 ->
  size <= len ptr ->
  let r := writeValueToBuffer h key ptr size s in
  let n := fst (fst r) in
  let out := snd (fst r) in
  ((n = -1 /\ out = ptr)
   \/ (0 <= n <= size
       /\ len out = len ptr
       /\ skipn (Z.to_nat n) out = skipn (Z.to_nat n) ptr
       /\ n = fst (getValueSize h key true s)))
  /\ (fst (getDataForKey h key s) = [] -> n = -1 /\ out = ptr).
Proof.
  intros Hint Hbuf r n out. subst n out r. unfold writeValueToBuffer, getValueSize.
  destruct (isKeyEmpty key || (size <? 0)) eqn:Hguard; [split; auto|].
  apply orb_false_elim in Hguard as [Hkey Hneg]. apply Z.ltb_ge in Hneg.
  rewrite Hkey.
  destruct (getDataForKey h key s) as [data s1]. cbn [fst].
  pose proof (len_nonneg data) as Hdata.
  split.
  - destruct (CodedInputData.readInt32 data) as [length|]; [|auto].
    destruct (Z.leb_spec 0 length); [|auto].
    destruct (Z.eqb_spec (pbRawVarint32Size length + length) (len data)).
    + destruct (Z.leb_spec length size); [|auto]. right. cbn [fst snd].
      pose proof (pbRawVarint32Size_pos length).
      assert (Hcopy : len (slice (pbRawVarint32Size length) length data) = length)
        by (apply len_slice_exact; lia).
      assert (Hfit : (Datatypes.length (slice (pbRawVarint32Size length) length data)
                      <= Datatypes.length ptr)%nat) by (unfold len in *; lia).
      rewrite (blit_front _ _ Hfit).
      split; [lia|]. split; [unfold len in *; lens|]. split; [|reflexivity].
      replace (Z.to_nat length)
        with (Datatypes.length (slice (pbRawVarint32Size length) length data))
        by (unfold len in Hcopy; lia).
      now rewrite skipn_app, skipn_all, Nat.sub_diag.
    + destruct (Z.leb_spec (len data) size); [|auto]. right. cbn [fst snd].
      assert (Hval : int32 (len data) = len data) by (apply int32_of_signed; lia).
      assert (Hfit : (Datatypes.length data <= Datatypes.length ptr)%nat)
        by (unfold len in *; lia).
      rewrite Hval, (blit_front _ _ Hfit).
      split; [lia|]. split; [unfold len in *; lens|]. split; [|reflexivity].
      replace (Z.to_nat (len data)) with (Datatypes.length data) by (unfold len; lia).
      now rewrite skipn_app, skipn_all, Nat.sub_diag.
  - intros ->. cbn. auto.
Qed.

Lemma writeValueToBuffer_bounds_witness :
  fst (fst (writeValueToBuffer None "nokey" [7; 7; 7; 7] 4 store1)) = -1
  /\ snd (fst (writeValueToBuffer None "nokey" [7; 7; 7; 7] 4 store1)) = [7; 7; 7; 7].
Proof.
  assert (Hnone : fst (getDataForKey None "nokey" store1) = [])
    by (vm_compute; reflexivity).
  assert (Hint : 4 < 2 ^ 31) by lia.
  assert (Hbuf : 4 <= len [7; 7; 7; 7]) by (vm_compute; discriminate).
  destruct (writeValueToBuffer_bounds None "nokey" [7; 7; 7; 7] 4 store1 Hint Hbuf)
    as [_ Habsent].
  exact (Habsent Hnone).
Defined.

(** X10: copying out what [set] has just stored.  After a byte buffer
    [v] is stored under a key, [writeValueToBuffer] with room for it
    answers its length and puts exactly [v] at the front of the caller's
    buffer; with less room it answers -1 and writes nothing. *)
Theorem writeValueToBuffer_after_set (h : option ErrorHandler) (iv : Z -> list Z)
    (key : string) (v : list Z) (s s' : MMKV) :
  0 <= m_actualSize s ->
  len v < 2 ^ 31 ->
  set_bytes h iv v key s = (true, s') ->
  forall ptr size,
    (len v <= size -> size <= len ptr ->
       writeValueToBuffer h key ptr size s'
       = (len v, v ++ skipn (length v) ptr, s'))
    /\ (0 <= size < len v -> writeValueToBuffer h key ptr size s' = (-1, ptr, s')).
Proof.
  intros Hsize Hv Hset ptr size. unfold set_bytes in Hset.
  destruct (isKeyEmpty key) eqn:Hempty; [discriminate|].
  destruct (getDataForKey_after_setDataForKey h iv v key true s s' Hsize Hset
              (writeData_nonempty v)) as [_ Hget].
  pose proof (len_nonneg v) as Hnn.
  unfold writeValueToBuffer. rewrite Hempty, Hget. cbn [orb].
  rewrite (readInt32_writeData v Hv), len_writeData, Z.eqb_refl.
  destruct (Z.leb_spec 0 (len v)); [|lia].
  split.
  - intros Hroom Hbuf.
    destruct (Z.ltb_spec size 0); [lia|].
    destruct (Z.leb_spec (len v) size); [|lia].
    unfold CodedOutputData.writeData, pbRawVarint32Size.
    fold (len v). fold (len (rawVarint32 (len v))).
    rewrite slice_suffix, blit_front by (unfold len in *; lia). reflexivity.
  - intros [Hlo Hhi].
    destruct (Z.ltb_spec size 0); [lia|].
    destruct (Z.leb_spec (len v) size); [lia|]. reflexivity.
Qed.

Lemma writeValueToBuffer_after_set_witness :
  writeValueToBuffer None "k" [7; 7; 7; 7] 3
    (snd (set_bytes None noIV [1; 2] "k" store0))
  = (len [1; 2], [1; 2] ++ skipn (length [1; 2]) [7; 7; 7; 7],
     snd (set_bytes None noIV [1; 2] "k" store0)).
Proof.
  assert (Hsize : m_actualSize store0 = 0) by (vm_compute; reflexivity).
  assert (Hset : set_bytes None noIV [1; 2] "k" store0
                 = (true, snd (set_bytes None noIV [1; 2] "k" store0)))
    by (vm_compute; reflexivity).
  assert (Hv : len [1; 2] < 2 ^ 31) by (vm_compute; reflexivity).
  assert (Hroom : len [1; 2] <= 3) by (vm_compute; discriminate).
  assert (Hbuf : 3 <= len [7; 7; 7; 7]) by (vm_compute; discriminate).
  destruct (writeValueToBuffer_after_set None noIV "k" [1; 2] store0
              (snd (set_bytes None noIV [1; 2] "k" store0))
              ltac:(lia) Hv Hset [7; 7; 7; 7] 3) as [Hcopy _].
  exact (Hcopy Hroom Hbuf).
Defined.

Lemma getValueSize_after_set_witness :
  getValueSize None "msg" true crypt1 = (len (bytes_of_string "hello"), crypt1).
Proof.
  assert (Hsize : m_actualSize crypt0 = 0) by (vm_compute; reflexivity).
  assert (Hset : set_string None noIV "hello" "msg" crypt0 = (true, crypt1))
    by (vm_compute; reflexivity).
  assert (Hlen : len (bytes_of_string "hello") < 2 ^ 31) by (vm_compute; reflexivity).
  destruct (getValueSize_after_set None noIV "msg" crypt0 crypt1 ltac:(lia))
    as (_ & Hstr & _).
  destruct (Hstr "hello" Hlen Hset) as [Hactual _]. exact Hactual.
Defined.

(** ** Enumeration *)

Lemma keys_of_map {V : Type} (dic : gmap string V) (key : string) :
  key ∈ (map_to_list dic).*1 <-> is_Some (dic !! key).
Proof.
  rewrite list_elem_of_fmap. split.
  - intros [[k v] [-> Hin]]. apply elem_of_map_to_list in Hin. cbn. eauto.
  - intros [v Hv]. exists (key, v). split; [reflexivity|].
    now apply elem_of_map_to_list.
Qed.

Lemma liveKeys_NoDup (s : MMKV) : NoDup (liveKeys s).
Proof. unfold liveKeys. destruct (m_crypter s); apply NoDup_fst_map_to_list. Qed.

Lemma liveKeys_contains (s : MMKV) (key : string) :
  contains s key = bool_decide (key ∈ liveKeys s).
Proof.
  unfold liveKeys, contains.
  destruct (m_crypter s); apply bool_decide_ext; symmetry; apply keys_of_map.
Qed.

Lemma liveKeys_length (s : MMKV) :
  Z.of_nat (length (liveKeys s))
  = match m_crypter s with
    | Some _ => Z.of_nat (size (m_dicCrypt s))
    | None => Z.of_nat (size (m_dic s))
    end.
Proof.
  unfold liveKeys.
  destruct (m_crypter s); now rewrite length_fmap, length_map_to_list.
Qed.

(** What the three calls answer where the dictionary in use exists. *)
Lemma enumeration_keys (h : option ErrorHandler) (s : MMKV) :
  let s0 := checkLoadData h s in
  dictionaryInUse s0 = true ->
  allKeys h s = Some (liveKeys s0, s0)
  /\ count h s = Some (Z.of_nat (length (liveKeys s0)), s0)
  /\ (forall key, containsKey h key s = Some (contains s0 key, s0)).
Proof.
  intros s0 Hdic. rewrite liveKeys_length.
  unfold allKeys, count, containsKey, liveKeys, contains. fold s0.
  unfold dictionaryInUse in Hdic.
  destruct (m_crypter s0); rewrite Hdic; repeat split.
Qed.

(** And where it was never made: each of them dereferences the null
    pointer. *)
Lemma enumeration_null (h : option ErrorHandler) (s : MMKV) :
  dictionaryInUse (checkLoadData h s) = false ->
  allKeys h s = None
  /\ count h s = None
  /\ (forall key, containsKey h key s = None).
Proof.
  intros Hdic. unfold allKeys, count, containsKey.
  unfold dictionaryInUse in Hdic.
  destruct (m_crypter (checkLoadData h s)); rewrite Hdic; repeat split.
Qed.

(** X11: the three enumeration calls agree.  Where the dictionary in use
    exists after the freshness check, they leave the same state behind,
    [allKeys] lists no key twice, [count] is the number of keys listed, and
    [containsKey] answers [true] exactly for the listed keys.  Where it was
    never made (a crypter attached to an instance that was opened without
    one, or taken from one opened with one), none of the three has an
    outcome: each dereferences the null pointer. *)
Theorem enumeration_agrees (h : option ErrorHandler) (s : MMKV) :
  let s0 := checkLoadData h s in
  (dictionaryInUse s0 = true ->
   exists keys,
     allKeys h s = Some (keys, s0)
     /\ NoDup keys
     /\ count h s = Some (Z.of_nat (length keys), s0)
     /\ (forall key, containsKey h key s = Some (bool_decide (key ∈ keys), s0)))
  /\ (dictionaryInUse s0 = false ->
      allKeys h s = None
      /\ count h s = None
      /\ (forall key, containsKey h key s = None)).
Proof.
  intros s0. split; [|apply enumeration_null].
  intros Hdic. destruct (enumeration_keys h s Hdic) as (Hall & Hcount & Hhas).
  exists (liveKeys s0). fold s0 in Hall, Hcount, Hhas.
  split; [exact Hall|]. split; [apply liveKeys_NoDup|]. split; [exact Hcount|].
  intros key. now rewrite Hhas, liveKeys_contains.
Qed.

(** Both cases are met: [store2] holds two keys, and [attached] has a
    crypter but no crypt dictionary. *)
Lemma enumeration_agrees_witness :
  (exists keys,
     allKeys None store2 = Some (keys, checkLoadData None store2)
     /\ NoDup keys
     /\ count None store2 = Some (Z.of_nat (length keys), checkLoadData None store2)
     /\ (forall key,
           containsKey None key store2
           = Some (bool_decide (key ∈ keys), checkLoadData None store2)))
  /\ (allKeys None attached = None
      /\ count None attached = None
      /\ (forall key, containsKey None key attached = None)).
Proof.
  assert (H2 : dictionaryInUse (checkLoadData None store2) = true)
    by (vm_compute; reflexivity).
  assert (Ha : dictionaryInUse (checkLoadData None attached) = false)
    by (vm_compute; reflexivity).
  split.
  - exact (proj1 (enumeration_agrees None store2) H2).
  - exact (proj2 (enumeration_agrees None attached) Ha).
Defined.

(** ** Lists of strings *)

Lemma readData_writeData_app (item rest : list Z) :
  len item < 2 ^ 31 ->
  CodedInputData.readData (CodedOutputData.writeData item ++ rest) = Some item.
Proof.
  intros Hlen. pose proof (len_nonneg item) as Hnn.
  unfold CodedInputData.readData, CodedInputData.readRawVarint32,
    CodedOutputData.writeData.
  fold (len item). rewrite <- app_assoc, readRawVarint_rawVarint32.
  rewrite int32_uint32, int32_of_signed by lia.
  destruct (Z.leb_spec 0 (len item)); [|lia].
  rewrite length_app.
  destruct (Z.leb_spec (len item) (Z.of_nat (length item + length rest)));
    [|unfold len in *; lia].
  cbn [andb]. unfold len. rewrite Nat2Z.id.
  now rewrite firstn_app, firstn_all, Nat.sub_diag, firstn_0, app_nil_r.
Qed.

Lemma decodeItems_encoded (v : list string) :
  forall fuel,
    (length (flat_map (fun x => CodedOutputData.writeData (bytes_of_string x)) v)
     <= fuel)%nat ->
    len (flat_map (fun x => CodedOutputData.writeData (bytes_of_string x)) v) < 2 ^ 31 ->
    decodeItems fuel (flat_map (fun x => CodedOutputData.writeData (bytes_of_string x)) v)
    = Some v.
Proof.
  induction v as [|x v IH]; intros fuel Hfuel Hlen.
  - destruct fuel; reflexivity.
  - cbn [flat_map] in *.
    set (item := bytes_of_string x) in *.
    set (rest := flat_map (fun x => CodedOutputData.writeData (bytes_of_string x)) v) in *.
    pose proof (len_writeData item) as Hw.
    pose proof (pbRawVarint32Size_pos (len item)) as Hpos.
    pose proof (len_nonneg item) as Hnn.
    pose proof (len_nonneg rest) as Hnr.
    rewrite len_app in Hlen.
    assert (Hitem : len item < 2 ^ 31) by lia.
    destruct (CodedOutputData.writeData item ++ rest) as [|b tail] eqn:Hbuf.
    { apply (f_equal len) in Hbuf. rewrite len_app in Hbuf.
      change (len []) with 0 in Hbuf. lia. }
    destruct fuel as [|fuel].
    { apply (f_equal (@length Z)) in Hbuf. cbn [length] in *. lia. }
    cbn [decodeItems]. rewrite <- Hbuf.
    rewrite (readData_writeData_app item rest Hitem).
    replace (Z.to_nat (pbRawVarint32Size (len item)) + length item)%nat
      with (length (CodedOutputData.writeData item)) by (unfold len in *; lia).
    rewrite skipn_app, skipn_all, Nat.sub_diag. cbn [app skipn].
    rewrite IH.
    + cbn. subst item. now rewrite string_of_bytes_of_string.
    + apply (f_equal (@length Z)) in Hbuf. rewrite length_app in Hbuf.
      cbn [length] in *. unfold len in *. lia.
    + lia.
Qed.

Lemma decodeVector_encodeVector (v : list string) :
  len (encodeVector v) < 2 ^ 31 -> decodeVector (encodeVector v) = Some v.
Proof.
  intros Hlen. unfold decodeVector, encodeVector in *.
  set (body := flat_map (fun x => CodedOutputData.writeData (bytes_of_string x)) v) in *.
  rewrite len_writeData in Hlen.
  pose proof (pbRawVarint32Size_pos (len body)) as Hpos.
  assert (Hbody : len body < 2 ^ 31) by lia.
  rewrite <- (app_nil_r (CodedOutputData.writeData body)).
  rewrite (readData_writeData_app body [] Hbody).
  apply decodeItems_encoded; [apply Nat.le_refl | exact Hbody].
Qed.

(** X12: a list of strings comes back as it was stored.  When [set]
    with a list of strings succeeds, [getVector] on the same key answers
    [true] with the same list, the empty list included. *)
Theorem vector_round_trip (h : option ErrorHandler) (iv : Z -> list Z)
    (key : string) (v result : list string) (s s' : MMKV) :
  0 <= m_actualSize s ->
  len (encodeVector v) < 2 ^ 31 ->
  set_vector h iv v key s = (true, s') ->
  getVector h key result s' = (true, v, s').
Proof.
  intros Hsize Hlen Hset. unfold set_vector in Hset.
  destruct (isKeyEmpty key) eqn:Hempty; [discriminate|]. cbn zeta in Hset.
  assert (Hne : encodeVector v <> []) by apply writeData_nonempty.
  destruct (getDataForKey_after_setDataForKey h iv (encodeVector v) key false s s'
              Hsize Hset Hne) as [_ Hget].
  unfold getVector. rewrite Hempty, Hget.
  rewrite (len_pos_of_nonempty _ Hne).
  now rewrite (decodeVector_encodeVector v Hlen).
Qed.

Lemma vector_round_trip_witness :
  getVector None "names" ["old"]
    (snd (set_vector None noIV ["ab"; ""; "c"] "names" store1))
  = (true, ["ab"; ""; "c"], snd (set_vector None noIV ["ab"; ""; "c"] "names" store1)).
Proof.
  assert (Hsize : m_actualSize store1 = 4) by (vm_compute; reflexivity).
  assert (Hlen : len (encodeVector ["ab"; ""; "c"]) < 2 ^ 31) by (vm_compute; reflexivity).
  assert (Hset : set_vector None noIV ["ab"; ""; "c"] "names" store1
                 = (true, snd (set_vector None noIV ["ab"; ""; "c"] "names" store1)))
    by (vm_compute; reflexivity).
  exact (vector_round_trip None noIV "names" ["ab"; ""; "c"] ["old"] store1 _
           ltac:(lia) Hlen Hset).
Defined.

(** ** Reading an integer at another width *)

Lemma readers_of_raw (data : list Z) (raw : Z) :
  fst <$> CodedInputData.readRawVarint 10 data = Some raw ->
  CodedInputData.readInt32 data = Some (int32 raw)
  /\ CodedInputData.readUInt32 data = Some (uint32 raw)
  /\ CodedInputData.readInt64 data = Some (int64 raw)
  /\ CodedInputData.readUInt64 data = Some (uint64 raw)
  /\ CodedInputData.readBool data = Some (negb (int32 raw =? 0)).
Proof.
  unfold CodedInputData.readInt32, CodedInputData.readUInt32, CodedInputData.readInt64,
    CodedInputData.readUInt64, CodedInputData.readBool,
    CodedInputData.readRawVarint32, CodedInputData.readRawVarint64.
  destruct (CodedInputData.readRawVarint 10 data) as [[u rest]|]; [|discriminate].
  cbn. intros [= ->]. now rewrite uint32_int32, uint64_int64.
Qed.

Lemma raw_of_varint32 (v size : Z) :
  len (rawVarint32 v) <= size ->
  fst <$> CodedInputData.readRawVarint 10 (CodedOutputData.into size (rawVarint32 v))
  = Some (uint32 v).
Proof.
  intros Hfit. destruct (into_prefix size _ Hfit) as [pad ->].
  now rewrite readRawVarint_rawVarint32.
Qed.

Lemma raw_of_varint64 (v size : Z) :
  len (rawVarint64 v) <= size ->
  fst <$> CodedInputData.readRawVarint 10 (CodedOutputData.into size (rawVarint64 v))
  = Some (uint64 v).
Proof.
  intros Hfit. destruct (into_prefix size _ Hfit) as [pad ->].
  now rewrite readRawVarint_rawVarint64.
Qed.

Lemma raw_of_int32 (v : Z) :
  fst <$> CodedInputData.readRawVarint 10
            (CodedOutputData.into (pbInt32Size v) (CodedOutputData.writeInt32 v))
  = Some (if 0 <=? v then uint32 v else uint64 v).
Proof.
  unfold pbInt32Size, CodedOutputData.writeInt32. destruct (0 <=? v).
  - apply raw_of_varint32. reflexivity.
  - apply raw_of_varint64, rawVarint64_fits.
Qed.

(** X13: integers read at another width.  What [set] stored as an
    [int32] reads back unchanged as an [int64], modulo 2^32 as a
    [uint32], and as the truth of "not zero" as a [bool]; an [int64] read as
    an [int32] is cut to its low 32 bits; a [uint32] reads back unchanged as
    an [int64]; a [bool] reads back as 0 or 1. *)
Theorem integer_reads_across_widths (h : option ErrorHandler) (iv : Z -> list Z)
    (key : string) (s s' : MMKV) :
  0 <= m_actualSize s ->
  (forall v, - 2 ^ 31 <= v < 2 ^ 31 ->
     set_int32 h iv v key s = (true, s') ->
     (forall d, getInt64 h key d s' = (v, s'))
     /\ (forall d, getUInt32 h key d s' = (uint32 v, s'))
     /\ (forall d, getBool h key d s' = (negb (v =? 0), s')))
  /\ (forall v, - 2 ^ 63 <= v < 2 ^ 63 ->
        set_int64 h iv v key s = (true, s') ->
        forall d, getInt32 h key d s' = (int32 v, s'))
  /\ (forall v, 0 <= v < 2 ^ 32 ->
        set_uint32 h iv v key s = (true, s') ->
        (forall d, getInt64 h key d s' = (v, s'))
        /\ (forall d, getInt32 h key d s' = (int32 v, s')))
  /\ (forall v, set_bool h iv v key s = (true, s') ->
        forall d, getInt32 h key d s' = ((if v then 1 else 0), s')).
Proof.
  intros Hsize.
  assert (Hread : forall data raw,
            fst <$> CodedInputData.readRawVarint 10 data = Some raw ->
            setDataForKey h iv data key false s = (true, s') ->
            (forall d, getInt32 h key d s' = (int32 raw, s'))
            /\ (forall d, getUInt32 h key d s' = (uint32 raw, s'))
            /\ (forall d, getInt64 h key d s' = (int64 raw, s'))
            /\ (forall d, getBool h key d s' = (negb (int32 raw =? 0), s'))).
  { intros data raw Hraw Hset.
    destruct (readers_of_raw data raw Hraw) as (H32 & HU32 & H64 & _ & HB).
    repeat split; intros d.
    - exact (getScalar_after_set _ h iv data key _ d s s' eq_refl H32 Hsize Hset).
    - exact (getScalar_after_set _ h iv data key _ d s s' eq_refl HU32 Hsize Hset).
    - exact (getScalar_after_set _ h iv data key _ d s s' eq_refl H64 Hsize Hset).
    - exact (getScalar_after_set _ h iv data key _ d s s' eq_refl HB Hsize Hset). }
  split; [|split; [|split]].
  - intros v Hv Hset. unfold set_int32 in Hset.
    destruct (isKeyEmpty key); [discriminate|]. cbn zeta in Hset.
    destruct (Hread _ _ (raw_of_int32 v) Hset) as (_ & HU32 & H64 & HB).
    assert (Hi64 : int64 (if 0 <=? v then uint32 v else uint64 v) = v).
    { destruct (Z.leb_spec 0 v).
      - unfold uint32. rewrite Z.mod_small by lia. apply int64_of_signed. lia.
      - rewrite int64_uint64. apply int64_of_signed. lia. }
    assert (Hu32 : uint32 (if 0 <=? v then uint32 v else uint64 v) = uint32 v).
    { destruct (Z.leb_spec 0 v).
      - unfold uint32. now rewrite Z.mod_mod by lia.
      - rewrite <- uint32_int32, int32_uint64, uint32_int32. reflexivity. }
    assert (Hi32 : int32 (if 0 <=? v then uint32 v else uint64 v) = v).
    { destruct (Z.leb_spec 0 v).
      - rewrite int32_uint32. apply int32_of_signed. lia.
      - rewrite int32_uint64. apply int32_of_signed. lia. }
    rewrite Hi64 in H64. rewrite Hu32 in HU32. rewrite Hi32 in HB.
    repeat split; assumption.
  - intros v Hv Hset. unfold set_int64 in Hset.
    destruct (isKeyEmpty key); [discriminate|]. cbn zeta in Hset.
    assert (Hraw : fst <$> CodedInputData.readRawVarint 10
                     (CodedOutputData.into (pbInt64Size v) (CodedOutputData.writeInt64 v))
                   = Some (uint64 v)) by (apply raw_of_varint64; reflexivity).
    destruct (Hread _ _ Hraw Hset) as (H32 & _).
    intros d. rewrite H32. now rewrite int32_uint64.
  - intros v Hv Hset. unfold set_uint32 in Hset.
    destruct (isKeyEmpty key); [discriminate|]. cbn zeta in Hset.
    assert (Hraw : fst <$> CodedInputData.readRawVarint 10
                     (CodedOutputData.into (pbUInt32Size v) (CodedOutputData.writeUInt32 v))
                   = Some (uint32 v)) by (apply raw_of_varint32; reflexivity).
    destruct (Hread _ _ Hraw Hset) as (H32 & _ & H64 & _).
    split; intros d.
    + rewrite H64. unfold uint32. rewrite Z.mod_small by lia.
      now rewrite int64_of_signed by lia.
    + rewrite H32. now rewrite int32_uint32.
  - intros v Hset. unfold set_bool in Hset.
    destruct (isKeyEmpty key); [discriminate|]. cbn zeta in Hset.
    assert (Hraw : fst <$> CodedInputData.readRawVarint 10
                     (CodedOutputData.into pbBoolSize (CodedOutputData.writeBool v))
                   = Some (if v then 1 else 0)) by (destruct v; reflexivity).
    destruct (Hread _ _ Hraw Hset) as (H32 & _).
    intros d. rewrite H32. now destruct v.
Qed.

Lemma integer_reads_across_widths_witness :
  getInt64 None "b" 7 store2 = (-2, store2)
  /\ getUInt32 None "b" 7 store2 = (uint32 (-2), store2).
Proof.
  assert (Hs1 : m_actualSize store1 = 4) by (vm_compute; reflexivity).
  assert (Hset1 : set_int32 None noIV (-2) "b" store1 = (true, store2))
    by (vm_compute; reflexivity).
  destruct (integer_reads_across_widths None noIV "b" store1 store2 ltac:(lia))
    as (Hint & _).
  destruct (Hint (-2) ltac:(lia) Hset1) as (H64 & HU32 & _).
  split; [exact (H64 7) | exact (HU32 7)].
Defined.

(** ** The running digest *)

Lemma lxor_below (a b : Z) (n : Z) :
  0 <= n -> 0 <= a < 2 ^ n -> 0 <= b < 2 ^ n -> 0 <= Z.lxor a b < 2 ^ n.
Proof.
  intros Hn Ha Hb.
  assert (Hnn : 0 <= Z.lxor a b) by (apply Z.lxor_nonneg; lia).
  split; [exact Hnn|].
  destruct (Z.eq_dec (Z.lxor a b) 0) as [->|Hz]; [apply Z.pow_pos_nonneg; lia|].
  apply Z.log2_lt_pow2; [lia|].
  pose proof (Z.log2_lxor a b ltac:(lia) ltac:(lia)) as Hlog.
  assert (Hla : a = 0 \/ Z.log2 a < n)
    by (destruct (Z.eq_dec a 0); [auto | right; apply Z.log2_lt_pow2; lia]).
  assert (Hlb : b = 0 \/ Z.log2 b < n)
    by (destruct (Z.eq_dec b 0); [auto | right; apply Z.log2_lt_pow2; lia]).
  assert (Hpos : 0 < n).
  { destruct (Z.eq_dec n 0) as [->|]; [|lia].
    assert (a = 0) by (change (2 ^ 0) with 1 in Ha; lia).
    assert (b = 0) by (change (2 ^ 0) with 1 in Hb; lia).
    subst. exfalso. apply Hz. reflexivity. }
  destruct Hla as [->|Hla], Hlb as [->|Hlb]; cbn [Z.log2] in Hlog; lia.
Qed.

Lemma crc_bit_below (c : Z) : 0 <= c < 2 ^ 32 -> 0 <= Checksum.crc_bit c < 2 ^ 32.
Proof.
  intros Hc. unfold Checksum.crc_bit.
  assert (Hhalf : 0 <= Z.shiftr c 1 < 2 ^ 32).
  { rewrite Z.shiftr_div_pow2 by lia. change (2 ^ 1) with 2.
    split; [apply Z.div_pos; lia | apply Z.div_lt_upper_bound; lia]. }
  destruct (Z.testbit c 0); [|exact Hhalf].
  apply lxor_below; lia.
Qed.

Lemma crc_byte_below (c b : Z) : 0 <= c < 2 ^ 32 -> 0 <= Checksum.crc_byte c b < 2 ^ 32.
Proof.
  intros Hc. unfold Checksum.crc_byte.
  assert (Hb : 0 <= uint8 b < 2 ^ 32).
  { unfold uint8. pose proof (Z.mod_pos_bound b 256 ltac:(lia)). lia. }
  pose proof (lxor_below c (uint8 b) 32 ltac:(lia) Hc Hb) as H0.
  cbn [Nat.iter]. do 8 apply crc_bit_below. exact H0.
Qed.

Lemma crc_fold_below (buf : list Z) (c : Z) :
  0 <= c < 2 ^ 32 -> 0 <= fold_left Checksum.crc_byte buf c < 2 ^ 32.
Proof.
  revert c. induction buf as [|b buf IH]; intros c Hc; [exact Hc|].
  cbn [fold_left]. apply IH, crc_byte_below, Hc.
Qed.

Lemma CRC32_below (crc : Z) (buf : list Z) : 0 <= CRC32 crc buf < 2 ^ 32.
Proof.
  unfold CRC32. apply lxor_below; [lia | | lia].
  apply crc_fold_below, lxor_below; [lia | apply uint32_range | lia].
Qed.

(** The digest of a buffer taken in two pieces is the digest of the whole. *)
Lemma CRC32_app (crc : Z) (a b : list Z) :
  CRC32 (CRC32 crc a) b = CRC32 crc (a ++ b).
Proof.
  unfold CRC32 at 1 3. rewrite fold_left_app. f_equal. f_equal.
  pose proof (CRC32_below crc a) as Hr.
  unfold uint32. rewrite Z.mod_small by exact Hr.
  unfold CRC32. apply lxor_cancel.
Qed.

(** X14: [updateCRCDigest] extends the running digest.  When the digest
    held is that of the payload so far, the digest after the call is that of
    the payload followed by the appended bytes, the same as a recomputation
    from the start would give; the instance keeps its payload length, and a
    null pointer changes nothing. *)
Theorem updateCRCDigest_extends (old bytes : list Z) (s : MMKV) :
  m_crcDigest s = uint32 (CRC32 0 old) ->
  len bytes < 2 ^ 32 ->
  let s' := updateCRCDigest (Some bytes) (len bytes) s in
  m_crcDigest s' = uint32 (CRC32 0 (old ++ bytes))
  /\ m_crcDigest s' = CRC32 0 (old ++ bytes)
  /\ m_actualSize s' = m_actualSize s
  /\ updateCRCDigest None (len bytes) s = s.
Proof.
  intros Hold Hlen. cbn zeta.
  assert (Hd : m_crcDigest (updateCRCDigest (Some bytes) (len bytes) s)
               = uint32 (CRC32 0 (old ++ bytes))).
  { unfold updateCRCDigest, writeActualSize. cbn.
    rewrite Hold. pose proof (len_nonneg bytes).
    assert (Hu : uint32 (len bytes) = len bytes) by (apply Z.mod_small; lia).
    assert (Hs : slice 0 (len bytes) bytes = bytes).
    { unfold slice, len. cbn [Z.to_nat skipn]. rewrite Nat2Z.id. apply firstn_all. }
    assert (Hc : uint32 (CRC32 0 old) = CRC32 0 old)
      by (apply Z.mod_small, CRC32_below).
    now rewrite Hu, Hs, Hc, CRC32_app. }
  split; [exact Hd|]. split; [|split; reflexivity].
  rewrite Hd. unfold uint32. apply Z.mod_small, CRC32_below.
Qed.

Lemma updateCRCDigest_extends_witness :
  let s := with_crcDigest (uint32 (CRC32 0 [1; 2; 3])) store0 in
  m_crcDigest (updateCRCDigest (Some [4; 5]) (len [4; 5]) s)
  = uint32 (CRC32 0 ([1; 2; 3] ++ [4; 5])).
Proof.
  intros s.
  assert (Hold : m_crcDigest s = uint32 (CRC32 0 [1; 2; 3])) by reflexivity.
  assert (Hlen : len [4; 5] < 2 ^ 32) by (vm_compute; reflexivity).
  destruct (updateCRCDigest_extends [1; 2; 3] [4; 5] s Hold Hlen) as [Hd _].
  exact Hd.
Defined.

(** X15: what [recaculateCRCDigestWithIV] leaves passes the check.  On
    a mapped file, with a payload length that fits 32 bits, the digest the
    call stores in the instance and sends to the meta information is the one
    [checkFileCRCValid] recomputes for that length, so the check answers
    [true] and changes nothing. *)
Theorem recaculate_then_check (iv : option (list Z)) (s : MMKV) :
  MemoryFile.m_ptr (m_file s) = true ->
  0 <= m_actualSize s < 2 ^ 32 ->
  let s' := recaculateCRCDigestWithIV iv s in
  m_crcDigest s'
    = uint32 (CRC32 0 (payload (m_actualSize s) (mapped_bytes s)))
  /\ MetaInfo.m_crcDigest (m_metaInfo s') = m_crcDigest s'
  /\ payload (m_actualSize s') (mapped_bytes s') = payload (m_actualSize s) (mapped_bytes s)
  /\ checkFileCRCValid (m_actualSize s') (MetaInfo.m_crcDigest (m_metaInfo s')) s'
     = (true, s').
Proof.
  intros Hptr Hsize. cbn zeta.
  assert (Hmem : MemoryFile.getMemory (m_file s) = Some (mapped_bytes s)).
  { unfold MemoryFile.getMemory, mapped_bytes. now rewrite Hptr. }
  assert (Hu : uint32 (m_actualSize s) = m_actualSize s) by (apply Z.mod_small; lia).
  set (d := uint32 (CRC32 0 (payload (m_actualSize s) (mapped_bytes s)))).
  assert (Hdd : uint32 d = d).
  { subst d. unfold uint32. now rewrite Z.mod_mod by lia. }
  assert (Hshape : recaculateCRCDigestWithIV iv s
                   = writeActualSize (m_actualSize s) d iv IncreaseSequence
                       (with_crcDigest d (with_crcDigest 0 s))).
  { unfold recaculateCRCDigestWithIV. rewrite Hmem. cbn zeta.
    cbn [m_actualSize with_crcDigest m_crcDigest]. rewrite Hu. reflexivity. }
  rewrite Hshape.
  set (s2 := with_crcDigest d (with_crcDigest 0 s)).
  assert (Hpay : payload (m_actualSize s)
                   (mapped_bytes (writeActualSize (m_actualSize s) d iv IncreaseSequence s2))
                 = payload (m_actualSize s) (mapped_bytes s)).
  { unfold payload, writeActualSize. cbn.
    change (mapped_bytes s2) with (mapped_bytes s).
    apply slice_blit_low. unfold len, Fixed32Size, pbFixed32Size. cbn [length]. lia. }
  split; [reflexivity|]. split; [cbn; exact Hdd|]. split; [exact Hpay|].
  unfold checkFileCRCValid.
  assert (Hmem2 : MemoryFile.getMemory
                    (m_file (writeActualSize (m_actualSize s) d iv IncreaseSequence s2))
                  = Some (mapped_bytes
                            (writeActualSize (m_actualSize s) d iv IncreaseSequence s2))).
  { unfold MemoryFile.getMemory, mapped_bytes, writeActualSize. cbn. now rewrite Hptr. }
  rewrite Hmem2. cbn zeta.
  assert (Ha : m_actualSize (writeActualSize (m_actualSize s) d iv IncreaseSequence s2)
               = m_actualSize s) by reflexivity.
  assert (Hm : MetaInfo.m_crcDigest
                 (m_metaInfo (writeActualSize (m_actualSize s) d iv IncreaseSequence s2))
               = d) by (cbn; exact Hdd).
  rewrite Ha, Hm, Hu. fold (payload (m_actualSize s)
    (mapped_bytes (writeActualSize (m_actualSize s) d iv IncreaseSequence s2))).
  rewrite Hpay. fold d.
  cbn [m_crcDigest with_crcDigest]. rewrite Hdd, Z.eqb_refl.
  reflexivity.
Qed.

Lemma recaculate_then_check_witness :
  checkFileCRCValid
    (m_actualSize (recaculateCRCDigestWithIV None store1))
    (MetaInfo.m_crcDigest (m_metaInfo (recaculateCRCDigestWithIV None store1)))
    (recaculateCRCDigestWithIV None store1)
  = (true, recaculateCRCDigestWithIV None store1).
Proof.
  assert (Hptr : MemoryFile.m_ptr (m_file store1) = true) by (vm_compute; reflexivity).
  assert (Hs1 : m_actualSize store1 = 4) by (vm_compute; reflexivity).
  destruct (recaculate_then_check None store1 Hptr ltac:(lia)) as (_ & _ & _ & Hcheck).
  exact Hcheck.
Defined.

(** ** Dropping the cache *)

(** The whole effect on a loaded instance, field by field. *)
Lemma clearMemoryCache_loaded (s : MMKV) :
  m_needLoadFromFile s = false ->
  clearMemoryCache s
  = {| m_mmapID := m_mmapID s; m_path := m_path s; m_crcPath := m_crcPath s;
       m_mmapKey := m_mmapKey s; m_dic := ∅; m_dicCrypt := ∅;
       m_dicPtr := m_dicPtr s; m_dicCryptPtr := m_dicCryptPtr s;
       m_file := MemoryFile.clearMemoryCache (m_file s);
       m_metaFile := m_metaFile s;
       m_metaInfo := MetaInfo.with_crcDigest 0 (m_metaInfo s);
       m_crypter := resetForLoad (m_metaInfo s) <$> m_crypter s;
       m_isInterProcess := m_isInterProcess s; m_actualSize := 0;
       m_output := None; m_needLoadFromFile := true;
       m_hasFullWriteback := false; m_crcDigest := m_crcDigest s |}.
Proof.
  intros Hload. unfold clearMemoryCache, resetForLoad. rewrite Hload.
  destruct s as [? ? ? ? ? ? ? ? ? ? ? [c|] ? ? ? ? ? ?]; cbn; [|reflexivity].
  destruct (_ <=? _); reflexivity.
Qed.

Lemma clearMemoryCache_crypter_key (s : MMKV) :
  AES.m_key <$> m_crypter (clearMemoryCache s) = AES.m_key <$> m_crypter s.
Proof.
  destruct (m_needLoadFromFile s) eqn:Hload.
  - unfold clearMemoryCache. now rewrite Hload.
  - rewrite (clearMemoryCache_loaded s Hload). cbn [m_crypter].
    destruct (m_crypter s) as [c|]; [|reflexivity].
    cbn. unfold resetForLoad. now destruct (_ <=? _).
Qed.

Lemma cryptKey_of_same_key (s s' : MMKV) :
  AES.m_key <$> m_crypter s' = AES.m_key <$> m_crypter s -> cryptKey s' = cryptKey s.
Proof.
  unfold cryptKey, AES.getKey.
  destruct (m_crypter s') as [c'|], (m_crypter s) as [c|]; cbn; try discriminate;
    [|reflexivity].
  now intros [= ->].
Qed.

(** X16: [clearMemoryCache] drops the view, not the data.  The bytes of
    the data file, the meta file, the names of the instance and its crypt
    key are as before; the instance is marked for loading, so a second call
    changes nothing; and on an instance that is already marked the first
    call changes nothing either.  On a loaded instance the index, the
    payload length, the write-back flag and the mapping are reset. *)
Theorem clearMemoryCache_keeps_data (s : MMKV) :
  let s' := clearMemoryCache s in
  m_needLoadFromFile s' = true
  /\ clearMemoryCache s' = s'
  /\ MemoryFile.m_bytes (m_file s') = MemoryFile.m_bytes (m_file s)
  /\ m_metaFile s' = m_metaFile s
  /\ sameIdentity s s'
  /\ cryptKey s' = cryptKey s
  /\ (m_needLoadFromFile s = true -> s' = s)
  /\ (m_needLoadFromFile s = false ->
        m_dic s' = ∅ /\ m_dicCrypt s' = ∅ /\ m_actualSize s' = 0
        /\ m_hasFullWriteback s' = false
        /\ MemoryFile.getMemory (m_file s') = None
        /\ MetaInfo.m_crcDigest (m_metaInfo s') = 0).
Proof.
  cbn zeta. destruct (m_needLoadFromFile s) eqn:Hload.
  - assert (Hsame : clearMemoryCache s = s)
      by (unfold clearMemoryCache; now rewrite Hload).
    rewrite Hsame. repeat split; try assumption; discriminate.
  - rewrite (clearMemoryCache_loaded s Hload).
    split; [reflexivity|]. split; [reflexivity|].
    split; [reflexivity|]. split; [reflexivity|].
    split; [repeat split|]. split; [|split; [discriminate | repeat split]].
    rewrite <- (clearMemoryCache_loaded s Hload).
    apply cryptKey_of_same_key, clearMemoryCache_crypter_key.
Qed.

(** ** Setting the same key twice *)

Lemma checkLoadData_crypter_key (h : option ErrorHandler) (s : MMKV) :
  AES.m_key <$> m_crypter (checkLoadData h s) = AES.m_key <$> m_crypter s.
Proof.
  unfold checkLoadData. destruct (m_needLoadFromFile s);
    [apply loadFromFile_crypter_key|].
  destruct (_ =? _); [reflexivity|].
  now rewrite loadFromFile_crypter_key, clearMemoryCache_crypter_key.
Qed.

Lemma substring_all (n : nat) (key : string) :
  (String.length key <= n)%nat -> substring 0 n key = key.
Proof.
  revert n. induction key as [|a key IH]; intros [|n] Hlen; cbn in *;
    try reflexivity; try lia.
  f_equal. apply IH. lia.
Qed.

Lemma c_str_no_NUL_id (key : string) : containsNUL key = false -> c_str key = key.
Proof.
  unfold containsNUL. induction key as [|a key IH]; [reflexivity|].
  cbn [list_ascii_of_string existsb c_str]. intros H.
  apply orb_false_elim in H as [Ha Hrest].
  destruct (ascii_dec a NUL) as [->|_]; [now rewrite Ascii.eqb_refl in Ha|].
  f_equal. now apply IH.
Qed.

(** X17: [checkReSetCryptKey] with a key the cipher can hold.  For a
    key of at most [AES_KEY_LEN] bytes without NUL, after the call
    [cryptKey] reports that very key, and a second call with it changes
    nothing. *)
Theorem checkReSetCryptKey_settles (h : option ErrorHandler) (key : string) (s : MMKV) :
  key <> "" ->
  (String.length key <= AES.AES_KEY_LEN)%nat ->
  containsNUL key = false ->
  let s1 := checkReSetCryptKey h (Some key) s in
  is_Some (m_crypter s1)
  /\ cryptKey s1 = key
  /\ checkReSetCryptKey h (Some key) s1 = s1.
Proof.
  intros Hne Hlen Hnul s1.
  assert (HnonEmpty : nonEmptyKey (Some key) = Some key)
    by (destruct key; [congruence | reflexivity]).
  assert (Hfit : c_str (substring 0 AES.AES_KEY_LEN key) = key).
  { rewrite substring_all by exact Hlen. now apply c_str_no_NUL_id. }
  assert (Hattach : forall s0,
            let s' := checkLoadData h
                        (with_crypter (Some (AES.new (bytes_of_string key))) s0) in
            is_Some (m_crypter s') /\ cryptKey s' = key).
  { intros s0 s'.
    pose proof (checkLoadData_crypter_key h
                  (with_crypter (Some (AES.new (bytes_of_string key))) s0)) as Hk.
    fold s' in Hk. cbn in Hk. split.
    - destruct (m_crypter s'); [eauto | discriminate].
    - rewrite <- Hfit. now apply cryptKey_of_key. }
  assert (H1 : is_Some (m_crypter s1) /\ cryptKey s1 = key).
  { subst s1. unfold checkReSetCryptKey. rewrite HnonEmpty.
    destruct (m_crypter s) as [c|] eqn:Hc; [|apply Hattach].
    destruct (String.eqb_spec (cryptKey s) key) as [Heq|Hdiff]; cbn [negb].
    - rewrite Hc. eauto.
    - apply Hattach. }
  destruct H1 as [[c1 Hc1] Hkey1]. split; [eauto|]. split; [exact Hkey1|].
  unfold checkReSetCryptKey. rewrite Hc1, HnonEmpty, Hkey1, String.eqb_refl.
  reflexivity.
Qed.

Lemma checkReSetCryptKey_settles_witness :
  cryptKey (checkReSetCryptKey None (Some key16) store1) = key16
  /\ checkReSetCryptKey None (Some key16) (checkReSetCryptKey None (Some key16) store1)
     = checkReSetCryptKey None (Some key16) store1.
Proof.
  assert (Hne : key16 <> "") by discriminate.
  assert (Hlen : (String.length key16 <= AES.AES_KEY_LEN)%nat) by (vm_compute; lia).
  assert (Hnul : containsNUL key16 = false) by reflexivity.
  destruct (checkReSetCryptKey_settles None key16 store1 Hne Hlen Hnul)
    as (_ & Hkey & Hagain).
  split; [exact Hkey | exact Hagain].
Defined.

(** ** After a successful set *)

Lemma contains_of_value (s : MMKV) (key : string) :
  valueOf s key <> [] -> contains s key = true.
Proof.
  intros Hvalue. destruct (contains s key) eqn:Hc; [reflexivity|].
  now rewrite (valueOf_absent s key Hc) in Hvalue.
Qed.

(** An append never changes which dictionary is in use, nor whether it
    exists: the pointers are assigned by the constructor alone, and a
    crypter is replaced by a crypter. *)
Lemma buildIndex_dictionaryInUse (stored : list Z) (s : MMKV) :
  dictionaryInUse (buildIndex stored s) = dictionaryInUse s.
Proof.
  unfold buildIndex, dictionaryInUse. destruct (m_crypter s) eqn:Hc.
  - now destruct (AES.decrypt _ _).
  - cbn. now rewrite Hc.
Qed.

Lemma recaculateCRCDigestWithIV_dictionaryInUse (iv : option (list Z)) (s : MMKV) :
  dictionaryInUse (recaculateCRCDigestWithIV iv s) = dictionaryInUse s.
Proof.
  unfold recaculateCRCDigestWithIV. now destruct (MemoryFile.getMemory _).
Qed.

Lemma fullWriteback_dictionaryInUse (iv : Z -> list Z) (s : MMKV) :
  dictionaryInUse (snd (fullWriteback iv s)) = dictionaryInUse s.
Proof.
  unfold fullWriteback. destruct (m_hasFullWriteback s); [reflexivity|].
  destruct (expandFile _ _); [|reflexivity]. cbn [snd].
  change (dictionaryInUse (with_hasFullWriteback true ?x)) with (dictionaryInUse x).
  rewrite buildIndex_dictionaryInUse, recaculateCRCDigestWithIV_dictionaryInUse.
  unfold dictionaryInUse. cbn. now destruct (m_crypter s).
Qed.

Lemma ensureMemorySize_dictionaryInUse (iv : Z -> list Z) (recLen : Z) (s s1 : MMKV) :
  ensureMemorySize iv recLen s = Some s1 -> dictionaryInUse s1 = dictionaryInUse s.
Proof.
  unfold ensureMemorySize. destruct (_ <? _); [|now intros [= ->]].
  pose proof (fullWriteback_dictionaryInUse iv s) as Hw.
  destruct (fullWriteback iv s) as [ok s0]. cbn [snd] in Hw.
  destruct ok; [|discriminate]. destruct (expandFile _ _); [|discriminate].
  intros [= <-]. exact Hw.
Qed.

Lemma appendDataWithKey_dictionaryInUse (iv : Z -> list Z) (value : list Z)
    (key : string) (s : MMKV) :
  dictionaryInUse (snd (appendDataWithKey iv value key s)) = dictionaryInUse s.
Proof.
  unfold appendDataWithKey.
  destruct (ensureMemorySize _ _ s) as [s1|] eqn:Hens; [|reflexivity].
  apply ensureMemorySize_dictionaryInUse in Hens. rewrite <- Hens.
  unfold dictionaryInUse. destruct (m_crypter s1) eqn:Hc.
  - destruct (AES.encrypt _ _) as [e1 c1]. destruct (AES.encrypt c1 _) as [e2 c2].
    reflexivity.
  - cbn. now rewrite Hc.
Qed.

(** So a [set] that answers [true] leaves the dictionary in use in
    place. *)
Lemma setDataForKey_dictionaryInUse (h : option ErrorHandler) (iv : Z -> list Z)
    (data : list Z) (key : string) (isDataHolder : bool) (s s' : MMKV) :
  setDataForKey h iv data key isDataHolder s = (true, s') ->
  dictionaryInUse s' = true.
Proof.
  unfold setDataForKey. destruct (isKeyEmpty key); [discriminate|].
  destruct (m_needLoadFromFile (checkLoadData h s)); [discriminate|].
  destruct (isFileValid (checkLoadData h s)); [|discriminate].
  destruct (dictionaryInUse (checkLoadData h s)) eqn:Hdic; [|discriminate].
  cbn [orb negb]. intros Hset. apply (f_equal snd) in Hset. cbn [snd] in Hset.
  now rewrite <- Hset, appendDataWithKey_dictionaryInUse.
Qed.

Lemma containsKey_contains (h : option ErrorHandler) (key : string) (s : MMKV) :
  dictionaryInUse (checkLoadData h s) = true ->
  containsKey h key s = Some (contains (checkLoadData h s) key, checkLoadData h s).
Proof. intros Hdic. now destruct (enumeration_keys h s Hdic) as (_ & _ & Hhas). Qed.

(** What a key in the dictionary means for the two other calls. *)
Lemma listed_and_counted (h : option ErrorHandler) (key : string) (s : MMKV) :
  checkLoadData h s = s ->
  dictionaryInUse s = true ->
  contains s key = true ->
  (exists keys, allKeys h s = Some (keys, s) /\ key ∈ keys)
  /\ (exists n, count h s = Some (n, s) /\ 0 < n).
Proof.
  intros Hfresh Hdic Hhas. rewrite <- Hfresh in Hdic.
  destruct (enumeration_keys h s Hdic) as (Hall & Hcount & _).
  rewrite Hfresh in Hall, Hcount.
  rewrite liveKeys_contains in Hhas. apply bool_decide_eq_true_1 in Hhas.
  split.
  - exists (liveKeys s). split; [exact Hall | exact Hhas].
  - exists (Z.of_nat (length (liveKeys s))). split; [exact Hcount|].
    destruct (liveKeys s); [inversion Hhas | cbn; lia].
Qed.

Lemma present_after_setDataForKey (h : option ErrorHandler) (iv : Z -> list Z)
    (data : list Z) (key : string) (isDataHolder : bool) (s s' : MMKV) :
  0 <= m_actualSize s ->
  setDataForKey h iv data key isDataHolder s = (true, s') ->
  (if isDataHolder then CodedOutputData.writeData data else data) <> [] ->
  checkLoadData h s' = s' /\ dictionaryInUse s' = true /\ contains s' key = true.
Proof.
  intros Hsize Hset Hvalue.
  destruct (getDataForKey_after_setDataForKey h iv data key isDataHolder s s'
              Hsize Hset Hvalue) as [_ Hget].
  unfold getDataForKey in Hget. cbn zeta in Hget.
  injection Hget as Hval Hstate.
  split; [exact Hstate|].
  split; [exact (setDataForKey_dictionaryInUse h iv data key isDataHolder s s' Hset)|].
  apply contains_of_value. rewrite <- Hstate, Hval. exact Hvalue.
Qed.

(** X18: what [set] has stored is there.  After any overload of [set]
    answers [true], [containsKey] answers [true] for that key, the key is
    among [allKeys] and [count] is not zero.  (A null [const char] pointer
    is a removal and is not meant here.) *)
Theorem set_then_containsKey (h : option ErrorHandler) (iv : Z -> list Z)
    (key : string) (s s' : MMKV) :
  0 <= m_actualSize s ->
  (exists v, set_bool h iv v key s = (true, s'))
  \/ (exists v, set_int32 h iv v key s = (true, s'))
  \/ (exists v, set_uint32 h iv v key s = (true, s'))
  \/ (exists v, set_int64 h iv v key s = (true, s'))
  \/ (exists v, set_uint64 h iv v key s = (true, s'))
  \/ (exists v, set_float h iv v key s = (true, s'))
  \/ (exists v, set_double h iv v key s = (true, s'))
  \/ (exists v, set_cstr h iv (Some v) key s = (true, s'))
  \/ (exists v, set_string h iv v key s = (true, s'))
  \/ (exists v, set_bytes h iv v key s = (true, s'))
  \/ (exists v, set_vector h iv v key s = (true, s')) ->
  containsKey h key s' = Some (true, s')
  /\ (exists keys, allKeys h s' = Some (keys, s') /\ key ∈ keys)
  /\ (exists n, count h s' = Some (n, s') /\ 0 < n).
Proof.
  intros Hsize Hset.
  assert (Hpresent : checkLoadData h s' = s' /\ dictionaryInUse s' = true
                     /\ contains s' key = true).
  { assert (Hvarint32 : forall v, 0 < pbRawVarint32Size v)
      by apply pbRawVarint32Size_pos.
    assert (Hvarint64 : forall v, 0 < pbRawVarint64Size v).
    { intros v. unfold pbRawVarint64Size, rawVarint64.
      pose proof (rawVarint_nonempty 9 (uint64 v)) as Hne.
      destruct (rawVarint 10 (uint64 v)); [congruence | cbn; lia]. }
    assert (Hint32 : forall v, 0 < pbInt32Size v).
    { intros v. unfold pbInt32Size. destruct (0 <=? v); [apply Hvarint32 | lia]. }
    destruct Hset as [[v H]|[[v H]|[[v H]|[[v H]|[[v H]|[[v H]|[[v H]|[[v H]|[[v H]|[[v H]|[v H]]]]]]]]]]];
      unfold set_bool, set_int32, set_uint32, set_int64, set_uint64, set_float,
        set_double, set_cstr, set_string, set_bytes, set_vector in H;
      try (destruct (isKeyEmpty key); [discriminate|]); cbn zeta in H;
      (eapply present_after_setDataForKey; [exact Hsize | exact H |]);
      try apply writeData_nonempty; apply into_nonempty;
      first [apply Hint32 | apply Hvarint32 | apply Hvarint64 | reflexivity]. }
  destruct Hpresent as (Hfresh & Hdic & Hhas).
  split; [|exact (listed_and_counted h key s' Hfresh Hdic Hhas)].
  rewrite containsKey_contains by (now rewrite Hfresh).
  now rewrite Hfresh, Hhas.
Qed.

Lemma set_then_containsKey_witness :
  containsKey None "b" store2 = Some (true, store2)
  /\ (exists n, count None store2 = Some (n, store2) /\ 0 < n).
Proof.
  assert (Hs1 : m_actualSize store1 = 4) by (vm_compute; reflexivity).
  assert (Hset1 : set_int32 None noIV (-2) "b" store1 = (true, store2))
    by (vm_compute; reflexivity).
  destruct (set_then_containsKey None noIV "b" store1 store2 ltac:(lia)
              (or_intror (or_introl (ex_intro _ (-2) Hset1))))
    as (Hc & _ & Hn).
  split; [exact Hc | exact Hn].
Defined.

(** X19: strings and byte buffers share one encoding.  What [set]
    stored as a string reads back through [getBytes] as the bytes of the
    string, and what it stored as a byte buffer reads back through
    [getString] as the string of those bytes. *)
Theorem string_bytes_interchange (h : option ErrorHandler) (iv : Z -> list Z)
    (key : string) (s s' : MMKV) :
  0 <= m_actualSize s ->
  (forall v, len (bytes_of_string v) < 2 ^ 31 ->
     set_string h iv v key s = (true, s') ->
     getBytes h key s' = (bytes_of_string v, s'))
  /\ (forall v result, len v < 2 ^ 31 ->
        set_bytes h iv v key s = (true, s') ->
        getString h key result s' = (true, string_of_bytes v, s')).
Proof.
  intros Hsize. split.
  - intros v Hv Hset. unfold set_string in Hset.
    destruct (isKeyEmpty key); [discriminate|].
    now destruct (getString_after_set h iv _ key "" s s' Hv Hsize Hset).
  - intros v result Hv Hset. unfold set_bytes in Hset.
    destruct (isKeyEmpty key); [discriminate|].
    now destruct (getString_after_set h iv _ key result s s' Hv Hsize Hset).
Qed.

Lemma string_bytes_interchange_witness :
  getBytes None "msg" crypt1 = (bytes_of_string "hello", crypt1).
Proof.
  assert (Hsize : m_actualSize crypt0 = 0) by (vm_compute; reflexivity).
  assert (Hset : set_string None noIV "hello" "msg" crypt0 = (true, crypt1))
    by (vm_compute; reflexivity).
  assert (Hlen : len (bytes_of_string "hello") < 2 ^ 31) by (vm_compute; reflexivity).
  destruct (string_bytes_interchange None noIV "msg" crypt0 crypt1 ltac:(lia))
    as [Hstr _].
  exact (Hstr "hello" Hlen Hset).
Defined.

(** ** Removing one key *)

Lemma appendDataWithKey_tombstone (iv : Z -> list Z) (key : string) (s s' : MMKV) :
  appendDataWithKey iv [] key s = (true, s') ->
  ready s ->
  inSync s' /\ contains s' key = false.
Proof.
  unfold appendDataWithKey. intros Happ Hready.
  destruct (ensureMemorySize _ _ s) as [s1|] eqn:Hens; [|discriminate].
  apply ensureMemorySize_post in Hens as [(Hload & Hptr & Hsize) Hfit];
    [| pose proof (len_nonneg (record_head key [])); change (len []) with 0; lia
     | assumption].
  change (len [] =? 0) with true in Happ. cbn iota in Happ.
  destruct (m_crypter s1) as [c|] eqn:Hcrypt.
  - destruct (AES.encrypt c (record_head key [])) as [e1 c1].
    destruct (AES.encrypt c1 []) as [e2 c2].
    apply (f_equal snd) in Happ. cbn [snd] in Happ. subst s'.
    match goal with
    | |- context [updateCRCDigest (Some ?b) ?n ?s4] =>
        destruct (updateCRCDigest_fields b n s4) as (_ & Hdc & Hc & Hn & Hm & Hf)
    end.
    split; [split; [rewrite Hn; exact Hload | rewrite Hm; reflexivity]|].
    unfold contains. rewrite Hc, Hdc. cbn. rewrite lookup_delete_eq.
    apply bool_decide_eq_false_2. intros [? ?]. discriminate.
  - apply (f_equal snd) in Happ. cbn [snd] in Happ. subst s'.
    match goal with
    | |- context [updateCRCDigest (Some ?b) ?n ?s4] =>
        destruct (updateCRCDigest_fields b n s4) as (Hd & _ & Hc & Hn & Hm & Hf)
    end.
    split; [split; [rewrite Hn; exact Hload | rewrite Hm; reflexivity]|].
    unfold contains. rewrite Hc, Hd. cbn. rewrite Hcrypt, lookup_delete_eq.
    apply bool_decide_eq_false_2. intros [? ?]. discriminate.
Qed.

(** X20: a key that is not there reads as the caller's default.  For
    a key the index does not hold (after the freshness check), every scalar
    getter answers the default it was given, [getString] and [getVector]
    answer [false] and leave the caller's result alone, [getBytes] answers
    an empty buffer, both sizes are 0 and [writeValueToBuffer] answers -1
    without touching the buffer. *)
Theorem absent_key_reads_default (h : option ErrorHandler) (key : string) (s : MMKV) :
  key <> "" ->
  let s0 := checkLoadData h s in
  contains s0 key = false ->
  (forall d, getBool h key d s = (d, s0))
  /\ (forall d, getInt32 h key d s = (d, s0))
  /\ (forall d, getUInt32 h key d s = (d, s0))
  /\ (forall d, getInt64 h key d s = (d, s0))
  /\ (forall d, getUInt64 h key d s = (d, s0))
  /\ (forall d, getFloat h key d s = (d, s0))
  /\ (forall d, getDouble h key d s = (d, s0))
  /\ (forall result, getString h key result s = (false, result, s0))
  /\ (forall result, getVector h key result s = (false, result, s0))
  /\ getBytes h key s = ([], s0)
  /\ (forall actualSize, getValueSize h key actualSize s = (0, s0))
  /\ (forall ptr size, 0 <= size -> writeValueToBuffer h key ptr size s = (-1, ptr, s0)).
Proof.
  intros Hkey s0 Hnone.
  assert (Hempty : isKeyEmpty key = false) by (destruct key; [congruence | reflexivity]).
  assert (Hget : getDataForKey h key s = ([], s0)).
  { unfold getDataForKey. fold s0. now rewrite (valueOf_absent s0 key Hnone). }
  unfold getBool, getInt32, getUInt32, getInt64, getUInt64, getFloat, getDouble,
    getScalar, getString, getVector, getBytes, getValueSize, writeValueToBuffer.
  rewrite Hget, Hempty.
  repeat split; try (intros; reflexivity).
  - intros [|]; reflexivity.
  - intros ptr size Hsize. cbn [orb].
    destruct (Z.ltb_spec size 0); [lia | reflexivity].
Qed.

Lemma absent_key_reads_default_witness :
  getInt64 None "nokey" 9 store3 = (9, checkLoadData None store3)
  /\ getBytes None "nokey" store3 = ([], checkLoadData None store3).
Proof.
  assert (Hkey : "nokey" <> "") by discriminate.
  assert (Habs : contains (checkLoadData None store3) "nokey" = false)
    by (vm_compute; reflexivity).
  destruct (absent_key_reads_default None "nokey" store3 Hkey Habs)
    as (_ & _ & _ & Hint & _ & _ & _ & _ & _ & Hbytes & _).
  split; [exact (Hint 9) | exact Hbytes].
Defined.

(** X21: a removed key is gone.  When the removal goes through, the
    instance is left in step with its meta file, [containsKey] answers
    [false] for the key and [allKeys] does not list it; a null [const char]
    pointer passed to [set] has this very effect while answering [true]. *)
Theorem removeValueForKey_forgets (h : option ErrorHandler) (iv : Z -> list Z)
    (key : string) (s : MMKV) :
  0 <= m_actualSize s ->
  fst (removeDataForKey iv key (checkLoadData h s)) = true ->
  let s' := removeValueForKey h iv key s in
  checkLoadData h s' = s'
  /\ containsKey h key s' = Some (false, s')
  /\ (exists keys, allKeys h s' = Some (keys, s') /\ ~ (key ∈ keys))
  /\ set_cstr h iv None key s = (true, s').
Proof.
  intros Hsize Hremoved s'.
  assert (Hkey : isKeyEmpty key = false).
  { unfold removeDataForKey in Hremoved. now destruct (isKeyEmpty key). }
  assert (Hs' : s' = snd (removeDataForKey iv key (checkLoadData h s))).
  { subst s'. unfold removeValueForKey. now rewrite Hkey. }
  assert (Hgone : (inSync s' /\ contains s' key = false) /\ dictionaryInUse s' = true).
  { rewrite Hs'. unfold removeDataForKey in *. rewrite Hkey in *.
    pose proof (checkLoadData_actualSize h s Hsize) as Hsize0.
    destruct (m_needLoadFromFile (checkLoadData h s)) eqn:Hload; [discriminate|].
    destruct (isFileValid (checkLoadData h s)) eqn:Hvalid; [|discriminate].
    destruct (dictionaryInUse (checkLoadData h s)) eqn:Hdic; [|discriminate].
    cbn [orb negb] in *.
    split; [|now rewrite appendDataWithKey_dictionaryInUse].
    apply (appendDataWithKey_tombstone iv key (checkLoadData h s)).
    - now rewrite (surjective_pairing (appendDataWithKey _ _ _ _)), Hremoved.
    - unfold isFileValid, isFileValid_file in Hvalid.
      apply andb_true_iff in Hvalid as [Hptr _]. repeat split; assumption. }
  destruct Hgone as [[Hsync Hnone] Hdic].
  pose proof (checkLoadData_inSync h s' Hsync) as Hfresh.
  assert (Hdic' : dictionaryInUse (checkLoadData h s') = true) by (now rewrite Hfresh).
  destruct (enumeration_keys h s' Hdic') as (Hall & _ & Hhas).
  rewrite Hfresh in Hall, Hhas.
  split; [exact Hfresh|]. split; [now rewrite Hhas, Hnone|]. split; [|reflexivity].
  exists (liveKeys s'). split; [exact Hall|].
  intros Hin. rewrite liveKeys_contains in Hnone.
  now apply bool_decide_eq_false_1 in Hnone.
Qed.

Lemma removeValueForKey_forgets_witness :
  containsKey None "a" (removeValueForKey None noIV "a" store2)
  = Some (false, removeValueForKey None noIV "a" store2).
Proof.
  assert (Hsize : m_actualSize store2 = 17) by (vm_compute; reflexivity).
  assert (Hok : fst (removeDataForKey noIV "a" (checkLoadData None store2)) = true)
    by (vm_compute; reflexivity).
  destruct (removeValueForKey_forgets None noIV "a" store2 ltac:(lia) Hok)
    as (_ & Hc & _).
  exact Hc.
Defined.

(** ** The names of an instance *)

Lemma buildIndex_handle (stored : list Z) (s : MMKV) :
  handle (buildIndex stored s) = handle s.
Proof. unfold buildIndex. case_matches; reflexivity. Qed.

Lemma loadFromFile_keeps_handle (h : option ErrorHandler) (s : MMKV) :
  handle (loadFromFile h s) = handle s.
Proof.
  apply loadFromFile_cases; intros; try reflexivity.
  unfold loadKeep, handle. cbn.
  match goal with
  | |- context [buildIndex ?st ?s2] =>
      pose proof (buildIndex_handle st s2) as Hb
  end.
  unfold handle in Hb. cbn in Hb. exact Hb.
Qed.

Lemma clearMemoryCache_handle (s : MMKV) : handle (clearMemoryCache s) = handle s.
Proof.
  destruct (m_needLoadFromFile s) eqn:Hload.
  - unfold clearMemoryCache. now rewrite Hload.
  - now rewrite (clearMemoryCache_loaded s Hload).
Qed.

Lemma checkLoadData_handle (h : option ErrorHandler) (s : MMKV) :
  handle (checkLoadData h s) = handle s.
Proof.
  unfold checkLoadData. destruct (m_needLoadFromFile s);
    [apply loadFromFile_keeps_handle|].
  destruct (_ =? _); [reflexivity|].
  now rewrite loadFromFile_keeps_handle, clearMemoryCache_handle.
Qed.

Lemma recaculateCRCDigestWithIV_handle (iv : option (list Z)) (s : MMKV) :
  handle (recaculateCRCDigestWithIV iv s) = handle s.
Proof. unfold recaculateCRCDigestWithIV. case_matches; reflexivity. Qed.

Lemma fullWriteback_handle (iv : Z -> list Z) (s : MMKV) :
  handle (snd (fullWriteback iv s)) = handle s.
Proof.
  unfold fullWriteback. destruct (m_hasFullWriteback s); [reflexivity|].
  destruct (expandFile _ _); [|reflexivity]. cbn [snd].
  change (handle (with_hasFullWriteback true ?x)) with (handle x).
  now rewrite buildIndex_handle, recaculateCRCDigestWithIV_handle.
Qed.

Lemma ensureMemorySize_handle (iv : Z -> list Z) (recLen : Z) (s s1 : MMKV) :
  ensureMemorySize iv recLen s = Some s1 -> handle s1 = handle s.
Proof.
  unfold ensureMemorySize. destruct (_ <? _); [|now intros [= ->]].
  pose proof (fullWriteback_handle iv s) as Hw.
  destruct (fullWriteback iv s) as [ok s0]. cbn [snd] in Hw.
  destruct ok; [|discriminate]. destruct (expandFile _ _); [|discriminate].
  intros [= <-]. exact Hw.
Qed.

Lemma appendDataWithKey_handle (iv : Z -> list Z) (value : list Z) (key : string)
    (s : MMKV) :
  handle (snd (appendDataWithKey iv value key s)) = handle s.
Proof.
  unfold appendDataWithKey.
  destruct (ensureMemorySize _ _ s) as [s1|] eqn:Hens; [|reflexivity].
  apply ensureMemorySize_handle in Hens. rewrite <- Hens.
  destruct (m_crypter s1).
  - destruct (AES.encrypt _ _) as [e1 c1]. destruct (AES.encrypt c1 _) as [e2 c2].
    reflexivity.
  - reflexivity.
Qed.

Lemma setDataForKey_handle (h : option ErrorHandler) (iv : Z -> list Z)
    (data : list Z) (key : string) (isDataHolder : bool) (s : MMKV) :
  handle (snd (setDataForKey h iv data key isDataHolder s)) = handle s.
Proof.
  unfold setDataForKey. destruct (isKeyEmpty key); [reflexivity|].
  destruct (_ || _); cbn [snd]; rewrite ?appendDataWithKey_handle;
    apply checkLoadData_handle.
Qed.

Lemma removeValueForKey_handle (h : option ErrorHandler) (iv : Z -> list Z)
    (key : string) (s : MMKV) :
  handle (removeValueForKey h iv key s) = handle s.
Proof.
  unfold removeValueForKey, removeDataForKey. destruct (isKeyEmpty key); [reflexivity|].
  destruct (_ || _); cbn [snd]; rewrite ?appendDataWithKey_handle;
    apply checkLoadData_handle.
Qed.

(** X22: the names of an instance never change.  Whatever is called on
    an instance (a store, a read, a removal of one key or of many, a change
    of key, a dropped cache, a freshness check), [mmapID()] goes on
    reporting the id it was opened with, and the two paths, the registry key
    and the process mode stay as well. *)
Theorem handle_is_fixed (h : option ErrorHandler) (iv : Z -> list Z) (s : MMKV) :
  handle (clearMemoryCache s) = handle s
  /\ handle (checkContentChanged h s) = handle s
  /\ (forall cryptKey_, handle (checkReSetCryptKey h cryptKey_ s) = handle s)
  /\ (forall key, handle (removeValueForKey h iv key s) = handle s)
  /\ (forall keys s', removeValuesForKeys h iv keys s = Some s' -> handle s' = handle s)
  /\ (forall key,
        (forall v, handle (snd (set_bool h iv v key s)) = handle s)
        /\ (forall v, handle (snd (set_int32 h iv v key s)) = handle s)
        /\ (forall v, handle (snd (set_uint32 h iv v key s)) = handle s)
        /\ (forall v, handle (snd (set_int64 h iv v key s)) = handle s)
        /\ (forall v, handle (snd (set_uint64 h iv v key s)) = handle s)
        /\ (forall v, handle (snd (set_float h iv v key s)) = handle s)
        /\ (forall v, handle (snd (set_double h iv v key s)) = handle s)
        /\ (forall v, handle (snd (set_cstr h iv v key s)) = handle s)
        /\ (forall v, handle (snd (set_string h iv v key s)) = handle s)
        /\ (forall v, handle (snd (set_bytes h iv v key s)) = handle s)
        /\ (forall v, handle (snd (set_vector h iv v key s)) = handle s))
  /\ (forall key,
        (forall d, handle (snd (getInt32 h key d s)) = handle s)
        /\ (forall d, handle (snd (getString h key d s)) = handle s)
        /\ handle (snd (getBytes h key s)) = handle s
        /\ (forall r, containsKey h key s = Some r -> handle (snd r) = handle s))
  /\ (forall r, count h s = Some r -> handle (snd r) = handle s)
  /\ (forall r, allKeys h s = Some r -> handle (snd r) = handle s).
Proof.
  split; [apply clearMemoryCache_handle|].
  split; [apply checkLoadData_handle|].
  split.
  { intros k. unfold checkReSetCryptKey.
    destruct (m_crypter s), (nonEmptyKey k); try reflexivity;
      try destruct (negb _); try reflexivity;
      now rewrite checkLoadData_handle. }
  split; [intros key; apply removeValueForKey_handle|].
  split.
  { intros keys s'. unfold removeValuesForKeys.
    destruct keys as [|k1 [|k2 rest]];
      [now intros [= <-] | intros [= <-]; apply removeValueForKey_handle |].
    pose proof (checkLoadData_handle h s) as H0.
    destruct (m_crypter (checkLoadData h s)).
    - destruct (m_dicCryptPtr _); [|discriminate].
      destruct (eraseKeys _ _) as [dic n]. intros [= <-].
      destruct (0 <? n); [|exact H0]. now rewrite fullWriteback_handle.
    - destruct (m_dicPtr _); [|discriminate].
      destruct (eraseKeys _ _) as [dic n]. intros [= <-].
      destruct (0 <? n); [|exact H0]. now rewrite fullWriteback_handle. }
  split.
  { intros key.
    repeat split; intros v;
      unfold set_bool, set_int32, set_uint32, set_int64, set_uint64, set_float,
        set_double, set_cstr, set_string, set_bytes, set_vector;
      try (destruct (isKeyEmpty key); [reflexivity|]);
      try (destruct v; cbn [snd]);
      first [apply setDataForKey_handle | apply removeValueForKey_handle]. }
  split.
  { intros key.
    assert (Hget : handle (snd (getDataForKey h key s)) = handle s)
      by apply checkLoadData_handle.
    assert (Hhas : forall r, containsKey h key s = Some r -> handle (snd r) = handle s).
    { intros r. unfold containsKey. cbn zeta.
      destruct (m_crypter _); destruct (_ : bool); intros [= <-];
        apply checkLoadData_handle. }
    unfold getInt32, getScalar, getString, getBytes.
    destruct (isKeyEmpty key).
    - repeat split. exact Hhas.
    - destruct (getDataForKey h key s) as [data s0]. cbn [snd] in Hget.
      repeat split; intros; try exact (Hhas _ ltac:(eassumption));
        case_matches; cbn [snd]; exact Hget. }
  split.
  - intros r. unfold count. cbn zeta.
    destruct (m_crypter _); destruct (_ : bool); intros [= <-];
      apply checkLoadData_handle.
  - intros r. unfold allKeys. cbn zeta.
    destruct (m_crypter _); destruct (_ : bool); intros [= <-];
      apply checkLoadData_handle.
Qed.

(** ** The hash in a file name *)

Lemma hex_digit_injective (a b : Z) :
  0 <= a < 16 -> 0 <= b < 16 -> hex_digit a = hex_digit b -> a = b.
Proof.
  intros Ha Hb Heq.
  assert (Hall : forallb
                   (fun i => forallb
                      (fun j => negb (Ascii.eqb (hex_digit (Z.of_nat i))
                                        (hex_digit (Z.of_nat j)))
                                || (i =? j)%nat)
                      (seq 0 16))
                   (seq 0 16) = true) by (vm_compute; reflexivity).
  rewrite forallb_forall in Hall.
  specialize (Hall (Z.to_nat a)). rewrite forallb_forall in Hall.
  specialize (Hall ltac:(apply in_seq; lia) (Z.to_nat b) ltac:(apply in_seq; lia)).
  rewrite !Z2Nat.id, Heq, Ascii.eqb_refl in Hall by lia. cbn [negb orb] in Hall.
  apply Nat.eqb_eq in Hall. lia.
Qed.

Lemma hex2_injective (a b : Z) : hex2 a = hex2 b -> uint8 a = uint8 b.
Proof.
  unfold hex2. intros [= Hhi Hlo].
  assert (Ha : 0 <= uint8 a < 256) by (apply Z.mod_pos_bound; lia).
  assert (Hb : 0 <= uint8 b < 256) by (apply Z.mod_pos_bound; lia).
  apply hex_digit_injective in Hhi;
    [| split; [apply Z.div_pos; lia | apply Z.div_lt_upper_bound; lia] ..].
  apply hex_digit_injective in Hlo; [| apply Z.mod_pos_bound; lia ..].
  pose proof (Z.div_mod (uint8 a) 16 ltac:(lia)). pose proof (Z.div_mod (uint8 b) 16 ltac:(lia)). lia.
Qed.

Lemma hex2_cons (ch : Z) (rest : string) :
  hex2 ch +:+ rest
  = String (hex_digit (uint8 ch / 16)) (String (hex_digit (uint8 ch mod 16)) rest).
Proof. reflexivity. Qed.

Lemma hex_fold_append (md : list Z) (buf : string) :
  fold_left (fun buf ch => buf +:+ hex2 ch) md buf
  = buf +:+ fold_left (fun buf ch => buf +:+ hex2 ch) md "".
Proof.
  revert buf. induction md as [|ch md IH]; intros buf; cbn [fold_left].
  - induction buf as [|c buf IHb]; [reflexivity|].
    change (String c buf +:+ "") with (String c (buf +:+ "")). now rewrite <- IHb.
  - rewrite IH, (IH ("" +:+ hex2 ch)), append_assoc. reflexivity.
Qed.

Lemma hex_fold_injective (m1 m2 : list Z) :
  length m1 = length m2 ->
  fold_left (fun buf ch => buf +:+ hex2 ch) m1 ""
  = fold_left (fun buf ch => buf +:+ hex2 ch) m2 "" ->
  map uint8 m1 = map uint8 m2.
Proof.
  revert m2. induction m1 as [|a m1 IH]; intros [|b m2] Hlen Heq;
    try discriminate; [reflexivity|].
  cbn [fold_left] in Heq.
  rewrite (hex_fold_append m1), (hex_fold_append m2) in Heq.
  change ("" +:+ hex2 a) with (hex2 a) in Heq.
  change ("" +:+ hex2 b) with (hex2 b) in Heq.
  assert (Hsplit : hex2 a = hex2 b
                   /\ fold_left (fun buf ch => buf +:+ hex2 ch) m1 ""
                      = fold_left (fun buf ch => buf +:+ hex2 ch) m2 "").
  { rewrite !hex2_cons in Heq. injection Heq as H1 H2 H3.
    split; [unfold hex2; congruence | exact H3]. }
  destruct Hsplit as [Hhead Htail].
  cbn [map]. f_equal; [now apply hex2_injective|].
  apply IH; [now injection Hlen | exact Htail].
Qed.

Lemma le_bytes_bytes (n : nat) (x : Z) : map uint8 (le_bytes n x) = le_bytes n x.
Proof.
  revert x. induction n as [|n IH]; intros x; [reflexivity|].
  cbn [le_bytes map]. rewrite IH. f_equal. unfold uint8. apply Z.mod_mod. lia.
Qed.

Lemma MD5_bytes (msg : list Z) : map uint8 (MD5.MD5 msg) = MD5.MD5 msg.
Proof.
  unfold MD5.MD5. destruct (MD5.blocks _ _ _) as [[[A B] C] D].
  now rewrite !map_app, !le_bytes_bytes.
Qed.

(** X23: the hexadecimal print of the digest loses nothing.  Two
    strings have the same [md5] text exactly when their MD5 digests are the
    same, so two ids that are hashed into file names share a name exactly
    when their digests collide.  Two ids share a data file in the same
    directory only when they are the same id or are both hashed with equal
    digests. *)
Theorem md5_hex_faithful (a b : string) :
  (md5 a = md5 b <-> MD5.MD5 (bytes_of_string a) = MD5.MD5 (bytes_of_string b))
  /\ (isSafeName a = false -> isSafeName b = false ->
      (encodeFilePath a = encodeFilePath b
       <-> MD5.MD5 (bytes_of_string a) = MD5.MD5 (bytes_of_string b)))
  /\ (forall rootDir relativePath,
        mappedKVPathWithID rootDir a relativePath
        = mappedKVPathWithID rootDir b relativePath ->
        a = b
        \/ (isSafeName a = false /\ isSafeName b = false
            /\ MD5.MD5 (bytes_of_string a) = MD5.MD5 (bytes_of_string b))).
Proof.
  assert (Hiff : md5 a = md5 b
                 <-> MD5.MD5 (bytes_of_string a) = MD5.MD5 (bytes_of_string b)).
  { unfold md5. split; [|now intros ->].
    intros Heq. apply hex_fold_injective in Heq; [|now rewrite !MD5_length].
    now rewrite !MD5_bytes in Heq. }
  assert (Hhashed : isSafeName a = false -> isSafeName b = false ->
            (encodeFilePath a = encodeFilePath b
             <-> MD5.MD5 (bytes_of_string a) = MD5.MD5 (bytes_of_string b))).
  { intros Ha Hb. unfold encodeFilePath.
    rewrite !hasSpecialCharacter_isSafeName, Ha, Hb. cbn [negb].
    rewrite <- Hiff. split; [|now intros ->].
    unfold SPECIAL_CHARACTER_DIRECTORY_NAME, MMKV_PATH_SLASH.
    intros Heq. now injection Heq. }
  split; [exact Hiff|]. split; [exact Hhashed|].
  intros rootDir relativePath Hpath.
  assert (Hname : encodeFilePath a = encodeFilePath b).
  { unfold mappedKVPathWithID in Hpath.
    destruct relativePath; apply append_cancel_l in Hpath;
      now apply append_cancel_l in Hpath. }
  destruct (isSafeName a) eqn:Ha, (isSafeName b) eqn:Hb.
  - left. unfold encodeFilePath in Hname.
    now rewrite !hasSpecialCharacter_isSafeName, Ha, Hb in Hname.
  - exfalso. symmetry in Hname. revert Hname. apply plain_and_hashed_differ; assumption.
  - exfalso. revert Hname. apply plain_and_hashed_differ; assumption.
  - right. split; [reflexivity|]. split; [reflexivity|]. now apply Hhashed.
Qed.

(** ** Start-up *)

